(** * Verification of the tabular-data analysis engine

    A shallow embedding of [src/lib/analysis] (utils, profiler, statistics,
    trends, anomalies, forecasting, correlations, insights and the query
    router [analyze]) together with the properties stated about it.

    Numbers are ECMAScript Numbers, that is IEEE 754 binary64 values: they are
    embedded as Rocq's primitive floats, whose [+ - * / sqrt] and comparisons
    are the correctly rounded binary64 operations.  Integers that the source
    only uses as lengths, counters and array positions are embedded as [nat]
    or [Z] (they stay far below 2^53, where binary64 is exact) and converted
    with [Z2F] where they enter floating-point arithmetic.  Strings are byte
    strings: the embedding is exact for ASCII text.

    The CSV reader of the upload function, through which datasets enter the
    application, is embedded after the engine; the properties proved about
    it and further properties of the engine are in the last part. *)

From Stdlib Require Import ZArith List String Ascii Bool Floats Lia Arith DecimalString.
From Stdlib Require Import FunctionalExtensionality.
Import ListNotations.

Set Warnings "-inexact-float".

Local Open Scope string_scope.
Local Open Scope list_scope.

(* ================================================================== *)
(** * Part I.  The ECMAScript values the engine computes with          *)
(* ================================================================== *)

(** ** Numbers *)

Module JsNum.

Definition nan : float := PrimFloat.nan.
Definition infinity : float := PrimFloat.infinity.

(** [isNaN(x)] and [isFinite(x)] on a Number. *)
Definition isNaN (x : float) : bool := PrimFloat.is_nan x.
Definition isFinite (x : float) : bool := PrimFloat.is_finite x.

(** [x === y], [x !== y], [x < y] ... on Numbers: IEEE comparisons, false on NaN. *)
Definition seq (x y : float) : bool := PrimFloat.eqb x y.
Definition sneq (x y : float) : bool := negb (PrimFloat.eqb x y).
Definition lt (x y : float) : bool := PrimFloat.ltb x y.
Definition le (x y : float) : bool := PrimFloat.leb x y.
Definition gt (x y : float) : bool := PrimFloat.ltb y x.
Definition ge (x y : float) : bool := PrimFloat.leb y x.

(** Bit-for-bit identity (Object.is on Numbers, with a single NaN). *)
Definition same (x y : float) : bool := PrimFloat.Leibniz.eqb x y.

(** Truthiness of a Number, and [x || d]. *)
Definition truthy (x : float) : bool := negb (isNaN x || seq x 0%float).
Definition orElse (x d : float) : float := if truthy x then x else d.

(** An integer as a Number (exact below 2^53, correctly rounded below 2^63). *)
Definition Z2F (z : Z) : float :=
  match z with
  | Z0 => 0%float
  | Zpos _ => PrimFloat.of_uint63 (Uint63.of_Z z)
  | Zneg p => PrimFloat.opp (PrimFloat.of_uint63 (Uint63.of_Z (Zpos p)))
  end.
Definition N2F (n : nat) : float := Z2F (Z.of_nat n).

Definition abs (x : float) : float := PrimFloat.abs x.
Definition sqrt (x : float) : float := PrimFloat.sqrt x.

(** [Math.pow(x, 2)]: engines return the product [x * x] for the exponent 2. *)
Definition pow2 (x : float) : float := (x * x)%float.

(** [Math.min(a, b)] and [Math.max(a, b)]: NaN is contagious, -0 is below +0. *)
Definition isNegZero (x : float) : bool := seq x 0%float && PrimFloat.get_sign x.
Definition min (a b : float) : float :=
  if isNaN a || isNaN b then nan
  else if lt a b then a
  else if lt b a then b
  else if isNegZero a then a else b.
Definition max (a b : float) : float :=
  if isNaN a || isNaN b then nan
  else if lt a b then b
  else if lt b a then a
  else if isNegZero a then b else a.

(** [Math.min(...xs)] and [Math.max(...xs)]. *)
Definition minList (xs : list float) : float := fold_left min xs infinity.
Definition maxList (xs : list float) : float := fold_left max xs (PrimFloat.opp infinity).

(** The integer floor of a finite value given by sign, mantissa and exponent. *)
Definition floorZ (s : bool) (m : positive) (e : Z) : Z :=
  Z.shiftl (if s then Zneg m else Zpos m) e.

(** [Math.floor], [Math.ceil], [Math.round]. *)
Definition floor (x : float) : float :=
  match Prim2SF x with
  | S754_finite s m e => if (0 <=? e)%Z then x else Z2F (floorZ s m e)
  | _ => x
  end.
Definition ceil (x : float) : float := PrimFloat.opp (floor (PrimFloat.opp x)).
Definition round (x : float) : float :=
  match Prim2SF x with
  | S754_finite s m e =>
      if (0 <=? e)%Z then x
      else
        (* floor (x + 1/2), computed exactly on the mantissa *)
        let z := Z.shiftl (2 * (if s then Zneg m else Zpos m) + Z.shiftl 1 (- e)) (e - 1) in
        if (z =? 0)%Z then (if s then PrimFloat.neg_zero else 0%float) else Z2F z
  | _ => x
  end.

(** The array position a Number denotes as a property key, if any. *)
Definition toIndex (x : float) : option nat :=
  match Prim2SF x with
  | S754_zero _ => Some 0%nat
  | S754_finite false m e =>
      if (0 <=? e)%Z then None   (* at least 2^52: beyond every array *)
      else if (Z.shiftl (Z.shiftl (Zpos m) e) (- e) =? Zpos m)%Z
           then Some (Z.to_nat (Z.shiftl (Zpos m) e)) else None
  | _ => None
  end.

(** [xs[i]] read as a Number: a missing element is [undefined], which is
    NaN in arithmetic. *)
Definition get (xs : list float) (i : nat) : float := nth i xs nan.
Definition getF (xs : list float) (i : float) : float :=
  match toIndex i with Some k => get xs k | None => nan end.

(** Last element of a non-empty array. *)
Definition last (xs : list float) : float := List.last xs nan.

End JsNum.

Abbreviation Z2F := JsNum.Z2F.
Abbreviation N2F := JsNum.N2F.

(** ** Strings *)

Module JsStr.

Definition isUpper (c : ascii) : bool :=
  let n := nat_of_ascii c in (65 <=? n)%nat && (n <=? 90)%nat.
Definition isLower (c : ascii) : bool :=
  let n := nat_of_ascii c in (97 <=? n)%nat && (n <=? 122)%nat.
Definition isDigit (c : ascii) : bool :=
  let n := nat_of_ascii c in (48 <=? n)%nat && (n <=? 57)%nat.
(** [\w] and [\s] of a regular expression (ASCII part). *)
Definition isWord (c : ascii) : bool :=
  isUpper c || isLower c || isDigit c || Ascii.eqb c "_".
Definition isSpace (c : ascii) : bool :=
  let n := nat_of_ascii c in ((9 <=? n)%nat && (n <=? 13)%nat) || (n =? 32)%nat.
Definition isQuote (c : ascii) : bool :=
  Ascii.eqb c "034" || Ascii.eqb c "'".

Definition lowerChar (c : ascii) : ascii :=
  if isUpper c then ascii_of_nat (nat_of_ascii c + 32) else c.
Definition upperChar (c : ascii) : ascii :=
  if isLower c then ascii_of_nat (nat_of_ascii c - 32) else c.

(** [s.toLowerCase()] *)
Fixpoint toLowerCase (s : string) : string :=
  match s with
  | EmptyString => EmptyString
  | String c r => String (lowerChar c) (toLowerCase r)
  end.

(** [s.includes(sub)] *)
Fixpoint includes (s sub : string) : bool :=
  if String.prefix sub s then true
  else match s with
       | EmptyString => false
       | String _ r => includes r sub
       end.

(** [parts.join(sep)] *)
Definition join (sep : string) (parts : list string) : string :=
  String.concat sep parts.

(** Decimal text of an integer, as [String(n)] prints one. *)
Definition ofZ (z : Z) : string := NilZero.string_of_int (Z.to_int z).
Definition ofNat (n : nat) : string := ofZ (Z.of_nat n).

Fixpoint repeatChar (c : ascii) (n : nat) : string :=
  match n with O => EmptyString | S k => String c (repeatChar c k) end.

(** [s.charAt(0).toUpperCase() + s.slice(1)] *)
Definition capitalize (s : string) : string :=
  match s with
  | EmptyString => EmptyString
  | String c r => String (upperChar c) r
  end.

End JsStr.

(** ** Conversions between Numbers and strings *)

Module JsConv.
Import JsStr.
Local Open Scope Z_scope.

Definition digitVal (c : ascii) : Z := Z.of_nat (nat_of_ascii c) - 48.
Definition hexVal (c : ascii) : option Z :=
  let n := Z.of_nat (nat_of_ascii c) in
  if isDigit c then Some (n - 48)
  else if (97 <=? n)%Z && (n <=? 102)%Z then Some (n - 87)
  else if (65 <=? n)%Z && (n <=? 70)%Z then Some (n - 55)
  else None.

Fixpoint span (p : ascii -> bool) (cs : list ascii) : list ascii * list ascii :=
  match cs with
  | c :: r => if p c then let '(a, b) := span p r in (c :: a, b) else ([], cs)
  | [] => ([], [])
  end.

Definition digitsVal (cs : list ascii) : Z :=
  fold_left (fun a c => 10 * a + digitVal c)%Z cs 0%Z.

(** The binary64 value nearest to [m * 10^e] (ties to even), with sign [s]. *)
Definition SFofDecimal (s : bool) (m : Z) (e : Z) : spec_float :=
  match m with
  | Zpos p =>
      if (0 <=? e)%Z then binary_round prec emax s (p * Z.to_pos (10 ^ e)) 0
      else
        let '(q, e', l) := SFdiv_core_binary prec emax (Zpos p) 0 (10 ^ (- e)) 0 in
        binary_round_aux prec emax s q e' l
  | _ => S754_zero s
  end.
Definition ofDecimal (s : bool) (m e : Z) : float := SF2Prim (SFofDecimal s m e).

(** Digits in radix [r] after a [0x], [0o] or [0b] prefix. *)
Fixpoint radixVal (r : Z) (acc : Z) (cs : list ascii) : option Z :=
  match cs with
  | [] => Some acc
  | c :: t =>
      match hexVal c with
      | Some d => if (d <? r)%Z then radixVal r (r * acc + d) t else None
      | None => None
      end
  end.

Definition stripSpace (cs : list ascii) : list ascii :=
  let fix dropl (l : list ascii) :=
    match l with
    | c :: r => if isSpace c then dropl r else l
    | [] => []
    end in
  rev (dropl (rev (dropl cs))).

(** An optional exponent part [e±ddd] that must end the literal. *)
Definition exponentPart (cs : list ascii) : option Z :=
  match cs with
  | [] => Some 0%Z
  | c :: r =>
      if Ascii.eqb (lowerChar c) "e" then
        let '(neg, r') :=
          match r with
          | "-"%char :: t => (true, t)
          | "+"%char :: t => (false, t)
          | _ => (false, r)
          end in
        let '(ds, rest) := span isDigit r' in
        match ds, rest with
        | _ :: _, [] => Some (if neg then - digitsVal ds else digitsVal ds)%Z
        | _, _ => None
        end
      else None
  end.

Definition unsignedDecimal (s : bool) (cs : list ascii) : float :=
  if String.eqb (string_of_list_ascii cs) "Infinity"
  then (if s then PrimFloat.neg_infinity else PrimFloat.infinity)
  else
    let '(ip, r1) := span isDigit cs in
    let '(fp, r2) :=
      match r1 with
      | "."%char :: r => span isDigit r
      | _ => ([], r1)
      end in
    match ip ++ fp with
    | [] => JsNum.nan
    | ds =>
        match exponentPart r2 with
        | Some ex => ofDecimal s (digitsVal ds) (ex - Z.of_nat (List.length fp))
        | None => JsNum.nan
        end
    end.

(** [Number(s)] on a string (the StringToNumber operation). *)
Definition stringToNumber (str : string) : float :=
  match stripSpace (list_ascii_of_string str) with
  | [] => 0%float
  | "0"%char :: c :: ds =>
      let radix :=
        match lowerChar c with
        | "x"%char => Some 16%Z | "o"%char => Some 8%Z | "b"%char => Some 2%Z
        | _ => None
        end in
      match radix, ds with
      | Some r, _ :: _ =>
          match radixVal r 0 ds with
          | Some v => ofDecimal false v 0
          | None => JsNum.nan
          end
      | Some _, [] => JsNum.nan
      | None, _ => unsignedDecimal false ("0"%char :: c :: ds)
      end
  | "-"%char :: r => unsignedDecimal true r
  | "+"%char :: r => unsignedDecimal false r
  | cs => unsignedDecimal false cs
  end.

(** *** Number to string *)

Definition sf_eqb (a b : spec_float) : bool :=
  match a, b with
  | S754_zero s, S754_zero t => Bool.eqb s t
  | S754_infinity s, S754_infinity t => Bool.eqb s t
  | S754_nan, S754_nan => true
  | S754_finite s m e, S754_finite t n f => Bool.eqb s t && Pos.eqb m n && Z.eqb e f
  | _, _ => false
  end.

(** [num / den >= 10^n] *)
Definition geqPow10 (num den n : Z) : bool :=
  den * 10 ^ Z.max n 0 <=? num * 10 ^ Z.max (- n) 0.

(** The decimal exponent [n] of [v = num / den > 0]: [10^(n-1) <= v < 10^n]. *)
Definition decimalExponent (num den : Z) : Z :=
  let est := (Z.log2 num - Z.log2 den) * 30103 / 100000 in
  let fix climb (fuel : nat) (n : Z) : Z :=
    match fuel with
    | O => n
    | S f => if geqPow10 num den n then climb f (n + 1) else n
    end in
  climb 8%nat (est - 2).

(** The shortest decimal [s * 10^(n-k)], [s] of [k] digits, that reads back
    as the value [m * 2^e]; the closest one when there are several. *)
Definition shortestDecimal (m : positive) (e : Z) : Z * Z :=
  let num := Zpos m * 2 ^ Z.max e 0 in
  let den := 2 ^ Z.max (- e) 0 in
  let n := decimalExponent num den in
  let readsBack (c t : Z) := sf_eqb (SFofDecimal false c t) (S754_finite false m e) in
  let fix search (fuel : nat) (k : Z) : Z * Z :=
    let t := n - k in
    let A := num * 10 ^ Z.max (- t) 0 in
    let B := den * 10 ^ Z.max t 0 in
    let lo := A / B in
    let hi := lo + 1 in
    let norm (c : Z) := if c =? 10 ^ k then (10 ^ (k - 1), n + 1) else (c, n) in
    match fuel with
    | O => norm lo
    | S f =>
        match readsBack lo t, readsBack hi t with
        | true, true =>
            match 2 * (A - lo * B) ?= B with
            | Lt => norm lo
            | Gt => norm hi
            | Eq => if Z.even lo then norm lo else norm hi
            end
        | true, false => norm lo
        | false, true => norm hi
        | false, false => search f (k + 1)
        end
    end in
  search 17%nat 1.

Definition zeros (n : Z) : string := repeatChar "0" (Z.to_nat n).
Definition takeStr (n : Z) (s : string) : string := String.substring 0 (Z.to_nat n) s.
Definition dropStr (n : Z) (s : string) : string :=
  String.substring (Z.to_nat n) (String.length s - Z.to_nat n) s.

(** [String(x)] for a Number (Number::toString, radix 10). *)
Definition numberToString (x : float) : string :=
  match Prim2SF x with
  | S754_nan => "NaN"
  | S754_zero _ => "0"
  | S754_infinity s => if s then "-Infinity" else "Infinity"
  | S754_finite s m e =>
      let '(d, n) := shortestDecimal m e in
      let ds := ofZ d in
      let k := Z.of_nat (String.length ds) in
      let body :=
        if (k <=? n)%Z && (n <=? 21)%Z then ds ++ zeros (n - k)
        else if (0 <? n)%Z && (n <=? 21)%Z then takeStr n ds ++ "." ++ dropStr n ds
        else if (-6 <? n)%Z && (n <=? 0)%Z then "0." ++ zeros (- n) ++ ds
        else
          let ex := n - 1 in
          let exs := (if (ex <? 0)%Z then "-" else "+") ++ ofZ (Z.abs ex) in
          if (k =? 1)%Z then ds ++ "e" ++ exs
          else takeStr 1 ds ++ "." ++ dropStr 1 ds ++ "e" ++ exs in
      (if s then "-" else "") ++ body
  end%string.

(** [x.toFixed(f)] for [0 <= f <= 100]. *)
Definition toFixed (x : float) (f : nat) : string :=
  match Prim2SF x with
  | S754_nan => "NaN"
  | S754_infinity s => if s then "-Infinity" else "Infinity"
  | S754_zero _ => if (f =? 0)%nat then "0" else "0." ++ zeros (Z.of_nat f)
  | S754_finite s m e =>
      if PrimFloat.leb 1e21%float (PrimFloat.abs x) then numberToString x
      else
        let num := Zpos m * 2 ^ Z.max e 0 in
        let den := 2 ^ Z.max (- e) 0 in
        let n := (2 * num * 10 ^ Z.of_nat f + den) / (2 * den) in
        let ds := ofZ n in
        let k := Z.of_nat (String.length ds) in
        let fz := Z.of_nat f in
        let body :=
          if (f =? 0)%nat then ds
          else
            let padded := if (k <=? fz)%Z then zeros (fz + 1 - k) ++ ds else ds in
            let kk := Z.of_nat (String.length padded) in
            takeStr (kk - fz) padded ++ "." ++ dropStr (kk - fz) padded in
        (if s then "-" else "") ++ body
  end%string.

End JsConv.

(** ** Cells, rows and datasets *)

(** A cell is a loosely typed scalar; a missing key reads as [undefined]. *)
Inductive JsValue : Type :=
| JUndefined
| JNull
| JBool (b : bool)
| JNum (x : float)
| JStr (s : string).

(** A row lists its own properties in enumeration order; a dataset is an
    array of rows.  [None] stands for a [null] or [undefined] reference. *)
Definition DataRow : Type := list (string * JsValue).
Definition Dataset : Type := list DataRow.

Module JsVal.

(** [row[key]] *)
Fixpoint get (row : DataRow) (key : string) : JsValue :=
  match row with
  | [] => JUndefined
  | (k, v) :: r => if String.eqb k key then v else get r key
  end.

(** [Object.keys(row)] *)
Definition keys (row : DataRow) : list string := map fst row.

(** [Number(v)] *)
Definition toNumber (v : JsValue) : float :=
  match v with
  | JUndefined => JsNum.nan
  | JNull => 0%float
  | JBool b => if b then 1%float else 0%float
  | JNum x => x
  | JStr s => JsConv.stringToNumber s
  end.

(** [String(v)] *)
Definition toString (v : JsValue) : string :=
  match v with
  | JUndefined => "undefined"
  | JNull => "null"
  | JBool b => if b then "true" else "false"
  | JNum x => JsConv.numberToString x
  | JStr s => s
  end.

(** [v !== null && v !== undefined && v !== ''] *)
Definition nonNull (v : JsValue) : bool :=
  match v with
  | JUndefined | JNull => false
  | JStr s => negb (String.eqb s "")
  | _ => true
  end.

(** [v ?? d] *)
Definition nullish (v d : JsValue) : JsValue :=
  match v with
  | JUndefined | JNull => d
  | _ => v
  end.

(** Key equality of [Set] and [Map] (SameValueZero). *)
Definition numKeyEq (x y : float) : bool :=
  (JsNum.isNaN x && JsNum.isNaN y) || JsNum.seq x y.
Definition keyEq (a b : JsValue) : bool :=
  match a, b with
  | JUndefined, JUndefined | JNull, JNull => true
  | JBool x, JBool y => Bool.eqb x y
  | JNum x, JNum y => numKeyEq x y
  | JStr x, JStr y => String.eqb x y
  | _, _ => false
  end.

End JsVal.

(** ** Arrays, sets and maps *)

Module JsArr.

Section Generic.
Context {A : Type}.

(** [xs.slice(i, j)] for [0 <= i]. *)
Definition slice (xs : list A) (i j : nat) : list A := firstn (j - i) (skipn i xs).

(** [xs.slice(-k)] *)
Definition sliceLast (xs : list A) (k : nat) : list A := skipn (List.length xs - k) xs.

(** [xs.sort(cmp)] where [lt a b] is [cmp(a, b) < 0]: the stable sort. *)
Fixpoint insert (lt : A -> A -> bool) (x : A) (l : list A) : list A :=
  match l with
  | [] => [x]
  | y :: r => if lt y x then y :: insert lt x r else x :: y :: r
  end.
Fixpoint sort (lt : A -> A -> bool) (l : list A) : list A :=
  match l with
  | [] => []
  | x :: r => insert lt x (sort lt r)
  end.

(** The distinct elements in first-occurrence order: [[...new Set(xs)]]. *)
Fixpoint distinct (eq : A -> A -> bool) (xs : list A) : list A :=
  match xs with
  | [] => []
  | x :: r => x :: filter (fun y => negb (eq x y)) (distinct eq r)
  end.

(** [xs.indexOf(x)] as an option. *)
Fixpoint indexOf (eq : A -> A -> bool) (x : A) (xs : list A) : option nat :=
  match xs with
  | [] => None
  | y :: r => if eq y x then Some 0%nat else option_map S (indexOf eq x r)
  end.

(** The entries of the [Map] built by
    [values.forEach(v => counts.set(v, (counts.get(v) || 0) + 1))]. *)
Fixpoint bump (eq : A -> A -> bool) (x : A) (m : list (A * nat)) : list (A * nat) :=
  match m with
  | [] => [(x, 1%nat)]
  | (k, c) :: r => if eq k x then (k, S c) :: r else (k, c) :: bump eq x r
  end.
Definition countMap (eq : A -> A -> bool) (xs : list A) : list (A * nat) :=
  fold_left (fun m x => bump eq x m) xs [].

(** A loop [for (i = 0; i < xs.length; i++)] over positions and elements. *)
Definition indexed (xs : list A) : list (nat * A) := combine (seq 0 (List.length xs)) xs.
End Generic.

(** [xs.sort((a, b) => a - b)] on Numbers. *)
Definition ltNum (a b : float) : bool := JsNum.lt (a - b)%float 0%float.
Definition sortNum (xs : list float) : list float := sort ltNum xs.

End JsArr.

(** ** What the host environment decides

    [Date.parse] (formats other than ISO, time zone), [toLocaleString]
    (locale) and [Math.pow] for exponents other than 2 are left to the
    implementation by ECMAScript: they are parameters of the embedding. *)
Record Host : Type := {
  dateParse : string -> float;
  toLocaleString : float -> string;
  mathPow : float -> float -> float
}.

(** ** Exceptions *)

Inductive JsError : Type :=
| TypeError (msg : string).

Inductive Completion (A : Type) : Type :=
| Normal (a : A)
| Throw (e : JsError).
Arguments Normal {A} a.
Arguments Throw {A} e.

Definition bindC {A B : Type} (c : Completion A) (k : A -> Completion B) : Completion B :=
  match c with
  | Normal a => k a
  | Throw e => Throw e
  end.

Notation "x <- c ;; k" := (bindC c (fun x => k))
  (at level 61, c at next level, right associativity).

(** Reading a property of [xs[i]]: a TypeError when the element is missing. *)
Definition propOf {A : Type} (xs : list A) (i : Z) (prop : string) : Completion A :=
  match (if (i <? 0)%Z then None else nth_error xs (Z.to_nat i)) with
  | Some a => Normal a
  | None => Throw (TypeError ("Cannot read properties of undefined (reading '" ++ prop ++ "')"))
  end.

(** Threading a throwing function through an array, left to right. *)
Fixpoint mapC {A B : Type} (f : A -> Completion B) (xs : list A) : Completion (list B) :=
  match xs with
  | [] => Normal []
  | x :: r => y <- f x ;; ys <- mapC f r ;; Normal (y :: ys)
  end.

(* ================================================================== *)
(** * Part II.  The engine                                             *)
(* ================================================================== *)

Local Open Scope float_scope.

(** ** types.ts *)

Inductive ColumnType : Type := TNumeric | TCategorical | TDatetime | TBoolean | TText.

Definition ColumnType_eqb (a b : ColumnType) : bool :=
  match a, b with
  | TNumeric, TNumeric | TCategorical, TCategorical | TDatetime, TDatetime
  | TBoolean, TBoolean | TText, TText => true
  | _, _ => false
  end.

Definition ColumnType_name (t : ColumnType) : string :=
  match t with
  | TNumeric => "numeric" | TCategorical => "categorical" | TDatetime => "datetime"
  | TBoolean => "boolean" | TText => "text"
  end.

(** A double quote, and a text between double quotes. *)
Definition dq : string := String "034" EmptyString.
Definition quoted (s : string) : string := (dq ++ s ++ dq)%string.

Module Anomaly.
Inductive kind : Type := zscore | iqr | spike | drop.
Record range : Type := { min : float; max : float }.
Record t : Type := {
  rowIndex : nat;
  column : string;
  value : float;
  expectedRange : range;
  score : float;
  type : kind
}.
End Anomaly.

Module AnomalyResult.
Record t : Type := {
  anomalies : list Anomaly.t;
  anomalyScore : float;
  affectedColumns : list string;
  explanation : string
}.
End AnomalyResult.

Module Forecast.
Inductive method : Type := linear | exponential | rolling.
Inductive selector : Type := auto | fixed (m : method).
Record interval : Type := { lower : float; upper : float }.
Record point : Type := { period : Z; value : float; confidence : interval }.
Record t : Type := {
  column : string;
  method_ : method;
  predictions : list point;
  trend : string;
  interpretation : string
}.
End Forecast.

Module Correlation.
Inductive kind : Type := pearson | cramers_v.
Inductive strength_ : Type := strong | moderate | weak | none.
Record pair : Type := {
  column1 : string;
  column2 : string;
  coefficient : float;
  type : kind;
  strength : strength_
}.
Definition strength_eqb (a b : strength_) : bool :=
  match a, b with
  | strong, strong | moderate, moderate | weak, weak | none, none => true
  | _, _ => false
  end.
Definition strength_name (s : strength_) : string :=
  match s with
  | strong => "strong" | moderate => "moderate" | weak => "weak" | none => "none"
  end.
End Correlation.

(** An object used as a dictionary: its own properties in enumeration order
    (array-index keys first, ascending, then the other keys in insertion
    order). *)
Module JsObj.

Definition t (A : Type) : Type := list (string * A).

(** The array index a key denotes: a decimal numeral without leading zero
    below 2^32 - 1. *)
Definition arrayIndex (k : string) : option Z :=
  match list_ascii_of_string k with
  | [] => None
  | c :: r =>
      if forallb JsStr.isDigit (c :: r)
         && (negb (Ascii.eqb c "0") || (List.length r =? 0)%nat)
         && (List.length r <? 10)%nat
      then
        let v := JsConv.digitsVal (c :: r) in
        if (v <? 4294967295)%Z then Some v else None
      else None
  end.

Fixpoint get {A : Type} (o : t A) (k : string) : option A :=
  match o with
  | [] => None
  | (k', v) :: r => if String.eqb k' k then Some v else get r k
  end.

Definition has {A : Type} (o : t A) (k : string) : bool :=
  match get o k with Some _ => true | None => false end.

Fixpoint replace {A : Type} (o : t A) (k : string) (v : A) : t A :=
  match o with
  | [] => []
  | (k', v') :: r => if String.eqb k' k then (k', v) :: r else (k', v') :: replace r k v
  end.

(** Where a new key goes. *)
Fixpoint add {A : Type} (o : t A) (k : string) (v : A) : t A :=
  match o with
  | [] => [(k, v)]
  | (k', v') :: r =>
      match arrayIndex k, arrayIndex k' with
      | Some i, Some i' => if (i <? i')%Z then (k, v) :: o else (k', v') :: add r k v
      | Some _, None => (k, v) :: o
      | None, _ => (k', v') :: add r k v
      end
  end.

(** [o[k] = v] *)
Definition set {A : Type} (o : t A) (k : string) (v : A) : t A :=
  if has o k then replace o k v else add o k v.

Definition keys {A : Type} (o : t A) : list string := map fst o.

End JsObj.

Module CorrelationResult.
Record t : Type := {
  matrix : JsObj.t (JsObj.t float);
  strongestRelations : list Correlation.pair;
  explanation : string
}.
End CorrelationResult.

Module Trend.
Inductive direction_ : Type := increasing | decreasing | stable | volatile.
Record shift : Type := { index : nat; magnitude : float; description : string }.
Record t : Type := {
  column : string;
  direction : direction_;
  strength : float;
  movingAverages : list float;
  seasonality : bool;
  seasonalPeriod : option nat;
  shifts : list shift;
  explanation : string
}.
Definition direction_eqb (a b : direction_) : bool :=
  match a, b with
  | increasing, increasing | decreasing, decreasing | stable, stable
  | volatile, volatile => true
  | _, _ => false
  end.
Definition direction_name (d : direction_) : string :=
  match d with
  | increasing => "increasing" | decreasing => "decreasing"
  | stable => "stable" | volatile => "volatile"
  end.
End Trend.

(** A value of type [string | number], and of type [number | string | Date]
    (a date is its time value). *)
Inductive StrOrNum : Type := SNstr (s : string) | SNnum (x : float).
Inductive Bound : Type := BNum (x : float) | BDate (time : float).

Definition StrOrNum_keyEq (a b : StrOrNum) : bool :=
  match a, b with
  | SNstr x, SNstr y => String.eqb x y
  | SNnum x, SNnum y => JsVal.numKeyEq x y
  | _, _ => false
  end.

Definition StrOrNum_toString (a : StrOrNum) : string :=
  match a with
  | SNstr s => s
  | SNnum x => JsConv.numberToString x
  end.

Module ColumnProfile.
Record t : Type := {
  name : string;
  type : ColumnType;
  nullCount : nat;
  totalCount : nat;
  uniqueCount : nat;
  min : option Bound;
  max : option Bound;
  mean : option float;
  median : option float;
  mode : option StrOrNum;
  stdDev : option float;
  topValues : list (StrOrNum * nat)
}.
End ColumnProfile.

Module DatasetProfile.
Record t : Type := {
  rowCount : nat;
  columnCount : nat;
  columns : list ColumnProfile.t;
  memoryEstimate : string;
  completeness : float
}.
End DatasetProfile.

Module StatisticalSummary.
Record distribution : Type := { column : string; type : string; description : string }.
Record outlier : Type := { o_column : string; o_count : nat; o_description : string }.
Record t : Type := {
  overview : string;
  keyMetrics : JsObj.t StrOrNum;
  distributions : list distribution;
  outliers : list outlier;
  correlationHighlights : list string;
  narrative : string
}.
End StatisticalSummary.

Module Insight.
Inductive kind : Type := observation | recommendation | warning | opportunity.
Inductive importance_ : Type := high | medium | low.
Record t : Type := {
  type : kind;
  category : string;
  title : string;
  description : string;
  importance : importance_;
  relatedColumns : list string
}.
Definition kind_eqb (a b : kind) : bool :=
  match a, b with
  | observation, observation | recommendation, recommendation
  | warning, warning | opportunity, opportunity => true
  | _, _ => false
  end.
Definition importanceOrder (i : importance_) : nat :=
  match i with high => 0 | medium => 1 | low => 2 end.
End Insight.

Module InsightResponse.
Inductive intent_ : Type :=
  summary | anomalies | forecast | trends | correlation | explain | profile.
Record insights_ : Type := {
  i_profile : option DatasetProfile.t;
  i_statistics : option StatisticalSummary.t;
  i_trends : option (list Trend.t);
  i_anomalies : option AnomalyResult.t;
  i_forecasts : option (list Forecast.t);
  i_correlations : option CorrelationResult.t;
  i_keyInsights : option (list Insight.t)
}.
Record t : Type := {
  query : string;
  intent : intent_;
  insights : insights_;
  textSummary : string;
  recommendedCharts : list string;
  executiveSummary : option string;
  recommendations : option (list string)
}.
(** The object [{}]. *)
Definition noInsights : insights_ :=
  {| i_profile := None; i_statistics := None; i_trends := None; i_anomalies := None;
     i_forecasts := None; i_correlations := None; i_keyInsights := None |}.
End InsightResponse.

Section Engine.

Variable host : Host.

(** ** utils.ts *)

(** The three date patterns, all anchored at the start of the string. *)
Inductive PatTok : Type := PDigit | PChar (c : ascii).

Fixpoint matchPrefix (pat : list PatTok) (cs : list ascii) : bool :=
  match pat, cs with
  | [], _ => true
  | PDigit :: p, c :: r => JsStr.isDigit c && matchPrefix p r
  | PChar a :: p, c :: r => Ascii.eqb a c && matchPrefix p r
  | _ :: _, [] => false
  end.

Definition datePatterns : list (list PatTok) :=
  [ [PDigit; PDigit; PDigit; PDigit; PChar "-"; PDigit; PDigit; PChar "-"; PDigit; PDigit];
    [PDigit; PDigit; PChar "/"; PDigit; PDigit; PChar "/"; PDigit; PDigit; PDigit; PDigit];
    [PDigit; PDigit; PChar "-"; PDigit; PDigit; PChar "-"; PDigit; PDigit; PDigit; PDigit] ].

Definition booleanValues : list string := ["true"; "false"; "1"; "0"; "yes"; "no"].

Definition detectColumnType (values : list JsValue) : ColumnType :=
  let nonNullValues := filter JsVal.nonNull values in
  if (List.length nonNullValues =? 0)%nat then TText
  else
    let sample := firstn (Nat.min 100 (List.length nonNullValues)) nonNullValues in
    let sampleLength := N2F (List.length sample) in
    if forallb (fun v => existsb (String.eqb (JsStr.toLowerCase (JsVal.toString v))) booleanValues) sample
    then TBoolean
    else
      let numericCount :=
        List.length (filter (fun v => negb (JsNum.isNaN (JsVal.toNumber v))
                                       && negb (JsVal.keyEq v (JStr ""))) sample) in
      if JsNum.ge (N2F numericCount / sampleLength) 0.9 then TNumeric
      else
        let dateCount :=
          List.length (filter (fun v =>
            let str := JsVal.toString v in
            existsb (fun p => matchPrefix p (list_ascii_of_string str)) datePatterns
            || negb (JsNum.isNaN (dateParse host str))) sample) in
        if JsNum.ge (N2F dateCount / sampleLength) 0.8 then TDatetime
        else
          let uniqueRatio :=
            N2F (List.length (JsArr.distinct String.eqb (map JsVal.toString sample))) / sampleLength in
          if JsNum.lt uniqueRatio 0.5
             || (List.length (JsArr.distinct JsVal.keyEq nonNullValues) <=? 20)%nat
          then TCategorical
          else TText.

Definition extractNumericValues (rows : Dataset) (column : string) : list float :=
  filter (fun v => negb (JsNum.isNaN v) && JsNum.isFinite v)
         (map (fun row => JsVal.toNumber (JsVal.get row column)) rows).

(** [values.reduce((sum, v) => sum + v, 0)] *)
Definition sum (values : list float) : float := fold_left (fun s v => s + v) values 0.

Definition mean (values : list float) : float :=
  if (List.length values =? 0)%nat then 0
  else sum values / N2F (List.length values).

Definition median (values : list float) : float :=
  if (List.length values =? 0)%nat then 0
  else
    let sorted := JsArr.sortNum values in
    let mid := (List.length sorted / 2)%nat in
    if negb (List.length sorted mod 2 =? 0)%nat
    then JsNum.get sorted mid
    else (JsNum.get sorted (mid - 1) + JsNum.get sorted mid) / 2.

Definition mode {T : Type} (eq : T -> T -> bool) (values : list T) : option T :=
  if (List.length values =? 0)%nat then None
  else
    snd (fold_left
           (fun (acc : nat * option T) (entry : T * nat) =>
              let '(maxCount, modeValue) := acc in
              let '(value, count) := entry in
              if (maxCount <? count)%nat then (count, Some value) else (maxCount, modeValue))
           (JsArr.countMap eq values) (0%nat, None)).

Definition standardDeviation (values : list float) : float :=
  if (List.length values <? 2)%nat then 0
  else
    let avg := mean values in
    let squareDiffs := map (fun v => JsNum.pow2 (v - avg)) values in
    JsNum.sqrt (mean squareDiffs).

Definition percentile (values : list float) (p : float) : float :=
  if (List.length values =? 0)%nat then 0
  else
    let sorted := JsArr.sortNum values in
    let index := (p / 100) * Z2F (Z.of_nat (List.length sorted) - 1) in
    let lower := JsNum.floor index in
    let upper := JsNum.ceil index in
    if JsNum.seq lower upper then JsNum.getF sorted lower
    else JsNum.getF sorted lower * (upper - index) + JsNum.getF sorted upper * (index - lower).

Record Quartiles : Type := { q1 : float; q2 : float; q3 : float }.

Definition quartiles (values : list float) : Quartiles :=
  {| q1 := percentile values 25; q2 := percentile values 50; q3 := percentile values 75 |}.

Definition zScore (value mean stdDev : float) : float :=
  if JsNum.seq stdDev 0 then 0 else (value - mean) / stdDev.

Record Regression : Type := { slope : float; intercept : float; r2 : float }.

Definition linearRegression (values : list float) : Regression :=
  let n := List.length values in
  if (n <? 2)%nat then {| slope := 0; intercept := JsNum.orElse (JsNum.get values 0) 0; r2 := 0 |}
  else
    let xMean := Z2F (Z.of_nat n - 1) / 2 in
    let yMean := mean values in
    let '(numerator, denominator, ssTotal) :=
      fold_left
        (fun (acc : float * float * float) (iv : nat * float) =>
           let '(num, den, sst) := acc in
           let xDiff := N2F (fst iv) - xMean in
           let yDiff := snd iv - yMean in
           (num + xDiff * yDiff, den + xDiff * xDiff, sst + yDiff * yDiff))
        (JsArr.indexed values) (0, 0, 0) in
    let slope := if JsNum.sneq denominator 0 then numerator / denominator else 0 in
    let intercept := yMean - slope * xMean in
    let ssResidual :=
      fold_left
        (fun (acc : float) (iv : nat * float) =>
           let predicted := slope * N2F (fst iv) + intercept in
           acc + JsNum.pow2 (snd iv - predicted))
        (JsArr.indexed values) 0 in
    let r2 := if JsNum.sneq ssTotal 0 then 1 - ssResidual / ssTotal else 0 in
    {| slope := slope; intercept := intercept; r2 := r2 |}.

Definition movingAverage (values : list float) (window : nat) : list float :=
  if (List.length values <? window)%nat then values
  else
    map (fun i => mean (JsArr.slice values i (i + window)))
        (seq 0 (List.length values - window + 1)).

(** The loop of [exponentialSmoothing]: [prev] is [result[i - 1]]. *)
Fixpoint smoothFrom (alpha prev : float) (rest : list float) : list float :=
  match rest with
  | [] => []
  | v :: r => let s := alpha * v + (1 - alpha) * prev in s :: smoothFrom alpha s r
  end.

Definition exponentialSmoothing (values : list float) (alpha : float) : list float :=
  match values with
  | [] => []
  | v0 :: rest => v0 :: smoothFrom alpha v0 rest
  end.

Definition pearsonCorrelation (x y : list float) : float :=
  let n := Nat.min (List.length x) (List.length y) in
  if (n <? 2)%nat then 0
  else
    let xMean := mean (JsArr.slice x 0 n) in
    let yMean := mean (JsArr.slice y 0 n) in
    let '(numerator, xDenom, yDenom) :=
      fold_left
        (fun (acc : float * float * float) (xy : float * float) =>
           let '(num, xd, yd) := acc in
           let xDiff := fst xy - xMean in
           let yDiff := snd xy - yMean in
           (num + xDiff * yDiff, xd + xDiff * xDiff, yd + yDiff * yDiff))
        (combine x y) (0, 0, 0) in
    let denominator := JsNum.sqrt (xDenom * yDenom) in
    if JsNum.sneq denominator 0 then numerator / denominator else 0.

Definition cramersV (x y : list string) : float :=
  let n := Nat.min (List.length x) (List.length y) in
  if (n <? 2)%nat then 0
  else
    let xCategories := JsArr.distinct String.eqb x in
    let yCategories := JsArr.distinct String.eqb y in
    (* contingency[xi][yi]: the pairs among the first n positions *)
    let contingency :=
      map (fun xc =>
             map (fun yc =>
                    List.length (filter (fun xy => String.eqb (fst xy) xc && String.eqb (snd xy) yc)
                                        (combine x y)))
                 yCategories)
          xCategories in
    let rowSums := map (fun row => fold_left Nat.add row 0%nat) contingency in
    let colSums :=
      map (fun j => fold_left (fun s row => (s + nth j row 0)%nat) contingency 0%nat)
          (seq 0 (List.length yCategories)) in
    let chiSquared :=
      fold_left
        (fun (chi : float) (irow : nat * list nat) =>
           fold_left
             (fun (chi : float) (jc : nat * nat) =>
                let expected :=
                  N2F (nth (fst irow) rowSums 0 * nth (fst jc) colSums 0)%nat / N2F n in
                if JsNum.gt expected 0
                then chi + JsNum.pow2 (N2F (snd jc) - expected) / expected
                else chi)
             (JsArr.indexed (snd irow)) chi)
        (JsArr.indexed contingency) 0 in
    let k := Nat.min (List.length xCategories) (List.length yCategories) in
    if (1 <? k)%nat then JsNum.sqrt (chiSquared / N2F (n * (k - 1))%nat) else 0.

Definition formatNumber (value : float) (decimals : nat) : string :=
  (if JsNum.ge (JsNum.abs value) 1e9 then JsConv.toFixed (value / 1e9) decimals ++ "B"
   else if JsNum.ge (JsNum.abs value) 1e6 then JsConv.toFixed (value / 1e6) decimals ++ "M"
   else if JsNum.ge (JsNum.abs value) 1e3 then JsConv.toFixed (value / 1e3) decimals ++ "K"
   else JsConv.toFixed value decimals)%string.

Definition topFrequentValues {T : Type} (eq : T -> T -> bool) (values : list T) (n : nat)
  : list (T * nat) :=
  firstn n (JsArr.sort (fun a b => (snd b <? snd a)%nat) (JsArr.countMap eq values)).

(** [new TextEncoder().encode(JSON.stringify(rows)).length] *)
Definition jsonChar (c : ascii) : string :=
  let n := nat_of_ascii c in
  if (n =? 34)%nat then String "\" dq
  else if (n =? 92)%nat then "\\"
  else if (n =? 8)%nat then "\b"
  else if (n =? 12)%nat then "\f"
  else if (n =? 10)%nat then "\n"
  else if (n =? 13)%nat then "\r"
  else if (n =? 9)%nat then "\t"
  else if (n <? 32)%nat then
    ("\u00" ++ (if (n <? 16)%nat then "0" else "1")
            ++ String (nth (n mod 16) (list_ascii_of_string "0123456789abcdef") "0"%char) "")%string
  else String c "".

Definition jsonString (s : string) : string :=
  quoted (String.concat "" (map jsonChar (list_ascii_of_string s))).

Definition jsonValue (v : JsValue) : option string :=
  match v with
  | JUndefined => None
  | JNull => Some "null"
  | JBool b => Some (if b then "true" else "false")
  | JNum x => Some (if JsNum.isFinite x then JsConv.numberToString x else "null")
  | JStr s => Some (jsonString s)
  end.

Definition jsonRow (row : DataRow) : string :=
  let props :=
    flat_map (fun kv => match jsonValue (snd kv) with
                        | Some t => [(jsonString (fst kv) ++ ":" ++ t)%string]
                        | None => []
                        end) row in
  ("{" ++ JsStr.join "," props ++ "}")%string.

Definition jsonStringify (rows : Dataset) : string :=
  ("[" ++ JsStr.join "," (map jsonRow rows) ++ "]")%string.

Definition estimateMemorySize (rows : Dataset) : string :=
  let bytes := String.length (jsonStringify rows) in
  let b := N2F bytes in
  (if JsNum.ge b 1e9 then JsConv.toFixed (b / 1e9) 2 ++ " GB"
   else if JsNum.ge b 1e6 then JsConv.toFixed (b / 1e6) 2 ++ " MB"
   else if JsNum.ge b 1e3 then JsConv.toFixed (b / 1e3) 2 ++ " KB"
   else JsStr.ofNat bytes ++ " bytes")%string.

(** ** anomalies.ts *)

Definition detectZScoreAnomalies (values : list float) (columnName : string) (threshold : float)
  : list Anomaly.t :=
  if (List.length values <? 10)%nat then []
  else
    let avg := mean values in
    let std := standardDeviation values in
    if JsNum.seq std 0 then []
    else
      flat_map
        (fun iv : nat * float =>
           let '(index, value) := iv in
           let z := zScore value avg std in
           if JsNum.gt (JsNum.abs z) threshold then
             [ {| Anomaly.rowIndex := index;
                  Anomaly.column := columnName;
                  Anomaly.value := value;
                  Anomaly.expectedRange :=
                    {| Anomaly.min := avg - 2 * std; Anomaly.max := avg + 2 * std |};
                  Anomaly.score := JsNum.min (JsNum.abs z / 5) 1;
                  Anomaly.type := Anomaly.zscore |} ]
           else [])
        (JsArr.indexed values).

Definition detectIQRAnomalies (values : list float) (columnName : string) (multiplier : float)
  : list Anomaly.t :=
  if (List.length values <? 10)%nat then []
  else
    let q := quartiles values in
    let iqr := q3 q - q1 q in
    let lowerBound := q1 q - multiplier * iqr in
    let upperBound := q3 q + multiplier * iqr in
    flat_map
      (fun iv : nat * float =>
         let '(index, value) := iv in
         if JsNum.lt value lowerBound || JsNum.gt value upperBound then
           let distance :=
             if JsNum.lt value lowerBound then lowerBound - value else value - upperBound in
           let score := JsNum.min (distance / JsNum.orElse iqr 1) 1 in
           [ {| Anomaly.rowIndex := index;
                Anomaly.column := columnName;
                Anomaly.value := value;
                Anomaly.expectedRange := {| Anomaly.min := lowerBound; Anomaly.max := upperBound |};
                Anomaly.score := score;
                Anomaly.type := Anomaly.iqr |} ]
         else [])
      (JsArr.indexed values).

Definition detectRollingAnomalies (values : list float) (columnName : string)
           (windowSize : nat) (threshold : float) : list Anomaly.t :=
  if (List.length values <? windowSize + 2)%nat then []
  else
    flat_map
      (fun i : nat =>
         let window := JsArr.slice values (i - windowSize) i in
         let windowMean := mean window in
         let windowStd := standardDeviation window in
         if JsNum.seq windowStd 0 then []
         else
           let currentValue := JsNum.get values i in
           let deviation := JsNum.abs (currentValue - windowMean) / windowStd in
           if JsNum.gt deviation threshold then
             let isSpike := JsNum.gt currentValue windowMean in
             [ {| Anomaly.rowIndex := i;
                  Anomaly.column := columnName;
                  Anomaly.value := currentValue;
                  Anomaly.expectedRange :=
                    {| Anomaly.min := windowMean - threshold * windowStd;
                       Anomaly.max := windowMean + threshold * windowStd |};
                  Anomaly.score := JsNum.min (deviation / 5) 1;
                  Anomaly.type := if isSpike then Anomaly.spike else Anomaly.drop |} ]
           else [])
      (seq windowSize (List.length values - windowSize)).

(** The [Map<number, Anomaly>] of the merge, as its entries in insertion
    order: [set] on a present key replaces the value in place. *)
Fixpoint mapSet (key : nat) (a : Anomaly.t) (m : list (nat * Anomaly.t)) : list (nat * Anomaly.t) :=
  match m with
  | [] => [(key, a)]
  | (k, b) :: r => if (k =? key)%nat then (k, a) :: r else (k, b) :: mapSet key a r
  end.

Fixpoint mapGet (key : nat) (m : list (nat * Anomaly.t)) : option Anomaly.t :=
  match m with
  | [] => None
  | (k, b) :: r => if (k =? key)%nat then Some b else mapGet key r
  end.

Definition mergeAnomaly (uniqueMap : list (nat * Anomaly.t)) (anomaly : Anomaly.t)
  : list (nat * Anomaly.t) :=
  let key := Anomaly.rowIndex anomaly in
  match mapGet key uniqueMap with
  | None => mapSet key anomaly uniqueMap
  | Some existing =>
      if JsNum.lt (Anomaly.score existing) (Anomaly.score anomaly)
      then mapSet key anomaly uniqueMap
      else uniqueMap
  end.

(** [(a, b) => b.score - a.score] is negative *)
Definition byScoreDesc (a b : Anomaly.t) : bool :=
  JsNum.lt (Anomaly.score b - Anomaly.score a) 0.

Definition detectColumnAnomalies (rows : Dataset) (columnName : string) : list Anomaly.t :=
  let values := extractNumericValues rows columnName in
  if (List.length values <? 10)%nat then []
  else
    let zScoreAnomalies := detectZScoreAnomalies values columnName 3 in
    let iqrAnomalies := detectIQRAnomalies values columnName 1.5 in
    let rollingAnomalies := detectRollingAnomalies values columnName 5 2 in
    let allAnomalies := zScoreAnomalies ++ iqrAnomalies ++ rollingAnomalies in
    let uniqueMap := fold_left mergeAnomaly allAnomalies [] in
    JsArr.sort byScoreDesc (map snd uniqueMap).

(** A [Set<string>] or a [Map<string, number>] in insertion order. *)
Definition setAdd (x : string) (s : list string) : list string :=
  if existsb (String.eqb x) s then s else s ++ [x].

Definition countType (k : Anomaly.kind) (anomalies : list Anomaly.t) : nat :=
  List.length
    (filter (fun a => match Anomaly.type a, k with
                      | Anomaly.zscore, Anomaly.zscore | Anomaly.iqr, Anomaly.iqr
                      | Anomaly.spike, Anomaly.spike | Anomaly.drop, Anomaly.drop => true
                      | _, _ => false
                      end) anomalies).

Definition generateAnomalyExplanation (anomalies : list Anomaly.t)
           (affectedColumns : list string) (totalRows : nat) : string :=
  if (List.length anomalies =? 0)%nat then
    "No significant anomalies detected in the dataset. Data values fall within expected ranges across all analyzed columns."
  else
    let pct := JsConv.toFixed (N2F (List.length anomalies) / N2F totalRows * 100) 2 in
    let overview :=
      ("Detected " ++ JsStr.ofNat (List.length anomalies) ++ " anomalous data point(s) affecting "
       ++ JsStr.ofNat (List.length affectedColumns) ++ " column(s), "
       ++ "representing " ++ pct ++ "% of the dataset.")%string in
    let nz := countType Anomaly.zscore anomalies in
    let ni := countType Anomaly.iqr anomalies in
    let ns := countType Anomaly.spike anomalies in
    let nd := countType Anomaly.drop anomalies in
    let typeDescriptions :=
      (if (0 <? nz)%nat then [(JsStr.ofNat nz ++ " statistical outlier(s)")%string] else [])
      ++ (if (0 <? ni)%nat then [(JsStr.ofNat ni ++ " IQR-based anomaly(ies)")%string] else [])
      ++ (if (0 <? ns)%nat then [(JsStr.ofNat ns ++ " sudden spike(s)")%string] else [])
      ++ (if (0 <? nd)%nat then [(JsStr.ofNat nd ++ " sudden drop(s)")%string] else []) in
    let breakdown :=
      if (0 <? List.length typeDescriptions)%nat
      then [("Anomaly breakdown: " ++ JsStr.join ", " typeDescriptions ++ ".")%string] else [] in
    let columnCounts := JsArr.countMap String.eqb (map Anomaly.column anomalies) in
    let sortedColumns :=
      firstn 3 (JsArr.sort (fun a b : string * nat => (snd b <? snd a)%nat) columnCounts) in
    let most :=
      if (0 <? List.length sortedColumns)%nat then
        let colDescriptions :=
          map (fun cc : string * nat =>
                 (quoted (fst cc) ++ " (" ++ JsStr.ofNat (snd cc) ++ ")")%string) sortedColumns in
        [("Most affected columns: " ++ JsStr.join ", " colDescriptions ++ ".")%string]
      else [] in
    let highSeverity := filter (fun a => JsNum.gt (Anomaly.score a) 0.8) anomalies in
    let high :=
      if (0 <? List.length highSeverity)%nat then
        [(JsStr.ofNat (List.length highSeverity)
          ++ " high-severity anomaly(ies) detected that warrant immediate investigation.")%string]
      else [] in
    JsStr.join " " ([overview] ++ breakdown ++ most ++ high).

Definition detectAllAnomalies (rows : Dataset) : AnomalyResult.t :=
  match rows with
  | [] =>
      {| AnomalyResult.anomalies := [];
         AnomalyResult.anomalyScore := 0;
         AnomalyResult.affectedColumns := [];
         AnomalyResult.explanation := "No data available for anomaly detection." |}
  | row0 :: _ =>
      let columnNames := JsVal.keys row0 in
      let '(allAnomalies, affectedColumns) :=
        fold_left
          (fun (acc : list Anomaly.t * list string) (column : string) =>
             let values := extractNumericValues rows column in
             if (10 <=? List.length values)%nat then
               let anomalies := detectColumnAnomalies rows column in
               if (0 <? List.length anomalies)%nat
               then (fst acc ++ anomalies, setAdd column (snd acc))
               else acc
             else acc)
          columnNames ([], []) in
      let sortedAnomalies := firstn 100 (JsArr.sort byScoreDesc allAnomalies) in
      let anomalyScore :=
        if (0 <? List.length sortedAnomalies)%nat
        then JsNum.min (N2F (List.length sortedAnomalies) / N2F (List.length rows)) 1
        else 0 in
      let explanation :=
        generateAnomalyExplanation sortedAnomalies affectedColumns (List.length rows) in
      {| AnomalyResult.anomalies := sortedAnomalies;
         AnomalyResult.anomalyScore := anomalyScore;
         AnomalyResult.affectedColumns := affectedColumns;
         AnomalyResult.explanation := explanation |}
  end.

Record AnomalySummary : Type := {
  count : nat;
  severity : string;
  topAnomalies : list Anomaly.t
}.

Definition getColumnAnomalySummary (rows : Dataset) (columnName : string) : AnomalySummary :=
  let anomalies := detectColumnAnomalies rows columnName in
  let maxScore :=
    if (0 <? List.length anomalies)%nat then JsNum.maxList (map Anomaly.score anomalies) else 0 in
  let severity :=
    if JsNum.gt maxScore 0.8 then "high"
    else if JsNum.gt maxScore 0.5 then "medium"
    else if (0 <? List.length anomalies)%nat then "low"
    else "none" in
  {| count := List.length anomalies;
     severity := severity;
     topAnomalies := firstn 5 anomalies |}.

(** ** forecasting.ts *)

(** The loop [for (let i = 1; i <= periods; i++)]. *)
Definition periodsLoop (periods : Z) : list Z := map Z.of_nat (seq 1 (Z.to_nat periods)).

Definition linearForecast (values : list float) (periods : Z)
  : list Forecast.point * string :=
  let reg := linearRegression values in
  let std := standardDeviation values in
  let confidenceMultiplier := 1.96 in
  let predictions :=
    map (fun i : Z =>
           let predictedValue :=
             slope reg * Z2F (Z.of_nat (List.length values) + i - 1) + intercept reg in
           let uncertainty :=
             std * confidenceMultiplier * JsNum.sqrt (1 + (1 / N2F (List.length values))) in
           {| Forecast.period := i;
              Forecast.value := predictedValue;
              Forecast.confidence :=
                {| Forecast.lower := predictedValue - uncertainty * (1 + Z2F i * 0.1);
                   Forecast.upper := predictedValue + uncertainty * (1 + Z2F i * 0.1) |} |})
        (periodsLoop periods) in
  let trend :=
    (if JsNum.lt (JsNum.abs (slope reg)) (0.01 * mean values) then "stable"
     else if JsNum.gt (slope reg) 0 then
       "increasing at " ++ JsConv.toFixed (slope reg / mean values * 100) 1 ++ "% per period"
     else
       "decreasing at " ++ JsConv.toFixed (JsNum.abs (slope reg / mean values) * 100) 1
       ++ "% per period")%string in
  (predictions, trend).

Definition exponentialForecast (values : list float) (periods : Z) (alpha : float)
  : Completion (list Forecast.point * string) :=
  let smoothed := exponentialSmoothing values alpha in
  let lastSmoothed := JsNum.get smoothed (List.length smoothed - 1) in
  let std := standardDeviation values in
  let recentSmoothed := JsArr.sliceLast smoothed (Nat.min 10 (List.length smoothed)) in
  let slope := slope (linearRegression recentSmoothed) in
  let predictions :=
    map (fun i : Z =>
           let predictedValue := lastSmoothed + slope * Z2F i in
           let uncertainty := std * 1.96 * JsNum.sqrt (Z2F i) in
           {| Forecast.period := i;
              Forecast.value := predictedValue;
              Forecast.confidence :=
                {| Forecast.lower := predictedValue - uncertainty;
                   Forecast.upper := predictedValue + uncertainty |} |})
        (periodsLoop periods) in
  pctChange <-
    (if JsNum.sneq lastSmoothed 0 then
       p <- propOf predictions (periods - 1) "value" ;;
       Normal ((Forecast.value p - lastSmoothed) / JsNum.abs lastSmoothed * 100)
     else Normal 0) ;;
  let trend :=
    (if JsNum.lt (JsNum.abs pctChange) 5 then "expected to remain stable"
     else if JsNum.gt pctChange 0 then
       "expected to increase by " ++ JsConv.toFixed pctChange 1 ++ "%"
     else "expected to decrease by " ++ JsConv.toFixed (JsNum.abs pctChange) 1 ++ "%")%string in
  Normal (predictions, trend).

Definition rollingForecast (values : list float) (periods : Z) (windowSize : option nat)
  : Completion (list Forecast.point * string) :=
  let window :=
    match windowSize with
    | Some (S w) => S w
    | _ => Nat.max 3 (List.length values / 5)
    end in
  let ma := movingAverage values window in
  let lastMA := JsNum.get ma (List.length ma - 1) in
  let std := standardDeviation values in
  let slope := slope (linearRegression ma) in
  let predictions :=
    map (fun i : Z =>
           let predictedValue := lastMA + slope * Z2F i in
           let uncertainty := std * 1.5 * JsNum.sqrt (Z2F i / N2F window) in
           {| Forecast.period := i;
              Forecast.value := predictedValue;
              Forecast.confidence :=
                {| Forecast.lower := predictedValue - uncertainty;
                   Forecast.upper := predictedValue + uncertainty |} |})
        (periodsLoop periods) in
  first <- propOf predictions 0 "value" ;;
  last <- propOf predictions (periods - 1) "value" ;;
  let firstPred := Forecast.value first in
  let lastPred := Forecast.value last in
  let changePct :=
    if JsNum.sneq firstPred 0 then (lastPred - firstPred) / JsNum.abs firstPred * 100 else 0 in
  let trend :=
    (if JsNum.lt (JsNum.abs changePct) 3 then "stable outlook"
     else if JsNum.gt changePct 0 then
       "gradual upward trend (+" ++ JsConv.toFixed changePct 1 ++ "%)"
     else "gradual downward trend (" ++ JsConv.toFixed changePct 1 ++ "%)")%string in
  Normal (predictions, trend).

Definition methodKey (m : Forecast.method) : string :=
  match m with
  | Forecast.linear => "linear"
  | Forecast.exponential => "exponential"
  | Forecast.rolling => "rolling"
  end.

Definition methodNames (m : Forecast.method) : string :=
  match m with
  | Forecast.linear => "linear regression"
  | Forecast.exponential => "exponential smoothing"
  | Forecast.rolling => "rolling average"
  end.

Definition generateForecastInterpretation (column : string) (method : Forecast.method)
           (predictions : list Forecast.point) (trend : string) (changeFromCurrent : float)
  : string :=
  let head :=
    ("Forecast for " ++ quoted column ++ " using " ++ methodNames method ++ ": " ++ trend ++ ".")%string in
  let ci (p : Forecast.point) :=
    (JsConv.toFixed (Forecast.value p) 2 ++ " (95% CI: "
     ++ JsConv.toFixed (Forecast.lower (Forecast.confidence p)) 2 ++ " - "
     ++ JsConv.toFixed (Forecast.upper (Forecast.confidence p)) 2 ++ ").")%string in
  let specific :=
    match predictions with
    | [] => []
    | firstPred :: _ =>
        let lastPred := List.last predictions firstPred in
        [("Short-term prediction (period 1): " ++ ci firstPred)%string]
        ++ (if (1 <? List.length predictions)%nat then
              [("Extended prediction (period " ++ JsStr.ofNat (List.length predictions) ++ "): "
                ++ ci lastPred)%string]
            else [])
    end in
  let change :=
    (if JsNum.gt (JsNum.abs changeFromCurrent) 10 then
       if JsNum.gt changeFromCurrent 0 then
         "This represents a significant projected increase of "
         ++ JsConv.toFixed changeFromCurrent 1 ++ "% from current levels."
       else
         "This represents a significant projected decrease of "
         ++ JsConv.toFixed (JsNum.abs changeFromCurrent) 1 ++ "% from current levels."
     else
       "The forecast indicates relatively stable conditions with minimal deviation from current levels.")%string in
  JsStr.join " " ([head] ++ specific ++ [change]).

Definition forecast (rows : Dataset) (columnName : string) (periods : Z)
           (method : Forecast.selector) : Completion Forecast.t :=
  let values := extractNumericValues rows columnName in
  if (List.length values <? 5)%nat then
    Normal
      {| Forecast.column := columnName;
         Forecast.method_ := Forecast.linear;
         Forecast.predictions := [];
         Forecast.trend := "insufficient data";
         Forecast.interpretation :=
           ("Cannot generate forecast for " ++ quoted columnName
            ++ ": insufficient data points (minimum 5 required, found "
            ++ JsStr.ofNat (List.length values) ++ ").")%string |}
  else
    let selectedMethod :=
      match method with
      | Forecast.auto =>
          let r2 := r2 (linearRegression values) in
          let cv := standardDeviation values / JsNum.orElse (mean values) 1 in
          if JsNum.gt r2 0.7 then Forecast.linear
          else if JsNum.gt cv 0.3 then Forecast.exponential
          else Forecast.rolling
      | Forecast.fixed m => m
      end in
    result <-
      match selectedMethod with
      | Forecast.linear => Normal (linearForecast values periods)
      | Forecast.exponential => exponentialForecast values periods 0.3
      | Forecast.rolling => rollingForecast values periods None
      end ;;
    let predictions := fst result in
    let lastActual := JsNum.get values (List.length values - 1) in
    changeFromCurrent <-
      (if JsNum.sneq lastActual 0 then
         finalPredicted <- propOf predictions (Z.of_nat (List.length predictions) - 1) "value" ;;
         Normal ((Forecast.value finalPredicted - lastActual) / JsNum.abs lastActual * 100)
       else Normal 0) ;;
    let interpretation :=
      generateForecastInterpretation columnName selectedMethod predictions (snd result)
                                     changeFromCurrent in
    Normal
      {| Forecast.column := columnName;
         Forecast.method_ := selectedMethod;
         Forecast.predictions := predictions;
         Forecast.trend := snd result;
         Forecast.interpretation := interpretation |}.

Definition forecastAll (rows : Dataset) (periods : Z) : Completion (list Forecast.t) :=
  match rows with
  | [] => Normal []
  | row0 :: _ =>
      let columnNames := JsVal.keys row0 in
      mapC (fun column => forecast rows column periods Forecast.auto)
           (filter (fun column => (5 <=? List.length (extractNumericValues rows column))%nat)
                   columnNames)
  end.

Definition getForecastSummary (forecasts : list Forecast.t) : string :=
  if (List.length forecasts =? 0)%nat then "No columns have sufficient data for forecasting."
  else
    let has (w : string) (f : Forecast.t) := JsStr.includes (Forecast.trend f) w in
    let growing := filter (fun f => has "increas" f || has "upward" f) forecasts in
    let declining := filter (fun f => has "decreas" f || has "downward" f) forecasts in
    let stable := filter (has "stable") forecasts in
    let parts :=
      (if (0 <? List.length growing)%nat then
         [(JsStr.ofNat (List.length growing) ++ " metric(s) forecasted to grow: "
           ++ JsStr.join ", " (map Forecast.column growing))%string] else [])
      ++ (if (0 <? List.length declining)%nat then
            [(JsStr.ofNat (List.length declining) ++ " metric(s) forecasted to decline: "
              ++ JsStr.join ", " (map Forecast.column declining))%string] else [])
      ++ (if (0 <? List.length stable)%nat then
            [(JsStr.ofNat (List.length stable) ++ " metric(s) expected to remain stable")%string]
          else []) in
    (JsStr.join ". " parts ++ ".")%string.

(** ** correlations.ts *)

Definition getCorrelationStrength (coefficient : float) : Correlation.strength_ :=
  let abs := JsNum.abs coefficient in
  if JsNum.ge abs 0.7 then Correlation.strong
  else if JsNum.ge abs 0.4 then Correlation.moderate
  else if JsNum.ge abs 0.2 then Correlation.weak
  else Correlation.none.

(** The column read by [rows.map(row => row[col])]. *)
Definition columnValues (rows : Dataset) (col : string) : list JsValue :=
  map (fun row => JsVal.get row col) rows.

(** [matrix[a]?.[b]] *)
Definition matrixGet (matrix : JsObj.t (JsObj.t float)) (a b : string) : option float :=
  match JsObj.get matrix a with
  | Some row => JsObj.get row b
  | None => None
  end.

(** [matrix[a][b] = v] when [matrix[a]] is an object. *)
Definition matrixSet (matrix : JsObj.t (JsObj.t float)) (a b : string) (v : float)
  : JsObj.t (JsObj.t float) :=
  match JsObj.get matrix a with
  | Some row => JsObj.set matrix a (JsObj.set row b v)
  | None => matrix
  end.

Definition calculateCorrelationMatrix (rows : Dataset) (columns : option (list string))
  : JsObj.t (JsObj.t float) :=
  match rows with
  | [] => []
  | row0 :: _ =>
      let allColumns := match columns with Some cs => cs | None => JsVal.keys row0 end in
      let numericColumns :=
        filter (fun col => ColumnType_eqb (detectColumnType (columnValues rows col)) TNumeric)
               allColumns in
      fold_left
        (fun (matrix : JsObj.t (JsObj.t float)) (col1 : string) =>
           let matrix := JsObj.set matrix col1 [] in
           let values1 := extractNumericValues rows col1 in
           fold_left
             (fun (matrix : JsObj.t (JsObj.t float)) (col2 : string) =>
                if String.eqb col1 col2 then matrixSet matrix col1 col2 1
                else
                  match matrixGet matrix col2 col1 with
                  | Some mirrored => matrixSet matrix col1 col2 mirrored
                  | None =>
                      let values2 := extractNumericValues rows col2 in
                      matrixSet matrix col1 col2 (pearsonCorrelation values1 values2)
                  end)
             numericColumns matrix)
        numericColumns []
  end.

(** The pairs [(i, j)], [i < j], of the two nested loops, in loop order. *)
Fixpoint orderedPairs {A : Type} (xs : list A) : list (A * A) :=
  match xs with
  | [] => []
  | x :: r => map (fun y => (x, y)) r ++ orderedPairs r
  end.

Definition byAbsCoefficientDesc (a b : Correlation.pair) : bool :=
  JsNum.lt (JsNum.abs (Correlation.coefficient b) - JsNum.abs (Correlation.coefficient a)) 0.

Definition findStrongestCorrelations (matrix : JsObj.t (JsObj.t float)) (limit : nat)
  : list Correlation.pair :=
  let columns := JsObj.keys matrix in
  let pairs :=
    map (fun cc : string * string =>
           let coefficient :=
             match matrixGet matrix (fst cc) (snd cc) with
             | Some c => JsNum.orElse c 0
             | None => 0
             end in
           {| Correlation.column1 := fst cc;
              Correlation.column2 := snd cc;
              Correlation.coefficient := coefficient;
              Correlation.type := Correlation.pearson;
              Correlation.strength := getCorrelationStrength coefficient |})
        (orderedPairs columns) in
  firstn limit
    (JsArr.sort byAbsCoefficientDesc
       (filter (fun p => negb (Correlation.strength_eqb (Correlation.strength p) Correlation.none))
               pairs)).

(** [rows.map(row => String(row[col] ?? ''))] *)
Definition columnStrings (rows : Dataset) (col : string) : list string :=
  map (fun row => JsVal.toString (JsVal.nullish (JsVal.get row col) (JStr ""))) rows.

Definition calculateCategoricalCorrelations (rows : Dataset) (columns : option (list string))
  : list Correlation.pair :=
  match rows with
  | [] => []
  | row0 :: _ =>
      let allColumns := match columns with Some cs => cs | None => JsVal.keys row0 end in
      let categoricalColumns :=
        filter (fun col =>
                  let type := detectColumnType (columnValues rows col) in
                  ColumnType_eqb type TCategorical || ColumnType_eqb type TBoolean)
               allColumns in
      let pairs :=
        flat_map
          (fun cc : string * string =>
             let values1 := columnStrings rows (fst cc) in
             let values2 := columnStrings rows (snd cc) in
             let coefficient := cramersV values1 values2 in
             if JsNum.gt coefficient 0.1 then
               [ {| Correlation.column1 := fst cc;
                    Correlation.column2 := snd cc;
                    Correlation.coefficient := coefficient;
                    Correlation.type := Correlation.cramers_v;
                    Correlation.strength := getCorrelationStrength coefficient |} ]
             else [])
          (orderedPairs categoricalColumns) in
      JsArr.sort
        (fun a b => JsNum.lt (Correlation.coefficient b - Correlation.coefficient a) 0) pairs
  end.

Definition isStrong (p : Correlation.pair) : bool :=
  Correlation.strength_eqb (Correlation.strength p) Correlation.strong.

Definition generateCorrelationExplanation (numericPairs categoricalPairs : list Correlation.pair)
  : string :=
  let strongNumeric := filter isStrong numericPairs in
  let strongCategorical := filter isStrong categoricalPairs in
  let overview :=
    (if (List.length strongNumeric =? 0)%nat && (List.length strongCategorical =? 0)%nat then
       "Analysis reveals no strong correlations between variables. "
       ++ "This suggests features are largely independent, which can be beneficial for predictive modeling."
     else
       "Identified " ++ JsStr.ofNat (List.length strongNumeric) ++ " strong numeric correlation(s) and "
       ++ JsStr.ofNat (List.length strongCategorical) ++ " strong categorical association(s).")%string in
  let top :=
    match strongNumeric with
    | [] => []
    | top :: _ =>
        let direction :=
          if JsNum.gt (Correlation.coefficient top) 0 then "positive" else "negative" in
        [("The strongest relationship is a " ++ direction ++ " correlation (r="
          ++ JsConv.toFixed (Correlation.coefficient top) 2 ++ ") "
          ++ "between " ++ quoted (Correlation.column1 top) ++ " and "
          ++ quoted (Correlation.column2 top) ++ ".")%string]
        ++ (if JsNum.gt (Correlation.coefficient top) 0.9
               || JsNum.lt (Correlation.coefficient top) (-0.9)
            then
              [("This very high correlation may indicate redundancy or multicollinearity, "
                ++ "suggesting one variable could potentially be removed without significant information loss.")%string]
            else [])
    end in
  let moderatePairs :=
    filter (fun p => Correlation.strength_eqb (Correlation.strength p) Correlation.moderate)
           numericPairs in
  let moderate :=
    if (0 <? List.length moderatePairs)%nat then
      [("Additionally, " ++ JsStr.ofNat (List.length moderatePairs)
        ++ " moderate correlation(s) were detected, "
        ++ "indicating meaningful but not deterministic relationships.")%string]
    else [] in
  let categorical :=
    if (0 <? List.length strongCategorical)%nat then
      [("Among categorical variables, notable associations exist that may warrant "
        ++ "further investigation for feature engineering or segmentation analysis.")%string]
    else [] in
  JsStr.join " " ([overview] ++ top ++ moderate ++ categorical).

Definition analyzeCorrelations (rows : Dataset) : CorrelationResult.t :=
  match rows with
  | [] =>
      {| CorrelationResult.matrix := [];
         CorrelationResult.strongestRelations := [];
         CorrelationResult.explanation := "No data available for correlation analysis." |}
  | _ :: _ =>
      let matrix := calculateCorrelationMatrix rows None in
      let numericPairs := findStrongestCorrelations matrix 10 in
      let categoricalPairs := calculateCategoricalCorrelations rows None in
      let allPairs :=
        firstn 15 (JsArr.sort byAbsCoefficientDesc (numericPairs ++ categoricalPairs)) in
      let explanation := generateCorrelationExplanation numericPairs categoricalPairs in
      {| CorrelationResult.matrix := matrix;
         CorrelationResult.strongestRelations := allPairs;
         CorrelationResult.explanation := explanation |}
  end.

Record ColumnCorrelation : Type := {
  cc_coefficient : float;
  cc_strength : string;
  cc_interpretation : string
}.

Definition getColumnCorrelation (rows : Dataset) (column1 column2 : string) : ColumnCorrelation :=
  let values1 := columnValues rows column1 in
  let values2 := columnValues rows column2 in
  let type1 := detectColumnType values1 in
  let type2 := detectColumnType values2 in
  let '(coefficient, method) :=
    if ColumnType_eqb type1 TNumeric && ColumnType_eqb type2 TNumeric then
      (pearsonCorrelation (extractNumericValues rows column1) (extractNumericValues rows column2),
       "Pearson")
    else
      (cramersV (map JsVal.toString values1) (map JsVal.toString values2), "Cramer's V") in
  let strength := getCorrelationStrength coefficient in
  let tail :=
    (" relationship between " ++ quoted column1 ++ " and " ++ quoted column2 ++ " (" ++ method
     ++ ": " ++ JsConv.toFixed coefficient 3 ++ ").")%string in
  let interpretation :=
    (if Correlation.strength_eqb strength Correlation.none then
       "No significant" ++ tail
     else
       let direction := if JsNum.gt coefficient 0 then "positive" else "negative" in
       JsStr.capitalize (Correlation.strength_name strength) ++ " " ++ direction ++ tail)%string in
  {| cc_coefficient := coefficient;
     cc_strength := Correlation.strength_name strength;
     cc_interpretation := interpretation |}.

Record RelatedFeature : Type := {
  rf_column : string;
  rf_correlation : float;
  rf_strength : Correlation.strength_
}.

Definition findCorrelatedFeatures (rows : Dataset) (targetColumn : string) (limit : nat)
  : list RelatedFeature :=
  match rows with
  | [] => []
  | row0 :: _ =>
      let columns := filter (fun c => negb (String.eqb c targetColumn)) (JsVal.keys row0) in
      let targetValues := extractNumericValues rows targetColumn in
      let rank (score : string -> float) :=
        firstn limit
          (JsArr.sort
             (fun a b => JsNum.lt (JsNum.abs (rf_correlation b) - JsNum.abs (rf_correlation a)) 0)
             (filter (fun r => negb (Correlation.strength_eqb (rf_strength r) Correlation.none))
                     (map (fun col =>
                             let correlation := score col in
                             {| rf_column := col;
                                rf_correlation := correlation;
                                rf_strength := getCorrelationStrength correlation |})
                          columns))) in
      if (List.length targetValues =? 0)%nat then
        let targetStrings := columnStrings rows targetColumn in
        rank (fun col => cramersV targetStrings (columnStrings rows col))
      else
        rank (fun col =>
                let colValues := extractNumericValues rows col in
                if (3 <=? List.length colValues)%nat
                then pearsonCorrelation targetValues colValues
                else 0)
  end.

(** ** trends.ts *)

Definition detectTrendDirection (values : list float) : Trend.direction_ * float :=
  if (List.length values <? 3)%nat then (Trend.stable, 0)
  else
    let reg := linearRegression values in
    let normalizedSlope := slope reg / JsNum.orElse (mean values) 1 in
    let direction :=
      if JsNum.lt (JsNum.abs normalizedSlope) 0.01 then Trend.stable
      else if JsNum.gt normalizedSlope 0 then Trend.increasing
      else Trend.decreasing in
    let std := standardDeviation values in
    let avg := mean values in
    let cv := if JsNum.sneq avg 0 then std / JsNum.abs avg else 0 in
    let direction :=
      if JsNum.gt cv 0.5 && JsNum.lt (r2 reg) 0.3 then Trend.volatile else direction in
    (direction, JsNum.min (JsNum.abs (r2 reg)) 1).

Definition detectSeasonality (values : list float) : bool * option nat :=
  if (List.length values <? 12)%nat then (false, None)
  else
    let avg := mean values in
    let detrended := map (fun v => v - avg) values in
    let periods := [7; 12; 4; 24; 30]%nat in
    let autocorrOf (period : nat) : float :=
      let correlation :=
        fold_left
          (fun c i => c + JsNum.get detrended i * JsNum.get detrended (i - period))
          (seq period (List.length values - period)) 0 in
      let variance := fold_left (fun s v => s + v * v) detrended 0 in
      if JsNum.sneq variance 0 then correlation / variance else 0 in
    match
      find (fun period =>
              negb (List.length values <? period * 2)%nat && JsNum.gt (autocorrOf period) 0.5)
           periods
    with
    | Some period => (true, Some period)
    | None => (false, None)
    end.

Definition detectShifts (values : list float) : list Trend.shift :=
  if (List.length values <? 5)%nat then []
  else
    let windowSize := Nat.max 3 (List.length values / 10) in
    let shifts :=
      flat_map
        (fun i : nat =>
           let beforeWindow := JsArr.slice values (i - windowSize) i in
           let afterWindow := JsArr.slice values i (i + windowSize) in
           let beforeMean := mean beforeWindow in
           let afterMean := mean afterWindow in
           let beforeStd := standardDeviation beforeWindow in
           if JsNum.seq beforeStd 0 then []
           else
             let changeMagnitude := JsNum.abs (afterMean - beforeMean) / beforeStd in
             if JsNum.gt changeMagnitude 2 then
               let direction := if JsNum.gt afterMean beforeMean then "increase" else "decrease" in
               let pctChange :=
                 if JsNum.sneq beforeMean 0
                 then JsConv.toFixed ((afterMean - beforeMean) / JsNum.abs beforeMean * 100) 1
                 else "N/A" in
               [ {| Trend.index := i;
                    Trend.magnitude := changeMagnitude;
                    Trend.description :=
                      ("Significant " ++ direction ++ " of " ++ pctChange
                       ++ "% detected at position " ++ JsStr.ofNat i)%string |} ]
             else [])
        (seq windowSize (List.length values - windowSize - windowSize)) in
    firstn 5
      (JsArr.sort (fun a b => JsNum.lt (Trend.magnitude b - Trend.magnitude a) 0) shifts).

Definition analyzeTrend (rows : Dataset) (columnName : string) : Trend.t :=
  let values := extractNumericValues rows columnName in
  if (List.length values <? 3)%nat then
    {| Trend.column := columnName;
       Trend.direction := Trend.stable;
       Trend.strength := 0;
       Trend.movingAverages := values;
       Trend.seasonality := false;
       Trend.seasonalPeriod := None;
       Trend.shifts := [];
       Trend.explanation :=
         ("Insufficient data points (" ++ JsStr.ofNat (List.length values)
          ++ ") for trend analysis.")%string |}
  else
    let '(direction, strength) := detectTrendDirection values in
    let '(seasonal, period) := detectSeasonality values in
    let shifts := detectShifts values in
    let maWindow := Nat.max 3 (List.length values / 10) in
    let ma := movingAverage values maWindow in
    let confidence := JsConv.toFixed (strength * 100) 0 in
    let directionPart :=
      (match direction with
       | Trend.increasing =>
           "The " ++ quoted columnName ++ " metric shows an upward trend with "
           ++ confidence ++ "% confidence."
       | Trend.decreasing =>
           "The " ++ quoted columnName ++ " metric exhibits a downward trend with "
           ++ confidence ++ "% confidence."
       | Trend.volatile =>
           "The " ++ quoted columnName
           ++ " metric displays high volatility without a clear directional trend."
       | Trend.stable =>
           "The " ++ quoted columnName
           ++ " metric remains relatively stable over the observed period."
       end)%string in
    let seasonPart :=
      match seasonal, period with
      | true, Some (S p) =>
          [("Seasonal patterns detected with an approximate " ++ JsStr.ofNat (S p)
            ++ "-period cycle.")%string]
      | _, _ => []
      end in
    let shiftPart :=
      if (0 <? List.length shifts)%nat then
        [(JsStr.ofNat (List.length shifts)
          ++ " significant shift(s) identified that may indicate structural changes.")%string]
      else [] in
    {| Trend.column := columnName;
       Trend.direction := direction;
       Trend.strength := strength;
       Trend.movingAverages := ma;
       Trend.seasonality := seasonal;
       Trend.seasonalPeriod := period;
       Trend.shifts := shifts;
       Trend.explanation := JsStr.join " " ([directionPart] ++ seasonPart ++ shiftPart) |}.

Definition analyzeAllTrends (rows : Dataset) : list Trend.t :=
  match rows with
  | [] => []
  | row0 :: _ =>
      map (analyzeTrend rows)
          (filter (fun column => (3 <=? List.length (extractNumericValues rows column))%nat)
                  (JsVal.keys row0))
  end.

Definition getTrendSummary (trends : list Trend.t) : string :=
  let hasDir (d : Trend.direction_) (t : Trend.t) := Trend.direction_eqb (Trend.direction t) d in
  let increasing := filter (hasDir Trend.increasing) trends in
  let decreasing := filter (hasDir Trend.decreasing) trends in
  let volatile := filter (hasDir Trend.volatile) trends in
  let seasonal := filter Trend.seasonality trends in
  let parts :=
    (if (0 <? List.length increasing)%nat then
       [(JsStr.ofNat (List.length increasing) ++ " metric(s) showing growth: "
         ++ JsStr.join ", " (map Trend.column increasing))%string] else [])
    ++ (if (0 <? List.length decreasing)%nat then
          [(JsStr.ofNat (List.length decreasing) ++ " metric(s) declining: "
            ++ JsStr.join ", " (map Trend.column decreasing))%string] else [])
    ++ (if (0 <? List.length volatile)%nat then
          [(JsStr.ofNat (List.length volatile) ++ " metric(s) with high volatility")%string]
        else [])
    ++ (if (0 <? List.length seasonal)%nat then
          [("Seasonal patterns detected in: "
            ++ JsStr.join ", " (map Trend.column seasonal))%string] else []) in
  let joined := JsStr.join ". " parts in
  if String.eqb joined "" then "No significant trends detected." else joined.

(** ** profiler.ts *)

Definition profileColumn (rows : Dataset) (columnName : string) : ColumnProfile.t :=
  let values := columnValues rows columnName in
  let nonNullValues := filter JsVal.nonNull values in
  let type := detectColumnType values in
  let isNumeric := ColumnType_eqb type TNumeric in
  let base (min max : option Bound) (mean median : option float) (mode : option StrOrNum)
           (stdDev : option float) :=
    {| ColumnProfile.name := columnName;
       ColumnProfile.type := type;
       ColumnProfile.nullCount := List.length values - List.length nonNullValues;
       ColumnProfile.totalCount := List.length values;
       ColumnProfile.uniqueCount :=
         List.length (JsArr.distinct String.eqb (map JsVal.toString nonNullValues));
       ColumnProfile.min := min;
       ColumnProfile.max := max;
       ColumnProfile.mean := mean;
       ColumnProfile.median := median;
       ColumnProfile.mode := mode;
       ColumnProfile.stdDev := stdDev;
       ColumnProfile.topValues :=
         topFrequentValues StrOrNum_keyEq
           (map (fun v => if isNumeric then SNnum (JsVal.toNumber v) else SNstr (JsVal.toString v))
                nonNullValues)
           5 |} in
  match type with
  | TNumeric =>
      let numericValues := extractNumericValues rows columnName in
      if (0 <? List.length numericValues)%nat then
        base (Some (BNum (JsNum.minList numericValues)))
             (Some (BNum (JsNum.maxList numericValues)))
             (Some (mean numericValues))
             (Some (median numericValues))
             (option_map SNnum (mode JsVal.numKeyEq numericValues))
             (Some (standardDeviation numericValues))
      else base None None None None None None
  | TDatetime =>
      let dates :=
        JsArr.sort (fun a b => JsNum.lt (a - b) 0)
          (filter (fun d => negb (JsNum.isNaN d))
                  (map (fun v => dateParse host (JsVal.toString v)) nonNullValues)) in
      match dates with
      | d0 :: _ => base (Some (BDate d0)) (Some (BDate (List.last dates d0))) None None None None
      | [] => base None None None None None None
      end
  | TCategorical | TText =>
      let stringValues := map JsVal.toString nonNullValues in
      base None None None None (option_map SNstr (mode String.eqb stringValues)) None
  | TBoolean => base None None None None None None
  end.

Definition profileDataset (rows : Dataset) : DatasetProfile.t :=
  match rows with
  | [] =>
      {| DatasetProfile.rowCount := 0;
         DatasetProfile.columnCount := 0;
         DatasetProfile.columns := [];
         DatasetProfile.memoryEstimate := "0 bytes";
         DatasetProfile.completeness := 0 |}
  | row0 :: _ =>
      let columnNames := JsVal.keys row0 in
      let columns := map (profileColumn rows) columnNames in
      let totalCells := (List.length rows * List.length columnNames)%nat in
      let nullCells := fold_left (fun s col => (s + ColumnProfile.nullCount col)%nat) columns 0%nat in
      let completeness :=
        if (0 <? totalCells)%nat
        then (Z2F (Z.of_nat totalCells - Z.of_nat nullCells) / N2F totalCells) * 100
        else 0 in
      {| DatasetProfile.rowCount := List.length rows;
         DatasetProfile.columnCount := List.length columnNames;
         DatasetProfile.columns := columns;
         DatasetProfile.memoryEstimate := estimateMemorySize rows;
         DatasetProfile.completeness := JsNum.round (completeness * 100) / 100 |}
  end.

Definition newline : string := String "010" EmptyString.

(** [`${x}`] for an optional value, and [x?.toLocaleString()], [x?.toFixed(d)]. *)
Definition optText {A : Type} (show : A -> string) (x : option A) : string :=
  match x with Some a => show a | None => "undefined" end.

(** A profile bound inside a template literal; a date prints through the host. *)
Definition boundLocale (b : Bound) : string :=
  match b with
  | BNum x => toLocaleString host x
  | BDate t => toLocaleString host t
  end.

Definition hasType (t : ColumnType) (c : ColumnProfile.t) : bool :=
  ColumnType_eqb (ColumnProfile.type c) t.

Definition generateProfileSummary (profile : DatasetProfile.t) : string :=
  let numericCols := filter (hasType TNumeric) (DatasetProfile.columns profile) in
  let categoricalCols := filter (hasType TCategorical) (DatasetProfile.columns profile) in
  let datetimeCols := filter (hasType TDatetime) (DatasetProfile.columns profile) in
  let lines :=
    [ "Dataset Overview:";
      ("• " ++ toLocaleString host (N2F (DatasetProfile.rowCount profile)) ++ " rows × "
       ++ JsStr.ofNat (DatasetProfile.columnCount profile) ++ " columns")%string;
      ("• Data completeness: " ++ JsConv.numberToString (DatasetProfile.completeness profile)
       ++ "%")%string;
      ("• Estimated size: " ++ DatasetProfile.memoryEstimate profile)%string;
      "";
      "Column Types:";
      ("• Numeric: " ++ JsStr.ofNat (List.length numericCols) ++ " columns")%string;
      ("• Categorical: " ++ JsStr.ofNat (List.length categoricalCols) ++ " columns")%string;
      ("• DateTime: " ++ JsStr.ofNat (List.length datetimeCols) ++ " columns")%string ]
    ++ (if (0 <? List.length numericCols)%nat then
          [""; "Key Numeric Columns:"]
          ++ map (fun col =>
                    ("• " ++ ColumnProfile.name col ++ ": range ["
                     ++ optText boundLocale (ColumnProfile.min col) ++ " - "
                     ++ optText boundLocale (ColumnProfile.max col) ++ "], mean "
                     ++ optText (fun m => JsConv.toFixed m 2) (ColumnProfile.mean col))%string)
                 (firstn 5 numericCols)
        else [])
    ++ (if (0 <? List.length categoricalCols)%nat then
          [""; "Key Categorical Columns:"]
          ++ map (fun col =>
                    ("• " ++ ColumnProfile.name col ++ ": "
                     ++ JsStr.ofNat (ColumnProfile.uniqueCount col) ++ " unique values")%string)
                 (firstn 5 categoricalCols)
        else []) in
  JsStr.join newline lines.

Definition getColumnsByType (profile : DatasetProfile.t) (type : ColumnType)
  : list ColumnProfile.t :=
  filter (hasType type) (DatasetProfile.columns profile).

Definition nullRatio (c : ColumnProfile.t) : float :=
  N2F (ColumnProfile.nullCount c) / N2F (ColumnProfile.totalCount c).

Definition findHighNullColumns (profile : DatasetProfile.t) (threshold : float)
  : list ColumnProfile.t :=
  filter (fun c => JsNum.gt (nullRatio c) threshold) (DatasetProfile.columns profile).

Definition findPotentialIdColumns (profile : DatasetProfile.t) : list ColumnProfile.t :=
  filter (fun c =>
            let uniqueRatio := N2F (ColumnProfile.uniqueCount c) / N2F (ColumnProfile.totalCount c) in
            JsNum.gt uniqueRatio 0.95 && (10 <? ColumnProfile.totalCount c)%nat)
         (DatasetProfile.columns profile).

(** ** statistics.ts *)

Definition detectDistribution (values : list float) : string * string :=
  if (List.length values <? 10)%nat then ("insufficient_data", "Not enough data points")
  else
    let avg := mean values in
    let std := standardDeviation values in
    let skewness :=
      fold_left (fun s v => s + mathPow host ((v - avg) / std) 3) values 0
      / N2F (List.length values) in
    if JsNum.lt (JsNum.abs skewness) 0.5 then ("normal", "Approximately normal distribution")
    else if JsNum.gt skewness 1 then ("right_skewed", "Right-skewed (positive skew) distribution")
    else if JsNum.lt skewness (-1) then ("left_skewed", "Left-skewed (negative skew) distribution")
    else
      let p25 := percentile values 25 in
      let p75 := percentile values 75 in
      let midRange := filter (fun v => JsNum.ge v p25 && JsNum.le v p75) values in
      if JsNum.lt (N2F (List.length midRange)) (N2F (List.length values) * 0.3)
      then ("bimodal", "Potentially bimodal distribution")
      else ("unknown", "Non-standard distribution pattern").

Definition findOutliers (values : list float) : nat * list float :=
  if (List.length values <? 4)%nat then (0%nat, [])
  else
    let q := quartiles values in
    let iqr := q3 q - q1 q in
    let lowerBound := q1 q - 1.5 * iqr in
    let upperBound := q3 q + 1.5 * iqr in
    let outliers := filter (fun v => JsNum.lt v lowerBound || JsNum.gt v upperBound) values in
    (List.length outliers, firstn 10 outliers).

Definition boundNumber (b : option Bound) : option float :=
  match b with
  | Some (BNum x) => Some x
  | Some (BDate t) => Some t
  | None => None
  end.

Definition generateNarrative (profile : DatasetProfile.t) (numericColumns : list ColumnProfile.t)
           (outliers : list StatisticalSummary.outlier) (correlations : list string) : string :=
  let numericPct :=
    if (0 <? DatasetProfile.columnCount profile)%nat
    then JsNum.round (N2F (List.length numericColumns)
                      / N2F (DatasetProfile.columnCount profile) * 100)
    else 0 in
  let c := DatasetProfile.completeness profile in
  let p1 :=
    ("This dataset comprises " ++ toLocaleString host (N2F (DatasetProfile.rowCount profile))
     ++ " observations with " ++ JsStr.ofNat (DatasetProfile.columnCount profile) ++ " features. "
     ++ "Approximately " ++ JsConv.numberToString numericPct
     ++ "% of the variables are numeric, enabling quantitative analysis. "
     ++ "The overall data completeness stands at " ++ JsConv.numberToString c ++ "%, indicating "
     ++ (if JsNum.ge c 95 then "excellent" else if JsNum.ge c 80 then "good" else "moderate")
     ++ " data quality.")%string in
  let p2 :=
    match numericColumns with
    | [] => []
    | topCol :: _ =>
        let rangeDescription :=
          match boundNumber (ColumnProfile.min topCol), boundNumber (ColumnProfile.max topCol) with
          | Some lo, Some hi =>
              ("ranging from " ++ formatNumber lo 2 ++ " to " ++ formatNumber hi 2)%string
          | _, _ => ""
          end in
        [("Key numeric variables show diverse distributions. "
          ++ "The primary metric " ++ quoted (ColumnProfile.name topCol) ++ " " ++ rangeDescription
          ++ " with a mean of "
          ++ match ColumnProfile.mean topCol with
             | Some m => formatNumber m 2
             | None => "N/A"
             end
          ++ ". "
          ++ (if (0 <? List.length outliers)%nat then
                "Notable outliers were detected in " ++ JsStr.ofNat (List.length outliers)
                ++ " column(s), warranting further investigation."
              else "No significant outliers were detected in the primary variables."))%string]
    end in
  let p3 :=
    match correlations with
    | first :: _ =>
        ("Analysis reveals " ++ JsStr.ofNat (List.length correlations)
         ++ " significant correlation(s) between variables. " ++ first ++ ". "
         ++ "These relationships may indicate underlying patterns or potential multicollinearity in predictive modeling.")%string
    | [] =>
        ("Initial correlation analysis shows no strong linear relationships between numeric variables. "
         ++ "This suggests either independent features or potential non-linear relationships that may require further investigation using advanced techniques.")%string
    end in
  JsStr.join (newline ++ newline) ([p1] ++ p2 ++ [p3]).

Definition generateStatisticalSummary (rows : Dataset) (profile : option DatasetProfile.t)
  : StatisticalSummary.t :=
  let dataProfile := match profile with Some p => p | None => profileDataset rows end in
  let numericColumns := getColumnsByType dataProfile TNumeric in
  let keyMetrics0 : JsObj.t StrOrNum :=
    [ ("totalRows", SNnum (N2F (DatasetProfile.rowCount dataProfile)));
      ("totalColumns", SNnum (N2F (DatasetProfile.columnCount dataProfile)));
      ("completeness",
       SNstr (JsConv.numberToString (DatasetProfile.completeness dataProfile) ++ "%"));
      ("numericColumns", SNnum (N2F (List.length numericColumns))) ] in
  let keyMetrics :=
    fold_left
      (fun (km : JsObj.t StrOrNum) (col : ColumnProfile.t) =>
         match ColumnProfile.mean col with
         | Some m => JsObj.set km (ColumnProfile.name col ++ "_mean") (SNstr (formatNumber m 2))
         | None => km
         end)
      (firstn 5 numericColumns) keyMetrics0 in
  let distributions :=
    map (fun col =>
           let values := extractNumericValues rows (ColumnProfile.name col) in
           let dist := detectDistribution values in
           {| StatisticalSummary.column := ColumnProfile.name col;
              StatisticalSummary.type := fst dist;
              StatisticalSummary.description := snd dist |})
        numericColumns in
  let outliers :=
    filter (fun o => (0 <? StatisticalSummary.o_count o)%nat)
      (map (fun col =>
              let values := extractNumericValues rows (ColumnProfile.name col) in
              let count := fst (findOutliers values) in
              let percentage :=
                if (0 <? List.length values)%nat
                then JsConv.toFixed (N2F count / N2F (List.length values) * 100) 1
                else "0" in
              {| StatisticalSummary.o_column := ColumnProfile.name col;
                 StatisticalSummary.o_count := count;
                 StatisticalSummary.o_description :=
                   (if (0 <? count)%nat
                    then JsStr.ofNat count ++ " outliers detected (" ++ percentage ++ "% of values)"
                    else "No significant outliers")%string |})
           numericColumns) in
  let correlationHighlights :=
    if (2 <=? List.length numericColumns)%nat then
      flat_map
        (fun cc : ColumnProfile.t * ColumnProfile.t =>
           let values1 := extractNumericValues rows (ColumnProfile.name (fst cc)) in
           let values2 := extractNumericValues rows (ColumnProfile.name (snd cc)) in
           let corr := pearsonCorrelation values1 values2 in
           if JsNum.gt (JsNum.abs corr) 0.7 then
             let direction := if JsNum.gt corr 0 then "positive" else "negative" in
             [("Strong " ++ direction ++ " correlation (" ++ JsConv.toFixed corr 2 ++ ") between "
               ++ ColumnProfile.name (fst cc) ++ " and " ++ ColumnProfile.name (snd cc))%string]
           else [])
        (orderedPairs (firstn 5 numericColumns))
    else [] in
  let narrative := generateNarrative dataProfile numericColumns outliers correlationHighlights in
  {| StatisticalSummary.overview :=
       ("Dataset contains " ++ toLocaleString host (N2F (DatasetProfile.rowCount dataProfile))
        ++ " records across " ++ JsStr.ofNat (DatasetProfile.columnCount dataProfile)
        ++ " variables with " ++ JsConv.numberToString (DatasetProfile.completeness dataProfile)
        ++ "% data completeness.")%string;
     StatisticalSummary.keyMetrics := keyMetrics;
     StatisticalSummary.distributions := distributions;
     StatisticalSummary.outliers := outliers;
     StatisticalSummary.correlationHighlights := correlationHighlights;
     StatisticalSummary.narrative := narrative |}.

Definition getColumnStats (rows : Dataset) (columnName : string) : JsObj.t StrOrNum :=
  let values := extractNumericValues rows columnName in
  if (List.length values =? 0)%nat then [("error", SNstr "No numeric values found")]
  else
    let q := quartiles values in
    [ ("count", SNnum (N2F (List.length values)));
      ("min", SNstr (formatNumber (JsNum.minList values) 2));
      ("max", SNstr (formatNumber (JsNum.maxList values) 2));
      ("mean", SNstr (formatNumber (mean values) 2));
      ("std", SNstr (formatNumber (standardDeviation values) 2));
      ("q25", SNstr (formatNumber (q1 q) 2));
      ("median", SNstr (formatNumber (q2 q) 2));
      ("q75", SNstr (formatNumber (q3 q) 2)) ].

(** ** insights.ts *)

Definition hasCategory (cat : string) (i : Insight.t) : bool :=
  String.eqb (Insight.category i) cat.
Definition hasKind (k : Insight.kind) (i : Insight.t) : bool :=
  Insight.kind_eqb (Insight.type i) k.

Definition generateKeyInsights (rows : Dataset) (profile : DatasetProfile.t) : list Insight.t :=
  let highNullCols := findHighNullColumns profile 0.1 in
  let quality :=
    if (0 <? List.length highNullCols)%nat then
      [ {| Insight.type := Insight.warning;
           Insight.category := "Data Quality";
           Insight.title := "Missing Data Detected";
           Insight.description :=
             (JsStr.ofNat (List.length highNullCols)
              ++ " column(s) have more than 10% missing values: "
              ++ JsStr.join ", " (map ColumnProfile.name highNullCols)
              ++ ". Consider imputation or investigation.")%string;
           Insight.importance :=
             if existsb (fun c => JsNum.gt (nullRatio c) 0.3) highNullCols
             then Insight.high else Insight.medium;
           Insight.relatedColumns := map ColumnProfile.name highNullCols |} ]
    else [] in
  let idCols := findPotentialIdColumns profile in
  let ids :=
    if (0 <? List.length idCols)%nat then
      [ {| Insight.type := Insight.observation;
           Insight.category := "Data Structure";
           Insight.title := "Potential Identifier Columns";
           Insight.description :=
             ("Columns " ++ quoted (JsStr.join ", " (map ColumnProfile.name idCols))
              ++ " appear to be unique identifiers and may not be useful for analysis.")%string;
           Insight.importance := Insight.low;
           Insight.relatedColumns := map ColumnProfile.name idCols |} ]
    else [] in
  let anomalyResult := detectAllAnomalies rows in
  let found := AnomalyResult.anomalies anomalyResult in
  let anomalies :=
    if (0 <? List.length found)%nat then
      let highSeverity := filter (fun a => JsNum.gt (Anomaly.score a) 0.8) found in
      let many := (5 <? List.length highSeverity)%nat in
      [ {| Insight.type := if many then Insight.warning else Insight.observation;
           Insight.category := "Anomalies";
           Insight.title := "Anomalous Data Points Detected";
           Insight.description :=
             ("Found " ++ JsStr.ofNat (List.length found) ++ " anomalies across "
              ++ JsStr.ofNat (List.length (AnomalyResult.affectedColumns anomalyResult))
              ++ " column(s). "
              ++ (if (0 <? List.length highSeverity)%nat
                  then JsStr.ofNat (List.length highSeverity) ++ " require immediate attention."
                  else ""))%string;
           Insight.importance := if many then Insight.high else Insight.medium;
           Insight.relatedColumns := AnomalyResult.affectedColumns anomalyResult |} ]
    else [] in
  let trends := analyzeAllTrends rows in
  let strongTrend (d : Trend.direction_) :=
    filter (fun t => Trend.direction_eqb (Trend.direction t) d && JsNum.gt (Trend.strength t) 0.5)
           trends in
  let increasingTrends := strongTrend Trend.increasing in
  let decreasingTrends := strongTrend Trend.decreasing in
  let growth :=
    if (0 <? List.length increasingTrends)%nat then
      [ {| Insight.type := Insight.opportunity;
           Insight.category := "Trends";
           Insight.title := "Growth Trends Identified";
           Insight.description :=
             (JsStr.ofNat (List.length increasingTrends)
              ++ " metric(s) showing significant upward trends: "
              ++ JsStr.join ", " (map Trend.column increasingTrends) ++ ".")%string;
           Insight.importance := Insight.high;
           Insight.relatedColumns := map Trend.column increasingTrends |} ]
    else [] in
  let decline :=
    if (0 <? List.length decreasingTrends)%nat then
      [ {| Insight.type := Insight.warning;
           Insight.category := "Trends";
           Insight.title := "Declining Trends Detected";
           Insight.description :=
             (JsStr.ofNat (List.length decreasingTrends)
              ++ " metric(s) showing downward trends: "
              ++ JsStr.join ", " (map Trend.column decreasingTrends)
              ++ ". Investigation recommended.")%string;
           Insight.importance := Insight.high;
           Insight.relatedColumns := map Trend.column decreasingTrends |} ]
    else [] in
  let correlations := analyzeCorrelations rows in
  let strongCorr := filter isStrong (CorrelationResult.strongestRelations correlations) in
  let columnsOf (ps : list Correlation.pair) :=
    JsArr.distinct String.eqb
      (flat_map (fun c => [Correlation.column1 c; Correlation.column2 c]) ps) in
  let related :=
    if (0 <? List.length strongCorr)%nat then
      let multicollinear :=
        filter (fun c => JsNum.gt (JsNum.abs (Correlation.coefficient c)) 0.9) strongCorr in
      if (0 <? List.length multicollinear)%nat then
        [ {| Insight.type := Insight.warning;
             Insight.category := "Correlations";
             Insight.title := "Potential Multicollinearity";
             Insight.description :=
               ("Very high correlations (>0.9) detected between "
                ++ JsStr.ofNat (List.length multicollinear)
                ++ " variable pair(s). This may cause issues in predictive models.")%string;
             Insight.importance := Insight.medium;
             Insight.relatedColumns := columnsOf multicollinear |} ]
      else
        [ {| Insight.type := Insight.observation;
             Insight.category := "Correlations";
             Insight.title := "Strong Variable Relationships";
             Insight.description :=
               ("Identified " ++ JsStr.ofNat (List.length strongCorr)
                ++ " strong correlation(s) that may indicate important relationships or dependencies.")%string;
             Insight.importance := Insight.medium;
             Insight.relatedColumns := columnsOf strongCorr |} ]
    else [] in
  let numericCols := filter (hasType TNumeric) (DatasetProfile.columns profile) in
  let highVarianceCols :=
    filter (fun c =>
              match ColumnProfile.stdDev c, ColumnProfile.mean c with
              | Some sd, Some m =>
                  if JsNum.seq m 0 then false else JsNum.gt (JsNum.abs (sd / m)) 1
              | _, _ => false
              end)
           numericCols in
  let variance :=
    if (0 <? List.length highVarianceCols)%nat then
      [ {| Insight.type := Insight.observation;
           Insight.category := "Distribution";
           Insight.title := "High Variance Columns";
           Insight.description :=
             (JsStr.ofNat (List.length highVarianceCols)
              ++ " column(s) show high coefficient of variation: "
              ++ JsStr.join ", " (map ColumnProfile.name highVarianceCols)
              ++ ". Consider normalization.")%string;
           Insight.importance := Insight.low;
           Insight.relatedColumns := map ColumnProfile.name highVarianceCols |} ]
    else [] in
  JsArr.sort
    (fun a b => (Insight.importanceOrder (Insight.importance a)
                 <? Insight.importanceOrder (Insight.importance b))%nat)
    (quality ++ ids ++ anomalies ++ growth ++ decline ++ related ++ variance).

Definition lowerTitles (items : list Insight.t) : list string :=
  map (fun i => JsStr.toLowerCase (Insight.title i)) items.

Definition generateExecutiveSummary (rows : Dataset) (profile : DatasetProfile.t)
           (insights : list Insight.t) : string :=
  let overview :=
    ("Analysis of " ++ toLocaleString host (N2F (DatasetProfile.rowCount profile))
     ++ " records across " ++ JsStr.ofNat (DatasetProfile.columnCount profile) ++ " variables "
     ++ "reveals a dataset with " ++ JsConv.numberToString (DatasetProfile.completeness profile)
     ++ "% completeness.")%string in
  let highPriorityInsights :=
    filter (fun i => match Insight.importance i with Insight.high => true | _ => false end)
           insights in
  let findings :=
    if (0 <? List.length highPriorityInsights)%nat then
      [(JsStr.ofNat (List.length highPriorityInsights)
        ++ " high-priority finding(s) require attention: "
        ++ JsStr.join ", " (lowerTitles highPriorityInsights) ++ ".")%string]
    else [] in
  let opportunities := filter (hasKind Insight.opportunity) insights in
  let opportunity :=
    if (0 <? List.length opportunities)%nat then
      [("Notable opportunities identified include "
        ++ JsStr.join " and " (lowerTitles opportunities) ++ ".")%string]
    else [] in
  let warnings := filter (hasKind Insight.warning) insights in
  let warning :=
    if (0 <? List.length warnings)%nat then
      [("Areas requiring investigation: " ++ JsStr.join ", " (lowerTitles warnings) ++ ".")%string]
    else [] in
  JsStr.join " " ([overview] ++ findings ++ opportunity ++ warning).

Definition generateRecommendations (insights : list Insight.t) : list string :=
  let perInsight (insight : Insight.t) : list string :=
    let cols := JsStr.join ", " (Insight.relatedColumns insight) in
    let isWarning := hasKind Insight.warning insight in
    (if isWarning && hasCategory "Data Quality" insight then
       [("Address missing data in " ++ cols ++ " through imputation or removal.")%string]
     else [])
    ++ (if isWarning && hasCategory "Anomalies" insight then
          [("Investigate anomalous values in " ++ cols
            ++ " to determine if they are errors or genuine outliers.")%string]
        else [])
    ++ (if hasKind Insight.opportunity insight && hasCategory "Trends" insight then
          [("Capitalize on growth trends in " ++ cols
            ++ " by allocating resources to these areas.")%string]
        else [])
    ++ (if isWarning && hasCategory "Trends" insight then
          [("Address declining metrics in " ++ cols ++ " through root cause analysis.")%string]
        else [])
    ++ (if isWarning && hasCategory "Correlations" insight then
          ["Consider dimensionality reduction or feature selection to address multicollinearity."]
        else []) in
  firstn 7
    (flat_map perInsight insights
     ++ ["Establish ongoing monitoring for key metrics to track changes over time."]).

Definition suggestVisualizations (profile : DatasetProfile.t) (insights : list Insight.t)
  : list string :=
  let countOf (t : ColumnType) := List.length (filter (hasType t) (DatasetProfile.columns profile)) in
  let numericCols := countOf TNumeric in
  let categoricalCols := countOf TCategorical in
  let datetimeCols := countOf TDatetime in
  let suggestions :=
    (if (0 <? datetimeCols)%nat && (0 <? numericCols)%nat then ["line"; "area"] else [])
    ++ (if (0 <? numericCols)%nat then ["histogram"; "box"] else [])
    ++ (if (0 <? categoricalCols)%nat then ["bar"; "pie"] else [])
    ++ (if (2 <=? numericCols)%nat then ["scatter"; "heatmap"] else [])
    ++ (if existsb (hasCategory "Anomalies") insights then ["scatter"] else [])
    ++ (if existsb (hasCategory "Trends") insights then ["line"] else []) in
  JsArr.distinct String.eqb suggestions.

Definition generateCompleteAnalysis (rows : Dataset) : Completion InsightResponse.t :=
  let profile := profileDataset rows in
  let statistics := generateStatisticalSummary rows (Some profile) in
  let trends := analyzeAllTrends rows in
  let anomalies := detectAllAnomalies rows in
  forecasts <- forecastAll rows 7 ;;
  let correlations := analyzeCorrelations rows in
  let keyInsights := generateKeyInsights rows profile in
  let executiveSummary := generateExecutiveSummary rows profile keyInsights in
  let recommendations := generateRecommendations keyInsights in
  let charts := suggestVisualizations profile keyInsights in
  Normal
    {| InsightResponse.query := "Complete dataset analysis";
       InsightResponse.intent := InsightResponse.summary;
       InsightResponse.insights :=
         {| InsightResponse.i_profile := Some profile;
            InsightResponse.i_statistics := Some statistics;
            InsightResponse.i_trends := Some trends;
            InsightResponse.i_anomalies := Some anomalies;
            InsightResponse.i_forecasts := Some forecasts;
            InsightResponse.i_correlations := Some correlations;
            InsightResponse.i_keyInsights := Some keyInsights |};
       InsightResponse.textSummary := StatisticalSummary.narrative statistics;
       InsightResponse.recommendedCharts := charts;
       InsightResponse.executiveSummary := Some executiveSummary;
       InsightResponse.recommendations := Some recommendations |}.

(** ** analyze.ts *)

(** *** The target-column pattern

    [/column\s+Q?(\w+)Q?|Q(\w+)Q\s+column|(?:what|explain|analyze)\s+(?:is|about)?\s*Q?(\w+)Q?/i]
    where [Q] is the class of the single and the double quote, matched as
    [String.prototype.match] does: leftmost start, alternatives in order,
    greedy quantifiers with backtracking. *)

(** A literal, compared without case; what follows it when it matches. *)
Fixpoint literalCI (lit cs : list ascii) : option (list ascii) :=
  match lit, cs with
  | [], _ => Some cs
  | a :: l, c :: r =>
      if Ascii.eqb (JsStr.lowerChar a) (JsStr.lowerChar c) then literalCI l r else None
  | _ :: _, [] => None
  end.

Definition lit (s : string) : list ascii := list_ascii_of_string s.

(** [\s+]: the rest after the longest run of spaces, if the run is not empty. *)
Definition spaces1 (cs : list ascii) : option (list ascii) :=
  match JsConv.span JsStr.isSpace cs with
  | (_ :: _, r) => Some r
  | ([], _) => None
  end.

(** [Q?(\w+)]: an optional quote then the longest run of word characters.
    Giving the quote back cannot help, a quote is no word character. *)
Definition quotedWord (cs : list ascii) : option (list ascii) :=
  let cs' := match cs with
             | c :: r => if JsStr.isQuote c then r else cs
             | [] => []
             end in
  match JsConv.span JsStr.isWord cs' with
  | ((_ :: _) as w, _) => Some w
  | ([], _) => None
  end.

(** [column\s+Q?(\w+)Q?] at the start of [cs]. *)
Definition matchColumnWord (cs : list ascii) : option (list ascii) :=
  match literalCI (lit "column") cs with
  | Some r1 =>
      match spaces1 r1 with
      | Some r2 => quotedWord r2
      | None => None
      end
  | None => None
  end.

(** [Q(\w+)Q\s+column] at the start of [cs]. *)
Definition matchWordColumn (cs : list ascii) : option (list ascii) :=
  match cs with
  | c :: r =>
      if JsStr.isQuote c then
        match JsConv.span JsStr.isWord r with
        | ((_ :: _) as w, c' :: r') =>
            if JsStr.isQuote c' then
              match spaces1 r' with
              | Some r'' =>
                  match literalCI (lit "column") r'' with
                  | Some _ => Some w
                  | None => None
                  end
              | None => None
              end
            else None
        | _ => None
        end
      else None
  | [] => None
  end.

(** [(?:what|explain|analyze)\s+(?:is|about)?\s*Q?(\w+)Q?] at the start
    of [cs]: the optional group is tried first, then skipped. *)
Definition matchVerbWord (cs : list ascii) : option (list ascii) :=
  let verb :=
    match literalCI (lit "what") cs with
    | Some r => Some r
    | None =>
        match literalCI (lit "explain") cs with
        | Some r => Some r
        | None => literalCI (lit "analyze") cs
        end
    end in
  match verb with
  | Some r1 =>
      match spaces1 r1 with
      | Some r2 =>
          let group :=
            match literalCI (lit "is") r2 with
            | Some r => Some r
            | None => literalCI (lit "about") r2
            end in
          let withGroup :=
            match group with
            | Some r3 => quotedWord (snd (JsConv.span JsStr.isSpace r3))
            | None => None
            end in
          match withGroup with
          | Some w => Some w
          | None => quotedWord r2
          end
      | None => None
      end
  | None => None
  end.

Definition matchHere (cs : list ascii) : option (list ascii) :=
  match matchColumnWord cs with
  | Some w => Some w
  | None =>
      match matchWordColumn cs with
      | Some w => Some w
      | None => matchVerbWord cs
      end
  end.

(** The first capture of the leftmost match. *)
Fixpoint columnMatch (cs : list ascii) : option string :=
  match matchHere cs with
  | Some w => Some (string_of_list_ascii w)
  | None =>
      match cs with
      | [] => None
      | _ :: r => columnMatch r
      end
  end.

Definition detectIntent (query : string) : InsightResponse.intent_ * option string :=
  let lowerQuery := JsStr.toLowerCase query in
  let targetColumn := columnMatch (list_ascii_of_string query) in
  let has := JsStr.includes lowerQuery in
  if has "profile" || has "overview" || has "structure" then
    (InsightResponse.profile, targetColumn)
  else if has "summar" || has "describe" || has "tell me about" then
    (InsightResponse.summary, targetColumn)
  else if has "anomal" || has "outlier" || has "unusual" || has "strange" then
    (InsightResponse.anomalies, targetColumn)
  else if has "forecast" || has "predict" || has "future" || has "project" then
    (InsightResponse.forecast, targetColumn)
  else if has "trend" || has "pattern" || has "over time" || has "direction" then
    (InsightResponse.trends, targetColumn)
  else if has "correlat" || has "relation" || has "connect" || has "affect" then
    (InsightResponse.correlation, targetColumn)
  else if has "explain" || has "what is" || has "happening" then
    (InsightResponse.explain, targetColumn)
  else (InsightResponse.summary, targetColumn).

Definition response (query : string) (intent : InsightResponse.intent_)
           (insights : InsightResponse.insights_) (textSummary : string)
           (recommendedCharts : list string) : InsightResponse.t :=
  {| InsightResponse.query := query;
     InsightResponse.intent := intent;
     InsightResponse.insights := insights;
     InsightResponse.textSummary := textSummary;
     InsightResponse.recommendedCharts := recommendedCharts;
     InsightResponse.executiveSummary := None;
     InsightResponse.recommendations := None |}.

Definition withProfile (profile : DatasetProfile.t) : InsightResponse.insights_ :=
  {| InsightResponse.i_profile := Some profile;
     InsightResponse.i_statistics := None;
     InsightResponse.i_trends := None;
     InsightResponse.i_anomalies := None;
     InsightResponse.i_forecasts := None;
     InsightResponse.i_correlations := None;
     InsightResponse.i_keyInsights := None |}.

Definition handleProfileQuery (rows : Dataset) : InsightResponse.t :=
  let profile := profileDataset rows in
  let summary := generateProfileSummary profile in
  response "Dataset profile" InsightResponse.profile (withProfile profile) summary ["bar"; "pie"].

(** [profile.columns.find(c => c.name.toLowerCase() === targetColumn.toLowerCase())] *)
Definition findColumn (profile : DatasetProfile.t) (targetColumn : string)
  : option ColumnProfile.t :=
  find (fun c => String.eqb (JsStr.toLowerCase (ColumnProfile.name c))
                            (JsStr.toLowerCase targetColumn))
       (DatasetProfile.columns profile).

(** A target column counts when it is a non-empty string. *)
Definition given (targetColumn : option string) : option string :=
  match targetColumn with
  | Some "" => None
  | t => t
  end.

Definition summaryOfDataset (rows : Dataset) (profile : DatasetProfile.t) : InsightResponse.t :=
  let statistics := generateStatisticalSummary rows (Some profile) in
  let keyInsights := generateKeyInsights rows profile in
  {| InsightResponse.query := "Dataset summary";
     InsightResponse.intent := InsightResponse.summary;
     InsightResponse.insights :=
       {| InsightResponse.i_profile := Some profile;
          InsightResponse.i_statistics := Some statistics;
          InsightResponse.i_trends := None;
          InsightResponse.i_anomalies := None;
          InsightResponse.i_forecasts := None;
          InsightResponse.i_correlations := None;
          InsightResponse.i_keyInsights := Some keyInsights |};
     InsightResponse.textSummary := StatisticalSummary.narrative statistics;
     InsightResponse.recommendedCharts := suggestVisualizations profile keyInsights;
     InsightResponse.executiveSummary := Some (generateExecutiveSummary rows profile keyInsights);
     InsightResponse.recommendations := Some (generateRecommendations keyInsights) |}.

Definition handleSummaryQuery (rows : Dataset) (targetColumn : option string)
  : InsightResponse.t :=
  let profile := profileDataset rows in
  match given targetColumn with
  | Some target =>
      match findColumn profile target with
      | Some colProfile =>
          let stats := getColumnStats rows (ColumnProfile.name colProfile) in
          response ("Summary of " ++ target) InsightResponse.summary (withProfile profile)
            ("Column " ++ quoted (ColumnProfile.name colProfile) ++ " ("
             ++ ColumnType_name (ColumnProfile.type colProfile) ++ "): "
             ++ JsStr.join ", "
                  (map (fun kv : string * StrOrNum =>
                          (fst kv ++ ": " ++ StrOrNum_toString (snd kv))%string) stats))%string
            (if ColumnType_eqb (ColumnProfile.type colProfile) TNumeric
             then ["histogram"; "box"] else ["bar"; "pie"])
      | None => summaryOfDataset rows profile
      end
  | None => summaryOfDataset rows profile
  end.

Definition withAnomalies (a : AnomalyResult.t) : InsightResponse.insights_ :=
  {| InsightResponse.i_profile := None;
     InsightResponse.i_statistics := None;
     InsightResponse.i_trends := None;
     InsightResponse.i_anomalies := Some a;
     InsightResponse.i_forecasts := None;
     InsightResponse.i_correlations := None;
     InsightResponse.i_keyInsights := None |}.

Definition handleAnomalyQuery (rows : Dataset) (targetColumn : option string)
  : InsightResponse.t :=
  match given targetColumn with
  | Some target =>
      let summary := getColumnAnomalySummary rows target in
      response ("Anomalies in " ++ target) InsightResponse.anomalies
        (withAnomalies
           {| AnomalyResult.anomalies := topAnomalies summary;
              AnomalyResult.anomalyScore :=
                match topAnomalies summary with
                | a :: _ => Anomaly.score a
                | [] => 0
                end;
              AnomalyResult.affectedColumns := [target];
              AnomalyResult.explanation :=
                ("Found " ++ JsStr.ofNat (count summary) ++ " anomalies in " ++ quoted target
                 ++ " with " ++ severity summary ++ " severity.")%string |})
        ("Anomaly analysis for " ++ quoted target ++ ": " ++ JsStr.ofNat (count summary)
         ++ " anomalies detected (severity: " ++ severity summary ++ ").")%string
        ["scatter"; "line"; "box"]
  | None =>
      let anomalies := detectAllAnomalies rows in
      response "Find anomalies" InsightResponse.anomalies (withAnomalies anomalies)
               (AnomalyResult.explanation anomalies) ["scatter"; "line"; "heatmap"]
  end.

Definition withForecasts (fs : list Forecast.t) : InsightResponse.insights_ :=
  {| InsightResponse.i_profile := None;
     InsightResponse.i_statistics := None;
     InsightResponse.i_trends := None;
     InsightResponse.i_anomalies := None;
     InsightResponse.i_forecasts := Some fs;
     InsightResponse.i_correlations := None;
     InsightResponse.i_keyInsights := None |}.

Definition handleForecastQuery (rows : Dataset) (targetColumn : option string)
  : Completion InsightResponse.t :=
  match given targetColumn with
  | Some target =>
      result <- forecast rows target 7 Forecast.auto ;;
      Normal (response ("Forecast " ++ target) InsightResponse.forecast (withForecasts [result])
                       (Forecast.interpretation result) ["line"; "area"])
  | None =>
      forecasts <- forecastAll rows 7 ;;
      Normal (response "Generate forecasts" InsightResponse.forecast (withForecasts forecasts)
                       (getForecastSummary forecasts) ["line"; "area"])
  end.

Definition withTrends (ts : list Trend.t) : InsightResponse.insights_ :=
  {| InsightResponse.i_profile := None;
     InsightResponse.i_statistics := None;
     InsightResponse.i_trends := Some ts;
     InsightResponse.i_anomalies := None;
     InsightResponse.i_forecasts := None;
     InsightResponse.i_correlations := None;
     InsightResponse.i_keyInsights := None |}.

Definition handleTrendQuery (rows : Dataset) (targetColumn : option string)
  : InsightResponse.t :=
  match given targetColumn with
  | Some target =>
      let trend := analyzeTrend rows target in
      response ("Trends in " ++ target) InsightResponse.trends (withTrends [trend])
               (Trend.explanation trend) ["line"; "area"]
  | None =>
      let trends := analyzeAllTrends rows in
      response "Analyze trends" InsightResponse.trends (withTrends trends)
               (getTrendSummary trends) ["line"; "area"; "heatmap"]
  end.

Definition withCorrelations (c : CorrelationResult.t) : InsightResponse.insights_ :=
  {| InsightResponse.i_profile := None;
     InsightResponse.i_statistics := None;
     InsightResponse.i_trends := None;
     InsightResponse.i_anomalies := None;
     InsightResponse.i_forecasts := None;
     InsightResponse.i_correlations := Some c;
     InsightResponse.i_keyInsights := None |}.

Definition relatedText (r : RelatedFeature) : string :=
  (rf_column r ++ " (" ++ JsConv.toFixed (rf_correlation r) 2 ++ ")")%string.

Definition handleCorrelationQuery (rows : Dataset) (targetColumn : option string)
  : InsightResponse.t :=
  let correlations := analyzeCorrelations rows in
  match given targetColumn with
  | Some target =>
      let related := findCorrelatedFeatures rows target 10 in
      response ("Correlations with " ++ target) InsightResponse.correlation
        (withCorrelations correlations)
        (if (0 <? List.length related)%nat then
           "Top correlations with " ++ quoted target ++ ": "
           ++ JsStr.join ", " (map relatedText (firstn 5 related)) ++ "."
         else "No significant correlations found for " ++ quoted target ++ ".")%string
        ["scatter"; "heatmap"]
  | None =>
      response "Explain correlations" InsightResponse.correlation (withCorrelations correlations)
               (CorrelationResult.explanation correlations) ["heatmap"; "scatter"]
  end.

(** A profile bound inside a template literal. *)
Definition boundText (b : Bound) : string :=
  match b with
  | BNum x => JsConv.numberToString x
  | BDate t => toLocaleString host t
  end.

Definition handleExplainQuery (rows : Dataset) (targetColumn : option string)
  : Completion InsightResponse.t :=
  let profile := profileDataset rows in
  match given targetColumn with
  | Some target =>
      match findColumn profile target with
      | None =>
          Normal (response ("Explain " ++ target) InsightResponse.explain (withProfile profile)
                           ("Column " ++ quoted target ++ " not found in dataset.")%string [])
      | Some colProfile =>
          let name := ColumnProfile.name colProfile in
          let isNumeric := ColumnType_eqb (ColumnProfile.type colProfile) TNumeric in
          let head :=
            (quoted name ++ " is a " ++ ColumnType_name (ColumnProfile.type colProfile)
             ++ " column with " ++ JsStr.ofNat (ColumnProfile.totalCount colProfile)
             ++ " values (" ++ JsStr.ofNat (ColumnProfile.nullCount colProfile) ++ " null).")%string in
          let parts :=
            if isNumeric then
              let trend := analyzeTrend rows name in
              let anomalySummary := getColumnAnomalySummary rows name in
              let related := findCorrelatedFeatures rows name 3 in
              [ ("Range: " ++ optText boundText (ColumnProfile.min colProfile) ++ " to "
                 ++ optText boundText (ColumnProfile.max colProfile) ++ ", Mean: "
                 ++ optText (fun m => JsConv.toFixed m 2) (ColumnProfile.mean colProfile)
                 ++ ", StdDev: "
                 ++ optText (fun m => JsConv.toFixed m 2) (ColumnProfile.stdDev colProfile)
                 ++ ".")%string;
                ("Trend: " ++ Trend.direction_name (Trend.direction trend) ++ " ("
                 ++ JsConv.toFixed (Trend.strength trend * 100) 0 ++ "% confidence).")%string;
                ("Anomalies: " ++ JsStr.ofNat (count anomalySummary) ++ " detected ("
                 ++ severity anomalySummary ++ " severity).")%string ]
              ++ (if (0 <? List.length related)%nat then
                    [("Top correlations: " ++ JsStr.join ", " (map relatedText related)
                      ++ ".")%string]
                  else [])
            else
              [ ("Unique values: " ++ JsStr.ofNat (ColumnProfile.uniqueCount colProfile)
                 ++ ". Top values: "
                 ++ JsStr.join ", "
                      (map (fun v : StrOrNum * nat =>
                              (quoted (StrOrNum_toString (fst v)) ++ " ("
                               ++ JsStr.ofNat (snd v) ++ ")")%string)
                           (firstn 3 (ColumnProfile.topValues colProfile)))
                 ++ ".")%string ] in
          Normal (response ("Explain " ++ target) InsightResponse.explain (withProfile profile)
                           (JsStr.join " " (head :: parts))
                           (if isNumeric then ["line"; "histogram"; "scatter"] else ["bar"; "pie"]))
      end
  | None => generateCompleteAnalysis rows
  end.

(** The promise [analyze] returns: fulfilled with a response or rejected
    with the exception thrown.  [None] is a [null] or [undefined] dataset. *)
Definition analyze (query : string) (dataset : option Dataset)
  : Completion InsightResponse.t :=
  match dataset with
  | None | Some [] =>
      Normal (response query InsightResponse.summary InsightResponse.noInsights
                       "No data provided for analysis. Please provide a valid dataset." [])
  | Some rows =>
      let '(intent, targetColumn) := detectIntent query in
      match intent with
      | InsightResponse.profile => Normal (handleProfileQuery rows)
      | InsightResponse.summary => Normal (handleSummaryQuery rows targetColumn)
      | InsightResponse.anomalies => Normal (handleAnomalyQuery rows targetColumn)
      | InsightResponse.forecast => handleForecastQuery rows targetColumn
      | InsightResponse.trends => Normal (handleTrendQuery rows targetColumn)
      | InsightResponse.correlation => Normal (handleCorrelationQuery rows targetColumn)
      | InsightResponse.explain => handleExplainQuery rows targetColumn
      end
  end.

End Engine.

(* ================================================================== *)
(** * Part II, continued.  The upload function                     *)
(* ================================================================== *)

(** ** [parseCSV] and [rowToObject]

    The upload function ([supabase/functions], the place where datasets
    enter the application) turns the text of a CSV file into rows of strings
    and each row into an object keyed by the header row. *)

(** [s.trim()] *)
Definition trim (s : string) : string :=
  string_of_list_ascii (JsConv.stripSpace (list_ascii_of_string s)).

Definition isLF (c : ascii) : bool := Ascii.eqb c "010".
Definition isCR (c : ascii) : bool := Ascii.eqb c "013".

(** [text.split(/\r?\n/)]: a line ends at a line feed, and a carriage
    return directly before that line feed belongs to the separator. *)
Fixpoint splitLines (cs : list ascii) : list string :=
  match cs with
  | [] => [""]
  | c :: r =>
      if isLF c then "" :: splitLines r
      else if isCR c && match r with c' :: _ => isLF c' | [] => false end
      then splitLines r
      else match splitLines r with
           | line :: lines => String c line :: lines
           | [] => [String c ""]
           end
  end.

(** The variables of the loop over the characters of a line. *)
Module LineState.
Record t : Type := {
  result : list string;
  current : string;
  inQuotes : bool
}.
End LineState.

(** One turn of the loop [for (let i = 0; i < line.length; i++)]. *)
Definition parseChar (st : LineState.t) (char : ascii) : LineState.t :=
  if Ascii.eqb char "034" then
    {| LineState.result := LineState.result st;
       LineState.current := LineState.current st;
       LineState.inQuotes := negb (LineState.inQuotes st) |}
  else if Ascii.eqb char "," && negb (LineState.inQuotes st) then
    {| LineState.result := LineState.result st ++ [trim (LineState.current st)];
       LineState.current := "";
       LineState.inQuotes := LineState.inQuotes st |}
  else
    {| LineState.result := LineState.result st;
       LineState.current := LineState.current st ++ String char "";
       LineState.inQuotes := LineState.inQuotes st |}.

Definition parseLine (line : string) : list string :=
  let st :=
    fold_left parseChar (list_ascii_of_string line)
      {| LineState.result := []; LineState.current := ""; LineState.inQuotes := false |} in
  LineState.result st ++ [trim (LineState.current st)].

Definition parseCSV (text : string) : list (list string) :=
  let lines :=
    filter (fun line => negb (String.eqb (trim line) ""))
           (splitLines (list_ascii_of_string text)) in
  map parseLine lines.

(** [cell || ""], for a cell that may be missing. *)
Definition orEmpty (cell : option string) : string :=
  match cell with
  | Some s => if String.eqb s "" then "" else s
  | None => ""
  end.

(** [obj[key] = value] for a string [value], on an object created by [{}]:
    the key [__proto__] names the accessor of the prototype, whose setter
    ignores a string; any other key becomes, or stays, an own property. *)
Definition assign (obj : JsObj.t string) (key value : string) : JsObj.t string :=
  if String.eqb key "__proto__" then obj else JsObj.set obj key value.

Definition rowToObject (headers row : list string) : JsObj.t string :=
  fold_left
    (fun (obj : JsObj.t string) (ih : nat * string) =>
       assign obj (snd ih) (orEmpty (nth_error row (fst ih))))
    (JsArr.indexed headers) [].

(* ================================================================== *)
(** * Part III.  Vocabulary of the properties                        *)
(* ================================================================== *)

Local Close Scope float_scope.

(** ** Binary64 values as scaled integers

    A finite Number [m * 2^e] is measured in units of [2^-base]; [base] is
    large enough for the exact product of two Numbers. *)

Local Open Scope Z_scope.

(** The scale: every finite Number, and every exact product of two, is an
    integer multiple of [2^-base]. *)
Definition base : Z := 2200.

(** The magnitude [m * 2^e] in units of [2^-base]. *)
Definition mag (m : positive) (e : Z) : Z := Zpos m * 2 ^ (e + base).

(** The value of a finite float, in units of [2^-base]. *)
Definition SFval (x : spec_float) : option Z :=
  match x with
  | S754_zero _ => Some 0
  | S754_finite s m e => Some (if s then - mag m e else mag m e)
  | _ => None
  end.

(** What [j] right shifts of [N] leave: the quotient by [2^j], and clear
    round and sticky bits when nothing was shifted out. *)
Definition ShrInv (N j : Z) (r : shr_record) : Prop :=
  shr_m r = N / 2 ^ j /\ (N mod 2 ^ j = 0 -> shr_r r = false /\ shr_s r = false).

(** A rounding result of sign [s] and magnitude [V]: a canonical finite
    float, or the infinity when [V] is beyond the largest one. *)
Definition RoundResult (s : bool) (V : Z) (R : spec_float) : Prop :=
  match R with
  | S754_finite s' m e => s' = s /\ mag m e = V /\ bounded prec emax m e = true
  | S754_infinity s' => s' = s /\ 2 ^ (1024 + base) <= V
  | _ => False
  end.

(** The exponent at which [mz * 2^ez] is rounded. *)
Definition E1 (mz : positive) (ez : Z) : Z := fexp prec emax (Zpos (digits2_pos mz) + ez).

(** The second half of [binary_round_aux]: renormalisation after the
    mantissa was rounded, and the overflow test. *)
Definition finish (s : bool) (m : Z) (e : Z) : spec_float :=
  let '(mrs, e') := shr_fexp prec emax m e loc_Exact in
  match shr_m mrs with
  | Z0 => S754_zero s
  | Zpos m => if e' <=? 971 then S754_finite s m e' else S754_infinity s
  | Zneg _ => S754_nan
  end.

(** Not negative: zeros, positive values, +Infinity (and NaN). *)
Definition nonnegSF (x : spec_float) : bool :=
  match x with
  | S754_infinity true | S754_finite true _ _ => false
  | _ => true
  end.

(** The sign class of a margin: [u < 0] is false. *)
Definition NonNeg (u : float) : Prop := nonnegSF (Prim2SF u) = true.

Local Close Scope Z_scope.

(** ** Properties of the analyses *)

(** The text of the response to an absent or empty dataset. *)
Definition noDataText : string :=
  "No data provided for analysis. Please provide a valid dataset.".

(** The forecasts a response carries. *)
Definition forecastsOf (r : InsightResponse.t) : option (list Forecast.t) :=
  InsightResponse.i_forecasts (InsightResponse.insights r).

(** Whether row [i] has a cell of the column that coerces to a finite
    Number, and the positions of such rows, in order. *)
Definition numericCell (rows : Dataset) (col : string) (i : nat) : bool :=
  let v := JsVal.toNumber (JsVal.get (nth i rows []) col) in
  negb (JsNum.isNaN v) && JsNum.isFinite v.

Definition numericRows (rows : Dataset) (col : string) : list nat :=
  filter (numericCell rows col) (seq 0 (List.length rows)).

(** The anomaly reports the value the series holds at its row index. *)
Definition seriesPoint (values : list float) (a : Anomaly.t) : Prop :=
  nth_error values (Anomaly.rowIndex a) = Some (Anomaly.value a).






(** A prediction point whose bounds, when they are numbers, bracket the value. *)
Definition Bracketed (p : Forecast.point) : Prop :=
  (PrimFloat.is_nan (Forecast.lower (Forecast.confidence p)) = false ->
   JsNum.le (Forecast.lower (Forecast.confidence p)) (Forecast.value p) = true)
  /\ (PrimFloat.is_nan (Forecast.upper (Forecast.confidence p)) = false ->
      JsNum.le (Forecast.value p) (Forecast.upper (Forecast.confidence p)) = true).

(** The result of [forecast] for a column of fewer than five values. *)
Definition insufficientData (columnName : string) (found : nat) : Forecast.t :=
  {| Forecast.column := columnName;
     Forecast.method_ := Forecast.linear;
     Forecast.predictions := [];
     Forecast.trend := "insufficient data";
     Forecast.interpretation :=
       ("Cannot generate forecast for " ++ quoted columnName
        ++ ": insufficient data points (minimum 5 required, found "
        ++ JsStr.ofNat found ++ ").")%string |}.

(** The floats 0.25, 0.5 and 0.75. *)
Definition quarterF (q : Z) : float :=
  if (q =? 1)%Z then 0.25%float else if (q =? 2)%Z then 0.5%float else 0.75%float.

(** The two middle order statistics of an even-length list. *)
Definition lowerMiddle (S : list float) : float :=
  JsNum.get (JsArr.sortNum S) (List.length S / 2 - 1).
Definition upperMiddle (S : list float) : float :=
  JsNum.get (JsArr.sortNum S) (List.length S / 2).

(** Non-negative integers below 2^50 as Numbers. *)
Definition SmallNat (v : float) : Prop := exists z : Z, (0 <= z < 2 ^ 50)%Z /\ v = Z2F z.


(** ** Sample engines and datasets *)

(** An engine whose [Date.parse] rejects every string, whose
    [toLocaleString] prints a Number as [String] does, and whose
    [Math.pow] squares. *)
Definition plainHost : Host :=
  {| dateParse := fun _ => JsNum.nan;
     toLocaleString := JsConv.numberToString;
     mathPow := fun x y => if JsNum.seq y 2 then (x * x)%float else JsNum.nan |}.


(** A dataset of one column. *)
Definition column (name : string) (cells : list JsValue) : Dataset :=
  map (fun c => [(name, c)]) cells.

Definition salesRows : Dataset :=
  map (fun rc : float * float => [("revenue", JNum (fst rc)); ("cost", JNum (snd rc))])
      [(100, 60); (120, 58); (140, 65); (160, 61); (180, 70); (200, 66)]%float.

Definition shortRows : Dataset := column "revenue" [JNum 1; JNum 2; JNum 3].

(** 1e308, and the least positive Number 5e-324. *)
Definition big : float := 0x1.1ccf385ebc8a0p+1023%float.
Definition tiny : float := 0x1p-1074%float.

Definition hugeRows : Dataset := column "revenue" (repeat (JNum big) 5).

(** An outlier after a cell that is not numeric. *)
Definition gapRows : Dataset :=
  column "x" (JStr "n/a" :: map JNum [10; 11; 10; 12; 11; 10; 12; 11; 10; 11; 10; 500]%float).
Definition gapAnomaly : Anomaly.t :=
  {| Anomaly.rowIndex := 11;
     Anomaly.column := "x";
     Anomaly.value := 500;
     Anomaly.expectedRange := {| Anomaly.min := 8.125; Anomaly.max := 13.125 |};
     Anomaly.score := 1;
     Anomaly.type := Anomaly.iqr |}.

(** Nine blank cells, a word and one number. *)
Definition blankRows : Dataset :=
  column "x" (repeat JNull 5 ++ repeat (JStr "") 4 ++ [JStr "abc"; JNum 100]).
Definition blankAnomaly : Anomaly.t :=
  {| Anomaly.rowIndex := 9;
     Anomaly.column := "x";
     Anomaly.value := 100;
     Anomaly.expectedRange := {| Anomaly.min := 0; Anomaly.max := 0 |};
     Anomaly.score := 1;
     Anomaly.type := Anomaly.iqr |}.

(** The columns a forecast response covers. *)
Definition forecastColumns (c : Completion InsightResponse.t) : option (list string) :=
  match c with
  | Normal r => option_map (map Forecast.column) (forecastsOf r)
  | Throw _ => None
  end.

(** Whether each prediction point has [lower <= value <= upper]. *)
Definition orderedPoints (c : Completion Forecast.t) : list bool :=
  match c with
  | Normal f =>
      map (fun p => JsNum.le (Forecast.lower (Forecast.confidence p)) (Forecast.value p)
                    && JsNum.le (Forecast.value p) (Forecast.upper (Forecast.confidence p)))
          (Forecast.predictions f)
  | Throw _ => []
  end.


(** ** Vocabulary of the further properties *)

(** Whether the character [c] occurs in [s]. *)
Definition hasChar (c : ascii) (s : string) : bool :=
  existsb (Ascii.eqb c) (list_ascii_of_string s).




(** The loop that [trim] runs at each end of a string. *)
Fixpoint dropSpaces (l : list ascii) : list ascii :=
  match l with
  | c :: r => if JsStr.isSpace c then dropSpaces r else l
  | [] => []
  end.

(** A text without a double quote and without a line feed. *)
Definition cleanText (s : string) : Prop :=
  hasChar "034" s = false /\ hasChar "010" s = false.

(** A text that does not end with a space. *)
Definition endsClean (cs : list ascii) : Prop :=
  match rev cs with c :: _ => JsStr.isSpace c = false | [] => True end.

(** The loop of [rowToObject] from position [k] on. *)
Definition rowFrom (row : list string) (k : nat) (headers : list string) (obj : JsObj.t string)
  : JsObj.t string :=
  fold_left
    (fun (obj : JsObj.t string) (ih : nat * string) =>
       assign obj (snd ih) (orEmpty (nth_error row (fst ih))))
    (combine (seq k (List.length headers)) headers) obj.

(** A header that names an ordinary property, listed in insertion order. *)
Definition ordinaryKey (h : string) : bool :=
  negb (String.eqb h "__proto__")
  && match JsObj.arrayIndex h with Some _ => false | None => true end.




(** A comparison of keys that is an equivalence, as SameValueZero and the
    equality of strings are. *)
Definition keyEquivalence {T : Type} (eq : T -> T -> bool) : Prop :=
  (forall a, eq a a = true)
  /\ (forall a b, eq a b = eq b a)
  /\ (forall a b c, eq a b = true -> eq b c = true -> eq a c = true).




(** ** Sample files and rows *)

(** A file with a header line, a quoted field that holds a comma, an escaped
    quote, a blank line and both line separators. *)
Definition sampleCsv : string :=
  "name, age" ++ String "013" (String "010" "")
  ++ dq ++ "Doe, John" ++ dq ++ ",42" ++ String "010" (String "010" "")
  ++ dq ++ "say " ++ dq ++ dq ++ "hi" ++ dq ++ dq ++ dq ++ ", 7 ".



(** ** Classes of binary64 values *)

(** A zero, or a finite value whose exponent leaves room for its square. *)
Definition tameSF (x : spec_float) : bool :=
  match x with
  | S754_zero _ => true
  | S754_finite _ _ e => (-537 <=? e)%Z
  | _ => false
  end.

(** A zero, a positive finite value or +Infinity: never NaN. *)
Definition positiveSF (x : spec_float) : bool :=
  match x with
  | S754_zero _ | S754_finite false _ _ | S754_infinity false => true
  | _ => false
  end.

(** A zero or a finite value of sign [s]. *)
Definition finiteSF (s : bool) (x : spec_float) : bool :=
  match x with
  | S754_zero s' | S754_finite s' _ _ => Bool.eqb s' s
  | _ => false
  end.

(* ================================================================== *)
(** * Part IV.  Binary64 arithmetic                                  *)
(* ================================================================== *)

Local Open Scope Z_scope.

(** ** Binary64 values as scaled integers *)

Lemma fexp_eq (e : Z) : fexp prec emax e = Z.max (e - 53) (-1074).
Proof. reflexivity. Qed.

Lemma digits2_pos_log2 (m : positive) : Zpos (digits2_pos m) = Z.log2 (Zpos m) + 1.
Proof.
  induction m as [m IH|m IH|]; [| |reflexivity].
  - change (Zpos (digits2_pos m~1)) with (Zpos (Pos.succ (digits2_pos m))).
    rewrite Pos2Z.inj_succ, IH.
    change (Z.log2 (Zpos m~1)) with (Zpos (Pos.size m)).
    clear IH. induction m; cbn; lia.
  - change (Zpos (digits2_pos m~0)) with (Zpos (Pos.succ (digits2_pos m))).
    rewrite Pos2Z.inj_succ, IH.
    change (Z.log2 (Zpos m~0)) with (Zpos (Pos.size m)).
    clear IH. induction m; cbn; lia.
Qed.

Lemma log2_bounds (n : Z) : 0 < n -> 2 ^ Z.log2 n <= n < 2 ^ (Z.log2 n + 1).
Proof. intros H. pose proof (Z.log2_spec n H). now rewrite <- Z.add_1_r in *. Qed.

Lemma bounded_inv (m : positive) (e : Z) :
  bounded prec emax m e = true ->
  -1074 <= e <= 971 /\ Z.log2 (Zpos m) <= 52 /\ (-1074 < e -> Z.log2 (Zpos m) = 52).
Proof.
  unfold bounded, canonical_mantissa. rewrite andb_true_iff, Z.eqb_eq, Z.leb_le.
  rewrite fexp_eq, digits2_pos_log2. change (emax - prec) with 971. lia.
Qed.

Lemma mag_pos (m : positive) (e : Z) : 0 <= e + base -> 0 < mag m e.
Proof. intros. unfold mag. apply Z.mul_pos_pos; [lia|]. now apply Z.pow_pos_nonneg. Qed.

Lemma pow2_pos (k : Z) : 0 <= k -> 0 < 2 ^ k.
Proof. intros. now apply Z.pow_pos_nonneg. Qed.

(** Values of canonical floats are ordered as (exponent, mantissa) pairs. *)
Lemma mag_lt_exp (m1 m2 : positive) (e1 e2 : Z) :
  bounded prec emax m1 e1 = true -> bounded prec emax m2 e2 = true ->
  e1 < e2 -> mag m1 e1 < mag m2 e2.
Proof.
  intros B1 B2 H. apply bounded_inv in B1, B2.
  destruct B1 as (E1 & L1 & _), B2 as (E2 & _ & N2). specialize (N2 ltac:(lia)).
  pose proof (log2_bounds (Zpos m1) ltac:(lia)) as [_ U1].
  pose proof (log2_bounds (Zpos m2) ltac:(lia)) as [D2 _].
  rewrite N2 in D2. unfold mag, base.
  assert (U1' : Zpos m1 < 2 ^ 53).
  { eapply Z.lt_le_trans; [exact U1|]. apply Z.pow_le_mono_r; lia. }
  apply Z.lt_le_trans with (2 ^ 53 * 2 ^ (e1 + 2200)).
  - apply Z.mul_lt_mono_pos_r; [apply pow2_pos; lia|exact U1'].
  - apply Z.le_trans with (2 ^ 52 * 2 ^ (e2 + 2200)).
    + rewrite <- !Z.pow_add_r by lia. apply Z.pow_le_mono_r; lia.
    + apply Z.mul_le_mono_nonneg_r; [apply Z.lt_le_incl, pow2_pos; lia|exact D2].
Qed.

Lemma mag_compare (m1 m2 : positive) (e1 e2 : Z) :
  bounded prec emax m1 e1 = true -> bounded prec emax m2 e2 = true ->
  (mag m1 e1 ?= mag m2 e2)
  = match e1 ?= e2 with
    | Lt => Lt
    | Gt => Gt
    | Eq => Pos.compare_cont Eq m1 m2
    end.
Proof.
  intros B1 B2. destruct (Z.compare_spec e1 e2) as [E|E|E].
  - subst e2. change (Pos.compare_cont Eq m1 m2) with (Zpos m1 ?= Zpos m2).
    unfold mag. apply bounded_inv in B1. 
    destruct (Z.compare_spec (Zpos m1) (Zpos m2)) as [F|F|F].
    + rewrite F. apply Z.compare_refl.
    + apply Z.compare_lt_iff. apply Z.mul_lt_mono_pos_r; [apply pow2_pos; unfold base; lia|exact F].
    + apply Z.compare_gt_iff. apply Z.mul_lt_mono_pos_r; [apply pow2_pos; unfold base; lia|exact F].
  - apply Z.compare_lt_iff. now apply mag_lt_exp.
  - apply Z.compare_gt_iff. now apply mag_lt_exp.
Qed.

Lemma mag_inj (m1 m2 : positive) (e1 e2 : Z) :
  bounded prec emax m1 e1 = true -> bounded prec emax m2 e2 = true ->
  mag m1 e1 = mag m2 e2 -> m1 = m2 /\ e1 = e2.
Proof.
  intros B1 B2 H. pose proof (mag_compare m1 m2 e1 e2 B1 B2) as C.
  rewrite H, Z.compare_refl in C.
  destruct (Z.compare_spec e1 e2) as [E|E|E]; try discriminate.
  split; [|exact E]. symmetry in C. now apply Pos.compare_eq in C.
Qed.

(** Comparison of valid floats is comparison of their values. *)
Lemma SFcompare_val (x y : spec_float) (a b : Z) :
  valid_binary x = true -> valid_binary y = true ->
  SFval x = Some a -> SFval y = Some b ->
  SFcompare x y = Some (a ?= b).
Proof.
  intros Vx Vy Hx Hy.
  destruct x as [sx|sx| |sx mx ex], y as [sy|sy| |sy my ey]; try discriminate;
    cbn [SFval] in Hx, Hy; inversion Hx; inversion Hy; subst; clear Hx Hy;
    cbn [valid_binary] in Vx, Vy; unfold SFcompare.
  - reflexivity.
  - pose proof (bounded_inv _ _ Vy) as (E & _).
    pose proof (mag_pos my ey ltac:(unfold base; lia)).
    destruct sy; f_equal; symmetry; [apply Z.compare_gt_iff|apply Z.compare_lt_iff]; lia.
  - pose proof (bounded_inv _ _ Vx) as (E & _).
    pose proof (mag_pos mx ex ltac:(unfold base; lia)).
    destruct sx; f_equal; symmetry; [apply Z.compare_lt_iff|apply Z.compare_gt_iff]; lia.
  - pose proof (bounded_inv _ _ Vx) as (Ex & _). pose proof (bounded_inv _ _ Vy) as (Ey & _).
    pose proof (mag_pos mx ex ltac:(unfold base; lia)).
    pose proof (mag_pos my ey ltac:(unfold base; lia)).
    pose proof (mag_compare mx my ex ey Vx Vy) as C.
    destruct sx, sy; f_equal.
    + rewrite Z.compare_opp, (Z.compare_antisym (mag mx ex)), C.
      now destruct (ex ?= ey).
    + symmetry. apply Z.compare_lt_iff. lia.
    + symmetry. apply Z.compare_gt_iff. lia.
    + now rewrite C.
Qed.

(** ** Right shifts with sticky bits *)

Lemma shr_1_nonneg (m : Z) (r s : bool) :
  0 <= m ->
  shr_1 {| shr_m := m; shr_r := r; shr_s := s |}
  = {| shr_m := m / 2; shr_r := Z.odd m; shr_s := r || s |}.
Proof.
  intros H. destruct m as [|p|p]; [reflexivity| |lia].
  destruct p as [p|p|]; cbn [shr_1 Z.odd].
  - f_equal. rewrite Pos2Z.inj_xI.
    apply Z.div_unique with 1; lia.
  - f_equal. rewrite Pos2Z.inj_xO.
    apply Z.div_unique with 0; lia.
  - reflexivity.
Qed.

Lemma ShrInv_step (N j : Z) (r : shr_record) :
  0 <= N -> 0 <= j -> ShrInv N j r -> ShrInv N (j + 1) (shr_1 r).
Proof.
  intros HN Hj [Hm Hex]. destruct r as [m r s]. cbn [shr_m shr_r shr_s] in *.
  assert (P : 0 < 2 ^ j) by now apply pow2_pos.
  assert (Hm0 : 0 <= m) by (subst m; apply Z.div_pos; lia).
  rewrite shr_1_nonneg by exact Hm0. unfold ShrInv. cbn [shr_m shr_r shr_s].
  rewrite Z.pow_add_r, Z.pow_1_r by lia. split.
  - subst m. now rewrite Z.div_div by lia.
  - intros D.
    assert (D0 : N mod 2 ^ j = 0).
    { rewrite Z.rem_mul_r in D by lia.
      pose proof (Z.mod_pos_bound N (2 ^ j) P).
      pose proof (Z.mod_pos_bound (N / 2 ^ j) 2 ltac:(lia)). nia. }
    destruct (Hex D0) as [-> ->]. split; [|reflexivity].
    rewrite Z.rem_mul_r, D0 in D by lia.
    rewrite <- Hm in D. rewrite <- Z.negb_even.
    assert (E : m mod 2 = 0) by nia.
    rewrite Zeven_mod, E. reflexivity.
Qed.

Lemma ShrInv_iter (N : Z) (p : positive) :
  0 <= N -> forall (j : Z) (r : shr_record),
  0 <= j -> ShrInv N j r -> ShrInv N (j + Zpos p) (iter_pos shr_1 p r).
Proof.
  intros HN. induction p as [p IH|p IH|]; intros j r Hj H; cbn [iter_pos].
  - replace (j + Zpos p~1) with (j + 1 + Zpos p + Zpos p) by lia.
    apply IH; [lia|]. apply IH; [lia|]. now apply ShrInv_step.
  - replace (j + Zpos p~0) with (j + Zpos p + Zpos p) by lia.
    apply IH; [lia|]. now apply IH.
  - now apply ShrInv_step.
Qed.

Lemma ShrInv_init (N : Z) : ShrInv N 0 (shr_record_of_loc N loc_Exact).
Proof.
  split; cbn; [now rewrite Z.div_1_r|auto].
Qed.

(** The first shift of a rounding: quotient by [2^k], and the rounded
    mantissa is the quotient or its successor (the quotient when exact). *)
Lemma shr_round (N k : Z) :
  0 <= N -> 0 < k ->
  let r := fst (shr (shr_record_of_loc N loc_Exact) 0 k) in
  N / 2 ^ k <= round_nearest_even (shr_m r) (loc_of_shr_record r) <= N / 2 ^ k + 1
  /\ (N mod 2 ^ k = 0 ->
      round_nearest_even (shr_m r) (loc_of_shr_record r) = N / 2 ^ k).
Proof.
  intros HN Hk. destruct k as [|p|p]; try lia. cbn [shr fst].
  pose proof (ShrInv_iter N p HN 0 _ ltac:(lia) (ShrInv_init N)) as [Hm Hex].
  rewrite Z.add_0_l in *.
  destruct (iter_pos shr_1 p (shr_record_of_loc N loc_Exact)) as [m r s].
  cbn [shr_m shr_r shr_s] in *. subst m. split.
  - destruct r, s; cbn [loc_of_shr_record round_nearest_even];
      try destruct (Z.even _); lia.
  - intros D. destruct (Hex D) as [-> ->]. reflexivity.
Qed.

Lemma shr_exp (r : shr_record) (e k : Z) : 0 <= k -> snd (shr r e k) = e + k.
Proof. destruct k; cbn; lia. Qed.

Lemma shr_fst_exp (r : shr_record) (e e' k : Z) : fst (shr r e k) = fst (shr r e' k).
Proof. now destruct k. Qed.

(** ** Rounding to binary64 *)

Lemma E1_eq (mz : positive) (ez : Z) :
  E1 mz ez = Z.max (Z.log2 (Zpos mz) + 1 + ez - 53) (-1074).
Proof. unfold E1. now rewrite fexp_eq, digits2_pos_log2. Qed.

Lemma shr_fexp_eq (m : positive) (e : Z) :
  shr_fexp prec emax (Zpos m) e loc_Exact
  = shr (shr_record_of_loc (Zpos m) loc_Exact) e (E1 m e - e).
Proof. reflexivity. Qed.

Lemma binary_round_aux_finish (s : bool) (mz : positive) (ez : Z) :
  binary_round_aux prec emax s (Zpos mz) ez loc_Exact
  = let r := shr (shr_record_of_loc (Zpos mz) loc_Exact) ez (E1 mz ez - ez) in
    finish s (round_nearest_even (shr_m (fst r)) (loc_of_shr_record (fst r))) (snd r).
Proof.
  unfold binary_round_aux, finish. rewrite shr_fexp_eq.
  destruct (shr _ ez _) as [r e]. reflexivity.
Qed.

Lemma finish_id (s : bool) (m : positive) (e : Z) :
  E1 m e <= e ->
  finish s (Zpos m) e = if e <=? 971 then S754_finite s m e else S754_infinity s.
Proof.
  intros H. unfold finish. rewrite shr_fexp_eq.
  destruct (E1 m e - e) eqn:K; try lia; reflexivity.
Qed.

Lemma round_aux_id (s : bool) (mz : positive) (ez : Z) :
  E1 mz ez <= ez ->
  binary_round_aux prec emax s (Zpos mz) ez loc_Exact
  = if ez <=? 971 then S754_finite s mz ez else S754_infinity s.
Proof.
  intros H. rewrite binary_round_aux_finish.
  destruct (E1 mz ez - ez) eqn:K; try lia; cbn [shr fst snd];
    now apply finish_id.
Qed.

Lemma round_aux_exact (s : bool) (mz : positive) (ez : Z) (q : positive) :
  ez < E1 mz ez -> Zpos mz = Zpos q * 2 ^ (E1 mz ez - ez) ->
  binary_round_aux prec emax s (Zpos mz) ez loc_Exact
  = if E1 mz ez <=? 971 then S754_finite s q (E1 mz ez) else S754_infinity s.
Proof.
  intros H D. rewrite binary_round_aux_finish. cbv zeta.
  set (k := E1 mz ez - ez) in *. assert (Hk : 0 < k) by lia.
  assert (P : 0 < 2 ^ k) by (apply pow2_pos; lia).
  rewrite shr_exp by lia. rewrite (shr_fst_exp _ ez 0).
  destruct (shr_round (Zpos mz) k ltac:(lia) Hk) as [_ Ex]. cbv zeta in Ex.
  rewrite Ex by (rewrite D; apply Z.mod_mul; lia).
  rewrite D, Z.div_mul by lia.
  replace (ez + k) with (E1 mz ez) by (unfold k; lia).
  apply finish_id. rewrite (E1_eq q).
  assert (L : Z.log2 (Zpos mz) = k + Z.log2 (Zpos q)).
  { rewrite D. apply Z.log2_mul_pow2; lia. }
  pose proof (E1_eq mz ez) as E. rewrite L in E. unfold k in *. lia.
Qed.

Lemma bounded_intro (m : positive) (e : Z) :
  e = Z.max (Z.log2 (Zpos m) + 1 + e - 53) (-1074) -> e <= 971 ->
  bounded prec emax m e = true.
Proof.
  intros C O. unfold bounded, canonical_mantissa.
  rewrite andb_true_iff, Z.eqb_eq, Z.leb_le, fexp_eq, digits2_pos_log2.
  change (emax - prec) with 971. lia.
Qed.

Lemma log2_53 (m : Z) : 2 ^ 52 <= m < 2 ^ 53 -> Z.log2 m = 52.
Proof. intros H. apply Z.log2_unique; [lia|exact H]. Qed.

Lemma round_aux_round (s : bool) (mz : positive) (ez : Z) :
  -1074 <= ez -> ez < E1 mz ez ->
  let k := E1 mz ez - ez in
  let G := 2 ^ (E1 mz ez + base) in
  exists V : Z,
    Zpos mz / 2 ^ k * G <= V <= (Zpos mz / 2 ^ k + 1) * G
    /\ (Zpos mz mod 2 ^ k = 0 -> V = Zpos mz / 2 ^ k * G)
    /\ 2 ^ 52 <= Zpos mz / 2 ^ k
    /\ RoundResult s V (binary_round_aux prec emax s (Zpos mz) ez loc_Exact).
Proof.
  intros Hez H k G. rewrite binary_round_aux_finish. cbv zeta.
  fold k. assert (Hk : 0 < k) by (unfold k; lia).
  assert (P : 0 < 2 ^ k) by (apply pow2_pos; lia).
  rewrite shr_exp by lia. rewrite (shr_fst_exp _ ez 0).
  destruct (shr_round (Zpos mz) k ltac:(lia) Hk) as [Bd Ex]. cbv zeta in Bd, Ex.
  set (m2 := round_nearest_even _ _) in *.
  replace (ez + k) with (E1 mz ez) by (unfold k; lia).
  pose proof (E1_eq mz ez) as E.
  assert (Ek : k = Z.log2 (Zpos mz) - 52) by (unfold k; lia).
  pose proof (log2_bounds (Zpos mz) ltac:(lia)) as [Lo Hi].
  assert (Q : 2 ^ 52 <= Zpos mz / 2 ^ k < 2 ^ 53).
  { split.
    - apply Z.div_le_lower_bound; [lia|].
      rewrite <- Z.pow_add_r by lia. replace (k + 52) with (Z.log2 (Zpos mz)) by lia. exact Lo.
    - apply Z.div_lt_upper_bound; [lia|].
      rewrite <- Z.pow_add_r by lia. replace (k + 53) with (Z.log2 (Zpos mz) + 1) by lia. exact Hi. }
  assert (PG : 0 < G) by (apply pow2_pos; unfold base; lia).
  exists (m2 * G). repeat split.
  - apply Z.mul_le_mono_nonneg_r; lia.
  - apply Z.mul_le_mono_nonneg_r; lia.
  - intros D. now rewrite (Ex D).
  - apply Q.
  - assert (C : m2 < 2 ^ 53 \/ m2 = 2 ^ 53) by lia. destruct C as [C|C].
    + destruct m2 as [|p|p] eqn:M2; try lia.
      assert (L : Z.log2 (Zpos p) = 52) by (apply log2_53; lia).
      rewrite finish_id by (rewrite (E1_eq p), L; lia).
      destruct (E1 mz ez <=? 971) eqn:O; cbn [RoundResult].
      * apply Z.leb_le in O. split; [reflexivity|]. split; [reflexivity|].
        apply bounded_intro; [rewrite L|]; lia.
      * split; [reflexivity|].
        apply Z.leb_gt in O. fold G.
        apply Z.le_trans with (2 ^ 52 * G); [|apply Z.mul_le_mono_nonneg_r; lia].
        unfold G. rewrite <- Z.pow_add_r by (unfold base; lia).
        apply Z.pow_le_mono_r; unfold base; lia.
    + change (2 ^ 53) with 9007199254740992 in C. rewrite C. unfold finish, shr_fexp.
      change (Zdigits2 9007199254740992) with 54. rewrite fexp_eq.
      replace (Z.max (54 + E1 mz ez - 53) (-1074) - E1 mz ez) with 1 by lia.
      cbn [shr iter_pos shr_1 shr_record_of_loc shr_m orb].
      destruct (E1 mz ez + 1 <=? 971) eqn:O; cbn [RoundResult].
      * apply Z.leb_le in O. split; [reflexivity|]. split.
        -- unfold mag, G.
           replace (E1 mz ez + 1 + base) with (1 + (E1 mz ez + base)) by lia.
           rewrite Z.pow_add_r by (unfold base; lia).
           change (2 ^ 1) with 2. lia.
        -- apply bounded_intro; [|lia].
           change (Z.log2 4503599627370496) with 52. lia.
      * split; [reflexivity|]. apply Z.leb_gt in O. unfold G.
        change 9007199254740992 with (2 ^ 53).
        rewrite <- Z.pow_add_r by (unfold base; lia).
        apply Z.pow_le_mono_r; unfold base; lia.
Qed.

Lemma iter_xO (m d : positive) : Zpos (Pos.iter xO m d) = Zpos m * 2 ^ Zpos d.
Proof.
  apply (Pos.iter_ind _ xO m (fun p v => Zpos v = Zpos m * 2 ^ Zpos p)).
  - now rewrite Pos2Z.inj_xO, Z.pow_1_r, Z.mul_comm.
  - intros p v IH. rewrite Pos2Z.inj_xO, IH, Pos2Z.inj_succ, Z.pow_succ_r by lia. ring.
Qed.

Lemma shl_align_le (mx : positive) (ex ex' : Z) :
  ex' <= ex ->
  snd (shl_align mx ex ex') = ex'
  /\ Zpos (fst (shl_align mx ex ex')) = Zpos mx * 2 ^ (ex - ex').
Proof.
  intros H. unfold shl_align. destruct (ex' - ex) as [|d|d] eqn:K; try lia; cbn [fst snd].
  - assert (ex = ex') by lia. subst. now rewrite Z.sub_diag, Z.mul_1_r.
  - rewrite iter_xO. replace (ex - ex') with (Zpos d) by lia. split; reflexivity.
Qed.

Lemma shl_align_gt (mx : positive) (ex ex' : Z) :
  ex <= ex' -> shl_align mx ex ex' = (mx, ex).
Proof.
  intros H. unfold shl_align. destruct (ex' - ex) as [|d|d] eqn:K; try lia; reflexivity.
Qed.

Lemma log2_mag (m : positive) (e : Z) :
  0 <= e + base -> Z.log2 (mag m e) = e + base + Z.log2 (Zpos m).
Proof. intros H. unfold mag. apply Z.log2_mul_pow2; lia. Qed.

Lemma canonical_exp (m : positive) (e : Z) :
  bounded prec emax m e = true -> e = Z.max (Z.log2 (Zpos m) + 1 + e - 53) (-1074).
Proof.
  unfold bounded, canonical_mantissa. rewrite andb_true_iff, Z.eqb_eq, Z.leb_le.
  rewrite fexp_eq, digits2_pos_log2. lia.
Qed.

Lemma mag_lt_overflow (m : positive) (e : Z) :
  bounded prec emax m e = true -> mag m e < 2 ^ (1024 + base).
Proof.
  intros B. pose proof (bounded_inv _ _ B) as (E & L & _).
  pose proof (log2_bounds (Zpos m) ltac:(lia)) as [_ U].
  assert (U' : Zpos m < 2 ^ 53).
  { eapply Z.lt_le_trans; [exact U|]. apply Z.pow_le_mono_r; lia. }
  unfold mag. apply Z.lt_le_trans with (2 ^ 53 * 2 ^ (e + base)).
  - apply Z.mul_lt_mono_pos_r; [apply pow2_pos; unfold base; lia|exact U'].
  - rewrite <- Z.pow_add_r by (unfold base; lia). apply Z.pow_le_mono_r; unfold base; lia.
Qed.

(** ** Rounding of an aligned sum: the value lands on the grid of the
    result exponent, next to the exact value. *)
Lemma binary_round_spec (s : bool) (n : positive) (ez : Z) :
  -1074 <= ez <= 971 ->
  let G := 2 ^ (E1 n ez + base) in
  let N := mag n ez in
  exists V : Z,
    N / G * G <= V <= N / G * G + G
    /\ (N mod G = 0 -> V = N)
    /\ (-1074 < E1 n ez -> 2 ^ 52 <= N / G)
    /\ RoundResult s V (binary_round prec emax s n ez).
Proof.
  intros Hez G N. unfold binary_round. fold (E1 n ez).
  pose proof (E1_eq n ez) as E.
  assert (PG : 0 < G) by (apply pow2_pos; unfold base; lia).
  pose proof (log2_bounds (Zpos n) ltac:(lia)) as [Lo Hi].
  destruct (Z_lt_le_dec ez (E1 n ez)) as [C|C].
  - rewrite shl_align_gt by lia.
    destruct (round_aux_round s n ez ltac:(lia) C) as (V & Bd & Ex & Q & R).
    cbv zeta in Bd, Ex, Q. fold G in Bd, Ex.
    set (k := E1 n ez - ez) in *.
    assert (P : 0 < 2 ^ k) by (apply pow2_pos; unfold k; lia).
    assert (P' : 0 < 2 ^ (ez + base)) by (apply pow2_pos; unfold base; lia).
    assert (GG : G = 2 ^ k * 2 ^ (ez + base)).
    { unfold G, k. rewrite <- Z.pow_add_r by (unfold base; lia). f_equal. lia. }
    assert (D : N / G = Zpos n / 2 ^ k).
    { unfold N, mag. rewrite GG. apply Z.div_mul_cancel_r; lia. }
    assert (M : N mod G = Zpos n mod 2 ^ k * 2 ^ (ez + base)).
    { unfold N, mag. rewrite GG. apply Z.mul_mod_distr_r; lia. }
    exists V. rewrite D. repeat split; try lia; [|exact R].
    intros Z0. rewrite Ex by nia.
    pose proof (Z.div_mod N G ltac:(lia)). rewrite <- D. lia.
  - destruct (shl_align_le n ez (E1 n ez) C) as [Sa Sm].
    destruct (shl_align n ez (E1 n ez)) as [n' e'] eqn:SA. cbn [fst snd] in Sa, Sm. subst e'.
    assert (L' : Z.log2 (Zpos n') = ez - E1 n ez + Z.log2 (Zpos n)).
    { rewrite Sm. apply Z.log2_mul_pow2; lia. }
    assert (E' : E1 n' (E1 n ez) = E1 n ez) by (rewrite (E1_eq n'), L'; lia).
    rewrite round_aux_id by lia.
    assert (O : (E1 n ez <=? 971) = true) by (apply Z.leb_le; lia). rewrite O.
    assert (NG : N = Zpos n' * G).
    { unfold N, mag, G. rewrite Sm, <- Z.mul_assoc, <- Z.pow_add_r by (unfold base; lia).
      do 2 f_equal. lia. }
    assert (D : N / G = Zpos n') by (rewrite NG; apply Z.div_mul; lia).
    exists N. rewrite D. repeat split; try lia.
    + intros K. apply Z.le_trans with (2 ^ (ez - E1 n ez + Z.log2 (Zpos n))).
      * apply Z.pow_le_mono_r; lia.
      * rewrite <- L'. apply log2_bounds. lia.
    + unfold mag. fold G. lia.
    + apply bounded_intro; [rewrite L'|]; lia.
Qed.

(** ** Rounding is monotone around canonical floats *)
Lemma round_le (s : bool) (n : positive) (ez : Z) (mx : positive) (ex : Z) :
  -1074 <= ez <= 971 -> bounded prec emax mx ex = true ->
  mag n ez <= mag mx ex ->
  exists m e, binary_round prec emax s n ez = S754_finite s m e
              /\ bounded prec emax m e = true /\ mag m e <= mag mx ex.
Proof.
  intros Hez B H.
  destruct (binary_round_spec s n ez Hez) as (V & Bd & Ex & _ & R). cbv zeta in *.
  set (G := 2 ^ (E1 n ez + base)) in *. set (N := mag n ez) in *.
  assert (PG : 0 < G) by (apply pow2_pos; pose proof (E1_eq n ez); unfold base; lia).
  pose proof (bounded_inv _ _ B) as (Eb & _).
  pose proof (canonical_exp _ _ B) as Cx.
  assert (LN : Z.log2 N <= Z.log2 (mag mx ex)) by now apply Z.log2_le_mono.
  unfold N in LN. rewrite !log2_mag in LN by (unfold base; lia).
  pose proof (E1_eq n ez) as E.
  assert (XE : E1 n ez <= ex) by lia.
  assert (XG : mag mx ex = (Zpos mx * 2 ^ (ex - E1 n ez)) * G).
  { unfold mag, G. rewrite <- Z.mul_assoc, <- Z.pow_add_r by (unfold base; lia).
    do 2 f_equal. lia. }
  set (qx := Zpos mx * 2 ^ (ex - E1 n ez)) in *.
  assert (VX : V <= mag mx ex).
  { pose proof (Z.div_mod N G ltac:(lia)) as DM.
    pose proof (Z.mod_pos_bound N G PG) as MB.
    destruct (Z.eq_dec (N mod G) 0) as [Z0|NZ].
    - rewrite (Ex Z0). exact H.
    - assert (N / G < qx) by nia. nia. }
  pose proof (mag_lt_overflow _ _ B) as OV.
  destruct (binary_round prec emax s n ez) as [| s' | | s' m e]; cbn [RoundResult] in R; try tauto.
  - lia.
  - destruct R as (-> & Vm & Bm). exists m, e. repeat split; [exact Bm|lia].
Qed.

Lemma round_ge (s : bool) (n : positive) (ez : Z) (mx : positive) (ex : Z) :
  -1074 <= ez <= 971 -> bounded prec emax mx ex = true ->
  mag mx ex <= mag n ez ->
  binary_round prec emax s n ez = S754_infinity s
  \/ exists m e, binary_round prec emax s n ez = S754_finite s m e
                 /\ bounded prec emax m e = true /\ mag mx ex <= mag m e.
Proof.
  intros Hez B H.
  destruct (binary_round_spec s n ez Hez) as (V & Bd & _ & Q & R). cbv zeta in *.
  set (G := 2 ^ (E1 n ez + base)) in *. set (N := mag n ez) in *.
  pose proof (E1_eq n ez) as E.
  assert (PG : 0 < G) by (apply pow2_pos; unfold base; lia).
  pose proof (bounded_inv _ _ B) as (Eb & Lb & _).
  pose proof (canonical_exp _ _ B) as Cx.
  assert (LN : Z.log2 (mag mx ex) <= Z.log2 N) by now apply Z.log2_le_mono.
  unfold N in LN. rewrite !log2_mag in LN by (unfold base; lia).
  assert (XE : ex <= E1 n ez) by lia.
  assert (VX : mag mx ex <= V).
  { apply Z.le_trans with (N / G * G); [|lia].
    destruct (Z.eq_dec ex (E1 n ez)) as [EQ|NE].
    - assert (MG : mag mx ex = Zpos mx * G) by (unfold mag, G; now rewrite EQ).
      rewrite MG. apply Z.mul_le_mono_nonneg_r; [lia|].
      apply Z.div_le_lower_bound; [lia|]. rewrite Z.mul_comm, <- MG. exact H.
    - specialize (Q ltac:(lia)).
      apply Z.le_trans with (2 ^ 52 * G); [|apply Z.mul_le_mono_nonneg_r; lia].
      pose proof (log2_bounds (Zpos mx) ltac:(lia)) as [_ U].
      assert (U' : Zpos mx < 2 ^ 53).
      { eapply Z.lt_le_trans; [exact U|]. apply Z.pow_le_mono_r; lia. }
      unfold mag, G. apply Z.le_trans with (2 ^ 53 * 2 ^ (ex + base)).
      + apply Z.mul_le_mono_nonneg_r; [apply Z.lt_le_incl, pow2_pos; unfold base; lia|lia].
      + rewrite <- !Z.pow_add_r by (unfold base; lia). apply Z.pow_le_mono_r; unfold base; lia. }
  destruct (binary_round prec emax s n ez) as [| s' | | s' m e]; cbn [RoundResult] in R; try tauto.
  - left. destruct R as [-> _]. reflexivity.
  - right. destruct R as (-> & Vm & Bm). exists m, e. repeat split; [exact Bm|lia].
Qed.

(** ** Exactly representable results are returned unchanged *)
Lemma round_aux_repr (s : bool) (mz : positive) (ez : Z) (m0 : positive) (e0 : Z) :
  0 <= ez + base -> ez <= E1 mz ez ->
  bounded prec emax m0 e0 = true -> mag mz ez = mag m0 e0 ->
  binary_round_aux prec emax s (Zpos mz) ez loc_Exact = S754_finite s m0 e0.
Proof.
  intros Hb Hle B H.
  pose proof (bounded_inv _ _ B) as (Eb & _).
  pose proof (canonical_exp _ _ B) as Cx.
  pose proof (f_equal Z.log2 H) as L. rewrite !log2_mag in L by (unfold base in *; lia).
  pose proof (E1_eq mz ez) as E.
  assert (EE : E1 mz ez = e0) by lia.
  assert (O : (e0 <=? 971) = true) by (apply Z.leb_le; lia).
  assert (MM : Zpos mz = Zpos m0 * 2 ^ (e0 - ez)).
  { unfold mag in H. replace (e0 + base) with ((e0 - ez) + (ez + base)) in H by lia.
    rewrite (Z.pow_add_r 2 (e0 - ez) (ez + base)), Z.mul_assoc in H by lia.
    apply Z.mul_reg_r in H; [exact H|]. pose proof (pow2_pos (ez + base) Hb). lia. }
  destruct (Z.eq_dec ez e0) as [EQ|NE].
  - rewrite round_aux_id by lia. rewrite EQ, O.
    rewrite EQ, Z.sub_diag, Z.mul_1_r in MM. now inversion MM.
  - rewrite (round_aux_exact s mz ez m0); [now rewrite EE, O|lia|now rewrite EE].
Qed.

Lemma round_repr (s : bool) (n : positive) (ez : Z) (m0 : positive) (e0 : Z) :
  -1074 <= ez ->
  bounded prec emax m0 e0 = true -> mag n ez = mag m0 e0 ->
  binary_round prec emax s n ez = S754_finite s m0 e0.
Proof.
  intros Hez B H. unfold binary_round. fold (E1 n ez).
  pose proof (E1_eq n ez) as E.
  destruct (Z_lt_le_dec ez (E1 n ez)) as [C|C].
  - rewrite shl_align_gt by lia. apply round_aux_repr; try assumption; unfold base; lia.
  - destruct (shl_align_le n ez (E1 n ez) C) as [Sa Sm].
    destruct (shl_align n ez (E1 n ez)) as [n' e'] eqn:SA. cbn [fst snd] in Sa, Sm. subst e'.
    assert (L' : Z.log2 (Zpos n') = ez - E1 n ez + Z.log2 (Zpos n)).
    { rewrite Sm. apply Z.log2_mul_pow2; lia. }
    apply round_aux_repr; try assumption.
    + unfold base; lia.
    + rewrite (E1_eq n'), L'. lia.
    + rewrite <- H. unfold mag. rewrite Sm, <- Z.mul_assoc, <- Z.pow_add_r by (unfold base; lia).
      do 2 f_equal. lia.
Qed.

(** ** Sign classes *)

Lemma Prim2SF_zero : Prim2SF 0%float = S754_zero false.
Proof. reflexivity. Qed.

Lemma NonNeg_ltb (u : float) : NonNeg u <-> (u <? 0)%float = false.
Proof.
  unfold NonNeg. rewrite FloatAxioms.ltb_spec, Prim2SF_zero.
  destruct (Prim2SF u) as [s|s| |s m e]; try destruct s; cbn; intuition congruence.
Qed.

Lemma round_aux_sign (s : bool) (m e : Z) (l : location) :
  match binary_round_aux prec emax s m e l with
  | S754_zero s' | S754_infinity s' | S754_finite s' _ _ => s' = s
  | S754_nan => True
  end.
Proof.
  unfold binary_round_aux.
  destruct (shr_fexp prec emax m e l) as [r1 e1].
  destruct (shr_fexp prec emax _ e1 loc_Exact) as [r2 e2].
  destruct (shr_m r2); [reflexivity| |exact I].
  destruct (e2 <=? emax - prec); reflexivity.
Qed.

Lemma round_aux_nonneg (m e : Z) (l : location) :
  nonnegSF (binary_round_aux prec emax false m e l) = true.
Proof.
  pose proof (round_aux_sign false m e l) as H.
  destruct (binary_round_aux prec emax false m e l); try subst; reflexivity.
Qed.

Lemma binary_round_nonneg (m : positive) (e : Z) :
  nonnegSF (binary_round prec emax false m e) = true.
Proof.
  unfold binary_round. destruct (shl_align m e _) as [mz ez]. apply round_aux_nonneg.
Qed.

Lemma NonNeg_zero : NonNeg 0%float.
Proof. reflexivity. Qed.

Lemma NonNeg_sqrt (u : float) : NonNeg (sqrt u).
Proof.
  unfold NonNeg. rewrite sqrt_spec. unfold SF64sqrt, SFsqrt.
  destruct (Prim2SF u) as [s|s| |s m e]; try destruct s; try reflexivity.
  destruct (SFsqrt_core_binary prec emax (Zpos m) e) as [[mz ez] lz].
  apply round_aux_nonneg.
Qed.

Lemma NonNeg_mul (u v : float) : NonNeg u -> NonNeg v -> NonNeg (u * v).
Proof.
  unfold NonNeg. rewrite mul_spec. unfold SF64mul, SFmul.
  destruct (Prim2SF u) as [s|s| |s m e], (Prim2SF v) as [s'|s'| |s' m' e'];
    try destruct s; try destruct s'; cbn [nonnegSF xorb]; try congruence; intros _ _.
  apply round_aux_nonneg.
Qed.

Lemma NonNeg_add (u v : float) : NonNeg u -> NonNeg v -> NonNeg (u + v).
Proof.
  unfold NonNeg. rewrite add_spec. unfold SF64add, SFadd.
  destruct (Prim2SF u) as [s|s| |s m e], (Prim2SF v) as [s'|s'| |s' m' e'];
    try destruct s; try destruct s'; cbn [nonnegSF]; try congruence; intros _ _.
  cbn [cond_Zopp]. unfold binary_normalize.
  destruct (Zpos _ + Zpos _) eqn:K; try lia. apply binary_round_nonneg.
Qed.

(** ** NaN *)

Lemma SFcompare_refl (x : spec_float) : x <> S754_nan -> SFcompare x x = Some Eq.
Proof.
  destruct x as [s|s| |s m e]; try destruct s; cbn; try congruence; intros _;
    rewrite Z.compare_refl, Pos.compare_cont_refl; reflexivity.
Qed.

Lemma is_nan_spec (x : float) : is_nan x = false <-> Prim2SF x <> S754_nan.
Proof.
  unfold is_nan. rewrite FloatAxioms.eqb_spec. unfold SFeqb. split.
  - intros H E. rewrite E in H. discriminate.
  - intros H. now rewrite SFcompare_refl.
Qed.

(** ** Subtracting or adding a non-negative margin *)

Lemma mag_align (m : positive) (e ez : Z) :
  ez <= e -> 0 <= ez + base ->
  Zpos (fst (shl_align m e ez)) * 2 ^ (ez + base) = mag m e.
Proof.
  intros H Hb. destruct (shl_align_le m e ez H) as [_ ->]. unfold mag.
  rewrite <- Z.mul_assoc, <- Z.pow_add_r by lia. do 2 f_equal. lia.
Qed.

Lemma SFleb_refl (x : spec_float) : x <> S754_nan -> SFleb x x = true.
Proof. intros H. unfold SFleb. now rewrite SFcompare_refl. Qed.

Lemma SFleb_val (x y : spec_float) (a b : Z) :
  valid_binary x = true -> valid_binary y = true ->
  SFval x = Some a -> SFval y = Some b -> a <= b -> SFleb x y = true.
Proof.
  intros Vx Vy Hx Hy H. unfold SFleb. rewrite (SFcompare_val x y a b) by assumption.
  destruct (Z.compare_spec a b); try reflexivity; lia.
Qed.

Section Margin.
Variables (mx my : positive) (ex ey : Z).
Hypothesis Bx : bounded prec emax mx ex = true.
Hypothesis By : bounded prec emax my ey = true.

Let ez := Z.min ex ey.
Let ax := Zpos (fst (shl_align mx ex ez)).
Let ay := Zpos (fst (shl_align my ey ez)).

Lemma margin_env :
  -1074 <= ez <= 971 /\ ax * 2 ^ (ez + base) = mag mx ex /\ ay * 2 ^ (ez + base) = mag my ey
  /\ 0 < 2 ^ (ez + base) /\ 0 < mag mx ex /\ 0 < mag my ey.
Proof.
  pose proof (bounded_inv _ _ Bx) as (Ex & _). pose proof (bounded_inv _ _ By) as (Ey & _).
  assert (-1074 <= ez <= 971) by (unfold ez; lia).
  repeat split; try lia.
  - apply mag_align; unfold ez, base; lia.
  - apply mag_align; unfold ez, base; lia.
  - apply pow2_pos; unfold base; lia.
  - apply mag_pos; unfold base; lia.
  - apply mag_pos; unfold base; lia.
Qed.

(** [x - y <= x] for finite [x] and positive finite [y]. *)
Lemma sub_finite_le (sx : bool) :
  SFleb (binary_normalize prec emax (cond_Zopp sx ax - cond_Zopp false ay) ez false)
        (S754_finite sx mx ex) = true.
Proof.
  destruct margin_env as (Hez & Ax & Ay & P & Px & Py).
  unfold binary_normalize. cbn [cond_Zopp].
  destruct sx; cbn [cond_Zopp].
  - destruct (- ax - ay) as [|n|n] eqn:K; try (unfold ax, ay in K; lia).
    assert (N : mag mx ex <= mag n ez) by (unfold mag at 2; nia).
    destruct (round_ge true n ez mx ex Hez Bx N) as [->|(m & e & -> & B & H)]; [reflexivity|].
    apply (SFleb_val _ _ (- mag m e) (- mag mx ex)); [exact B|exact Bx|reflexivity|reflexivity|lia].
  - destruct (ax - ay) as [|n|n] eqn:K.
    + reflexivity.
    + assert (N : mag n ez <= mag mx ex) by (unfold mag at 1; nia).
      destruct (round_le false n ez mx ex Hez Bx N) as (m & e & -> & B & H).
      apply (SFleb_val _ _ (mag m e) (mag mx ex)); [exact B|exact Bx|reflexivity|reflexivity|lia].
    + destruct (binary_round_spec true n ez Hez) as (V & _ & _ & _ & R). cbv zeta in R.
      destruct (binary_round prec emax true n ez) as [|s| |s m e]; cbn [RoundResult] in R;
        try tauto; destruct R as [-> _]; reflexivity.
Qed.

(** [x <= x + y] for finite [x] and positive finite [y]. *)
Lemma add_finite_ge (sx : bool) :
  SFleb (S754_finite sx mx ex)
        (binary_normalize prec emax (cond_Zopp sx ax + cond_Zopp false ay) ez false) = true.
Proof.
  destruct margin_env as (Hez & Ax & Ay & P & Px & Py).
  unfold binary_normalize. cbn [cond_Zopp].
  destruct sx; cbn [cond_Zopp].
  - destruct (- ax + ay) as [|n|n] eqn:K.
    + reflexivity.
    + destruct (binary_round_spec false n ez Hez) as (V & _ & _ & _ & R). cbv zeta in R.
      destruct (binary_round prec emax false n ez) as [|s| |s m e]; cbn [RoundResult] in R;
        try tauto; destruct R as [-> _]; reflexivity.
    + assert (N : mag n ez <= mag mx ex) by (unfold mag at 1; nia).
      destruct (round_le true n ez mx ex Hez Bx N) as (m & e & -> & B & H).
      apply (SFleb_val _ _ (- mag mx ex) (- mag m e)); [exact Bx|exact B|reflexivity|reflexivity|lia].
  - destruct (ax + ay) as [|n|n] eqn:K; try (unfold ax, ay in K; lia).
    assert (N : mag mx ex <= mag n ez) by (unfold mag at 2; nia).
    destruct (round_ge false n ez mx ex Hez Bx N) as [->|(m & e & -> & B & H)]; [reflexivity|].
    apply (SFleb_val _ _ (mag mx ex) (mag m e)); [exact Bx|exact B|reflexivity|reflexivity|lia].
Qed.

End Margin.

Lemma sub_margin_le (v u : float) :
  NonNeg u -> is_nan (v - u) = false -> (v - u <=? v)%float = true.
Proof.
  unfold NonNeg. rewrite is_nan_spec, FloatAxioms.leb_spec, sub_spec.
  pose proof (Prim2SF_valid v) as Vv. pose proof (Prim2SF_valid u) as Vu.
  unfold SF64sub, SFsub.
  destruct (Prim2SF v) as [sv|sv| |sv mv ev], (Prim2SF u) as [su|su| |su mu eu];
    try destruct su; cbn [nonnegSF]; try congruence; intros _ NN;
    try (now destruct sv); try (exfalso; apply NN; reflexivity);
    try (apply SFleb_refl; discriminate).
  apply sub_finite_le; assumption.
Qed.

Lemma add_margin_ge (v u : float) :
  NonNeg u -> is_nan (v + u) = false -> (v <=? v + u)%float = true.
Proof.
  unfold NonNeg. rewrite is_nan_spec, FloatAxioms.leb_spec, add_spec.
  pose proof (Prim2SF_valid v) as Vv. pose proof (Prim2SF_valid u) as Vu.
  unfold SF64add, SFadd.
  destruct (Prim2SF v) as [sv|sv| |sv mv ev], (Prim2SF u) as [su|su| |su mu eu];
    try destruct su; cbn [nonnegSF]; try congruence; intros _ NN;
    try (now destruct sv); try (exfalso; apply NN; reflexivity);
    try (apply SFleb_refl; discriminate).
  apply add_finite_ge; assumption.
Qed.

Local Close Scope Z_scope.

(* ================================================================== *)
(** * Part V.  Properties of the analyses                            *)
(* ================================================================== *)

(** ** Forecasts return *)

Lemma periodsLoop_length (p : Z) : List.length (periodsLoop p) = Z.to_nat p.
Proof. unfold periodsLoop. now rewrite length_map, length_seq. Qed.

Lemma propOf_defined {A : Type} (xs : list A) (i : Z) (prop : string) :
  (0 <= i < Z.of_nat (List.length xs))%Z -> exists a, propOf xs i prop = Normal a /\ In a xs.
Proof.
  intros [H0 H1]. unfold propOf.
  destruct (i <? 0)%Z eqn:E; [apply Z.ltb_lt in E; lia|].
  destruct (nth_error xs (Z.to_nat i)) eqn:N.
  - exists a. split; [reflexivity|]. eapply nth_error_In; eauto.
  - apply nth_error_None in N. lia.
Qed.

Lemma exponentialForecast_returns (values : list float) (periods : Z) (alpha : float) :
  (1 <= periods)%Z ->
  exists r, exponentialForecast values periods alpha = Normal r
            /\ List.length (fst r) = Z.to_nat periods.
Proof.
  intros Hp. unfold exponentialForecast.
  set (preds := map _ (periodsLoop periods)).
  assert (Hl : List.length preds = Z.to_nat periods)
    by (unfold preds; now rewrite length_map, periodsLoop_length).
  destruct (JsNum.sneq _ 0).
  - destruct (propOf_defined preds (periods - 1) "value") as (a & Ha & _); [lia|].
    rewrite Ha. cbn [bindC]. eexists. split; [reflexivity|]. exact Hl.
  - cbn [bindC]. eexists. split; [reflexivity|]. exact Hl.
Qed.

Lemma rollingForecast_returns (values : list float) (periods : Z) (w : option nat) :
  (1 <= periods)%Z ->
  exists r, rollingForecast values periods w = Normal r
            /\ List.length (fst r) = Z.to_nat periods.
Proof.
  intros Hp. unfold rollingForecast.
  set (preds := map _ (periodsLoop periods)).
  assert (Hl : List.length preds = Z.to_nat periods)
    by (unfold preds; now rewrite length_map, periodsLoop_length).
  destruct (propOf_defined preds 0 "value") as (a & Ha & _); [lia|].
  destruct (propOf_defined preds (periods - 1) "value") as (b & Hb & _); [lia|].
  rewrite Ha. cbn [bindC]. rewrite Hb. cbn [bindC].
  eexists. split; [reflexivity|]. exact Hl.
Qed.

Lemma linearForecast_length (values : list float) (periods : Z) :
  List.length (fst (linearForecast values periods)) = Z.to_nat periods.
Proof. unfold linearForecast. cbn [fst]. now rewrite length_map, periodsLoop_length. Qed.

Lemma forecast_returns (rows : Dataset) (col : string) (periods : Z) (m : Forecast.selector) :
  (1 <= periods)%Z ->
  exists f, forecast rows col periods m = Normal f.
Proof.
  intros Hp. unfold forecast.
  destruct (List.length (extractNumericValues rows col) <? 5)%nat; [eexists; reflexivity|].
  set (sel := match m with Forecast.auto => _ | Forecast.fixed m0 => m0 end).
  assert (Hr : exists r, match sel with
                         | Forecast.linear => Normal (linearForecast (extractNumericValues rows col) periods)
                         | Forecast.exponential => exponentialForecast (extractNumericValues rows col) periods 0.3
                         | Forecast.rolling => rollingForecast (extractNumericValues rows col) periods None
                         end = Normal r /\ List.length (fst r) = Z.to_nat periods).
  { destruct sel.
    - eexists; split; [reflexivity|apply linearForecast_length].
    - now apply exponentialForecast_returns.
    - now apply rollingForecast_returns. }
  destruct Hr as (r & Hr & Hl). rewrite Hr. cbn [bindC].
  destruct (JsNum.sneq _ 0).
  - destruct (propOf_defined (fst r) (Z.of_nat (List.length (fst r)) - 1) "value") as (a & Ha & _); [lia|].
    rewrite Ha. cbn [bindC]. eexists; reflexivity.
  - cbn [bindC]. eexists; reflexivity.
Qed.

Lemma mapC_returns {A B : Type} (f : A -> Completion B) (xs : list A) :
  (forall x, In x xs -> exists y, f x = Normal y) ->
  exists ys, mapC f xs = Normal ys /\ List.length ys = List.length xs.
Proof.
  induction xs as [|x xs IH]; intros H.
  - exists []. split; reflexivity.
  - destruct (H x (or_introl eq_refl)) as (y & Hy).
    destruct IH as (ys & Hys & Hl); [intros; apply H; now right|].
    cbn [mapC]. rewrite Hy. cbn [bindC]. rewrite Hys. cbn [bindC].
    exists (y :: ys). split; [reflexivity|]. cbn. now rewrite Hl.
Qed.

Lemma forecastAll_returns (rows : Dataset) (periods : Z) :
  (1 <= periods)%Z -> exists fs, forecastAll rows periods = Normal fs.
Proof.
  intros Hp. unfold forecastAll. destruct rows as [|row0 rest]; [eexists; reflexivity|].
  edestruct (@mapC_returns string Forecast.t) as (ys & Hys & _); [|eexists; exact Hys].
  intros; apply forecast_returns; exact Hp.
Qed.

(** ** Handlers return *)

Lemma handleForecastQuery_returns (rows : Dataset) (t : option string) :
  exists r, handleForecastQuery rows t = Normal r
            /\ InsightResponse.intent r = InsightResponse.forecast.
Proof.
  unfold handleForecastQuery. destruct (given t) as [target|].
  - destruct (forecast_returns rows target 7 Forecast.auto) as (f & Hf); [lia|].
    rewrite Hf. cbn [bindC]. eexists; split; reflexivity.
  - destruct (forecastAll_returns rows 7) as (fs & Hfs); [lia|].
    rewrite Hfs. cbn [bindC]. eexists; split; reflexivity.
Qed.




Lemma detectIntent_show_me_anomalies :
  detectIntent "show me anomalies" = (InsightResponse.anomalies, None).
Proof. vm_compute. reflexivity. Qed.

Lemma detectIntent_forecast_revenue :
  detectIntent "forecast revenue" = (InsightResponse.forecast, None).
Proof. vm_compute. reflexivity. Qed.

Lemma detectIntent_forecast_column_revenue :
  detectIntent "forecast column revenue" = (InsightResponse.forecast, Some "revenue").
Proof. vm_compute. reflexivity. Qed.

(** ** Anomalies are points of the series *)

Lemma combine_seq_nth_error {A : Type} (l : list A) (a i : nat) (x : A) :
  In (i, x) (combine (seq a (List.length l)) l) ->
  (a <= i)%nat /\ nth_error l (i - a) = Some x.
Proof.
  revert a. induction l as [|y l IH]; intros a H; [destruct H|].
  cbn in H. destruct H as [H|H].
  - inversion H; subst. rewrite Nat.sub_diag. split; [lia|reflexivity].
  - destruct (IH _ H) as (Hle & Hn). split; [lia|].
    replace (i - a)%nat with (S (i - S a)) by lia. exact Hn.
Qed.

Lemma indexed_nth_error {A : Type} (xs : list A) (i : nat) (x : A) :
  In (i, x) (JsArr.indexed xs) -> nth_error xs i = Some x.
Proof.
  intros H. apply combine_seq_nth_error in H. now rewrite Nat.sub_0_r in H.
Qed.

Lemma get_nth_error (xs : list float) (i : nat) :
  (i < List.length xs)%nat -> nth_error xs i = Some (JsNum.get xs i).
Proof. intros H. unfold JsNum.get. now apply nth_error_nth'. Qed.

Lemma detectZScoreAnomalies_points (values : list float) (c : string) (t : float) (a : Anomaly.t) :
  In a (detectZScoreAnomalies values c t) -> seriesPoint values a.
Proof.
  unfold detectZScoreAnomalies.
  destruct (List.length values <? 10)%nat; [intros []|].
  destruct (JsNum.seq _ 0); [intros []|].
  rewrite in_flat_map. intros ([i v] & Hin & Ha).
  destruct (JsNum.gt _ t); [|destruct Ha].
  destruct Ha as [<-|[]]. now apply indexed_nth_error.
Qed.

Lemma detectIQRAnomalies_points (values : list float) (c : string) (m : float) (a : Anomaly.t) :
  In a (detectIQRAnomalies values c m) -> seriesPoint values a.
Proof.
  unfold detectIQRAnomalies.
  destruct (List.length values <? 10)%nat; [intros []|].
  rewrite in_flat_map. intros ([i v] & Hin & Ha).
  destruct (_ || _); [|destruct Ha].
  destruct Ha as [<-|[]]. now apply indexed_nth_error.
Qed.

Lemma detectRollingAnomalies_points (values : list float) (c : string) (w : nat) (t : float)
      (a : Anomaly.t) :
  In a (detectRollingAnomalies values c w t) -> seriesPoint values a.
Proof.
  unfold detectRollingAnomalies.
  destruct (List.length values <? w + 2)%nat; [intros []|].
  rewrite in_flat_map. intros (i & Hin & Ha).
  apply in_seq in Hin.
  destruct (JsNum.seq _ 0); [destruct Ha|].
  destruct (JsNum.gt _ t); [|destruct Ha].
  destruct Ha as [<-|[]]. unfold seriesPoint. cbn. apply get_nth_error. lia.
Qed.

(** The merge only keeps anomalies it was given. *)
Lemma mapSet_values (k : nat) (a : Anomaly.t) (m : list (nat * Anomaly.t)) (b : Anomaly.t) :
  In b (map snd (mapSet k a m)) -> b = a \/ In b (map snd m).
Proof.
  induction m as [|[k' c] m IH]; cbn.
  - intros [H|[]]; auto.
  - destruct (k' =? k)%nat; cbn; intros [H|H]; auto.
    destruct (IH H); auto.
Qed.

Lemma mergeAnomaly_values (m : list (nat * Anomaly.t)) (a b : Anomaly.t) :
  In b (map snd (mergeAnomaly m a)) -> b = a \/ In b (map snd m).
Proof.
  unfold mergeAnomaly. destruct (mapGet _ m).
  - destruct (JsNum.lt _ _); [apply mapSet_values|auto].
  - apply mapSet_values.
Qed.

Lemma merge_values (l : list Anomaly.t) (m : list (nat * Anomaly.t)) (b : Anomaly.t) :
  In b (map snd (fold_left mergeAnomaly l m)) -> In b l \/ In b (map snd m).
Proof.
  revert m. induction l as [|a l IH]; intros m H; cbn in *; [auto|].
  destruct (IH _ H) as [H1|H1]; [auto|].
  destruct (mergeAnomaly_values _ _ _ H1); subst; auto.
Qed.

Lemma insert_In {A : Type} (lt : A -> A -> bool) (x y : A) (l : list A) :
  In y (JsArr.insert lt x l) <-> y = x \/ In y l.
Proof.
  induction l as [|z l IH]; cbn.
  - intuition.
  - destruct (lt z x); cbn; rewrite ?IH; intuition.
Qed.

Lemma sort_In {A : Type} (lt : A -> A -> bool) (y : A) (l : list A) :
  In y (JsArr.sort lt l) <-> In y l.
Proof.
  induction l as [|x l IH]; cbn; [tauto|].
  rewrite insert_In, IH. intuition.
Qed.

Lemma sort_length {A : Type} (lt : A -> A -> bool) (l : list A) :
  List.length (JsArr.sort lt l) = List.length l.
Proof.
  assert (I : forall x l, List.length (JsArr.insert lt x l) = S (List.length l)).
  { intros x l0. induction l0 as [|z l0 IH]; cbn; [reflexivity|].
    destruct (lt z x); cbn; now rewrite ?IH. }
  induction l as [|x l IH]; cbn; [reflexivity|]. now rewrite I, IH.
Qed.

(** Positions kept by a filter: the [k]-th kept position is at least [k],
    and is [k] exactly when nothing before it was dropped. *)
Lemma filter_seq_position (f : nat -> bool) (n a k p : nat) :
  nth_error (filter f (seq a n)) k = Some p ->
  (a + k <= p)%nat /\ (p < a + n)%nat /\ f p = true
  /\ ((a + k)%nat <> p <-> exists j, (a <= j < p)%nat /\ f j = false).
Proof.
  revert a k. induction n as [|n IH]; intros a k H; cbn in H.
  - destruct k; discriminate.
  - destruct (f a) eqn:Fa.
    + destruct k as [|k]; cbn in H.
      * inversion H; subst p.
        refine (conj _ (conj _ (conj Fa (conj _ _)))); try lia.
        intros (j & Hj & _); lia.
      * destruct (IH _ _ H) as (H1 & H2 & H3 & H4).
        refine (conj _ (conj _ (conj H3 (conj _ _)))); try lia.
        -- intros C. destruct H4 as [H4 _].
           destruct H4 as (j & Hj & Fj); [lia|]. exists j. split; [lia|exact Fj].
        -- intros (j & Hj & Fj). destruct (Nat.eq_dec j a) as [->|Hne]; [congruence|].
           destruct H4 as [_ H4].
           assert ((S a + k)%nat <> p) by (apply H4; exists j; split; [lia|exact Fj]).
           lia.
    + destruct (IH _ _ H) as (H1 & H2 & H3 & H4).
      refine (conj _ (conj _ (conj H3 (conj _ _)))); try lia.
      intros _. exists a. split; [lia|exact Fa].
Qed.

Lemma extractNumericValues_rows (rows : Dataset) (col : string) :
  extractNumericValues rows col
  = map (fun i => JsVal.toNumber (JsVal.get (nth i rows []) col)) (numericRows rows col).
Proof.
  unfold extractNumericValues, numericRows, numericCell.
  assert (G : forall (pre rows : Dataset),
             filter (fun v => negb (JsNum.isNaN v) && JsNum.isFinite v)
                    (map (fun row => JsVal.toNumber (JsVal.get row col)) rows)
             = map (fun i => JsVal.toNumber (JsVal.get (nth i (pre ++ rows) []) col))
                   (filter (fun i => let v := JsVal.toNumber (JsVal.get (nth i (pre ++ rows) []) col) in
                                     negb (JsNum.isNaN v) && JsNum.isFinite v)
                           (seq (List.length pre) (List.length rows)))).
  { intros pre rs. revert pre. induction rs as [|r rs IH]; intros pre; [reflexivity|].
    cbn [map filter List.length seq].
    assert (E : nth (List.length pre) (pre ++ r :: rs) [] = r)
      by (rewrite app_nth2, Nat.sub_diag; [reflexivity|lia]).
    cbn zeta. rewrite E.
    specialize (IH (pre ++ [r])). rewrite <- app_assoc, length_app, Nat.add_1_r in IH. cbn [app] in IH.
    destruct (negb _ && _); cbn [map]; rewrite ?E; now rewrite IH. }
  exact (G [] rows).
Qed.

(** ** The correlation matrix is mirrored *)

Section ObjLemmas.
Context {A : Type}.
Implicit Types (o : JsObj.t A) (k : string) (v : A).

Lemma obj_get_replace_same o k v :
  JsObj.has o k = true -> JsObj.get (JsObj.replace o k v) k = Some v.
Proof.
  unfold JsObj.has. induction o as [|[k' v'] o IH]; cbn; [discriminate|].
  destruct (String.eqb k' k) eqn:E; cbn; rewrite E; [reflexivity|exact IH].
Qed.

Lemma obj_get_replace_other o k v k' :
  k' <> k -> JsObj.get (JsObj.replace o k v) k' = JsObj.get o k'.
Proof.
  intros Hne. induction o as [|[k0 v0] o IH]; cbn; [reflexivity|].
  destruct (String.eqb k0 k) eqn:E; cbn.
  - apply String.eqb_eq in E. subst k0.
    destruct (String.eqb k k') eqn:E'; [apply String.eqb_eq in E'; congruence|reflexivity].
  - destruct (String.eqb k0 k'); [reflexivity|exact IH].
Qed.

Lemma obj_get_add_same o k v :
  JsObj.has o k = false -> JsObj.get (JsObj.add o k v) k = Some v.
Proof.
  unfold JsObj.has. induction o as [|[k' v'] o IH]; cbn; [now rewrite String.eqb_refl|].
  destruct (String.eqb k' k) eqn:E; [discriminate|]. intros H.
  destruct (JsObj.arrayIndex k) as [i|]; [destruct (JsObj.arrayIndex k') as [i'|]|].
  - destruct (i <? i')%Z; cbn; [now rewrite String.eqb_refl|rewrite E; auto].
  - cbn. now rewrite String.eqb_refl.
  - cbn. rewrite E. auto.
Qed.

Lemma obj_get_add_other o k v k' :
  k' <> k -> JsObj.get (JsObj.add o k v) k' = JsObj.get o k'.
Proof.
  intros Hne.
  assert (Ek : String.eqb k k' = false) by (apply String.eqb_neq; congruence).
  induction o as [|[k0 v0] o IH]; cbn; [now rewrite Ek|].
  destruct (JsObj.arrayIndex k) as [i|]; [destruct (JsObj.arrayIndex k0) as [i'|]|].
  - destruct (i <? i')%Z; cbn; [now rewrite Ek|now rewrite IH].
  - cbn. now rewrite Ek.
  - cbn. now rewrite IH.
Qed.

Lemma obj_get_set_same o k v : JsObj.get (JsObj.set o k v) k = Some v.
Proof.
  unfold JsObj.set. destruct (JsObj.has o k) eqn:E;
    [now apply obj_get_replace_same|now apply obj_get_add_same].
Qed.

Lemma obj_get_set_other o k v k' :
  k' <> k -> JsObj.get (JsObj.set o k v) k' = JsObj.get o k'.
Proof.
  intros. unfold JsObj.set. destruct (JsObj.has o k);
    [now apply obj_get_replace_other|now apply obj_get_add_other].
Qed.

End ObjLemmas.











(** ** Margins bracket the prediction *)

Lemma margin_bracketed (i : Z) (v h : float) :
  NonNeg h ->
  Bracketed {| Forecast.period := i; Forecast.value := v;
               Forecast.confidence := {| Forecast.lower := v - h; Forecast.upper := v + h |} |}.
Proof.
  intros H. split; cbn [Forecast.lower Forecast.upper Forecast.confidence Forecast.value];
    intros N; [now apply sub_margin_le|now apply add_margin_ge].
Qed.

Lemma NonNeg_of_uint63 (n : Uint63.int) : NonNeg (PrimFloat.of_uint63 n).
Proof.
  unfold NonNeg. rewrite of_uint63_spec. unfold binary_normalize.
  pose proof (Uint63.to_Z_bounded n) as B.
  destruct (Uint63.to_Z n) as [|p|p]; [reflexivity|apply binary_round_nonneg|lia].
Qed.

Lemma NonNeg_Z2F (z : Z) : (0 <= z)%Z -> NonNeg (Z2F z).
Proof.
  intros H. destruct z as [|p|p]; [reflexivity|apply NonNeg_of_uint63|lia].
Qed.

Lemma NonNeg_standardDeviation (values : list float) : NonNeg (standardDeviation values).
Proof.
  unfold standardDeviation. destruct (_ <? 2)%nat; [reflexivity|apply NonNeg_sqrt].
Qed.

Lemma periodsLoop_pos (periods i : Z) : In i (periodsLoop periods) -> (1 <= i)%Z.
Proof.
  unfold periodsLoop. rewrite in_map_iff. intros (k & <- & K). apply in_seq in K. lia.
Qed.

Lemma Forall_map_in {A B : Type} (P : B -> Prop) (f : A -> B) (xs : list A) :
  (forall x, In x xs -> P (f x)) -> Forall P (map f xs).
Proof. intros H. apply Forall_forall. intros y Hy. apply in_map_iff in Hy as (x & <- & Hx). auto. Qed.

Lemma linearForecast_points (values : list float) (periods : Z) :
  List.length (fst (linearForecast values periods)) = Z.to_nat periods
  /\ Forall Bracketed (fst (linearForecast values periods)).
Proof.
  unfold linearForecast. cbn [fst]. split; [now rewrite length_map, periodsLoop_length|].
  apply Forall_map_in. intros i Hi. apply periodsLoop_pos in Hi.
  apply margin_bracketed.
  apply NonNeg_mul.
  - apply NonNeg_mul; [apply NonNeg_mul; [apply NonNeg_standardDeviation|reflexivity]|apply NonNeg_sqrt].
  - apply NonNeg_add; [reflexivity|]. apply NonNeg_mul; [apply NonNeg_Z2F; lia|reflexivity].
Qed.

Lemma exponentialForecast_points (values : list float) (periods : Z) (alpha : float) :
  (1 <= periods)%Z ->
  exists r, exponentialForecast values periods alpha = Normal r
            /\ List.length (fst r) = Z.to_nat periods /\ Forall Bracketed (fst r).
Proof.
  intros Hp. unfold exponentialForecast.
  set (preds := map _ (periodsLoop periods)).
  assert (Hl : List.length preds = Z.to_nat periods)
    by (unfold preds; now rewrite length_map, periodsLoop_length).
  assert (Hb : Forall Bracketed preds).
  { apply Forall_map_in. intros i Hi. apply margin_bracketed.
    apply NonNeg_mul; [apply NonNeg_mul; [apply NonNeg_standardDeviation|reflexivity]|apply NonNeg_sqrt]. }
  destruct (JsNum.sneq _ 0).
  - destruct (propOf_defined preds (periods - 1) "value") as (a & Ha & _); [lia|].
    rewrite Ha. cbn [bindC]. eexists. split; [reflexivity|]. split; assumption.
  - cbn [bindC]. eexists. split; [reflexivity|]. split; assumption.
Qed.

Lemma rollingForecast_points (values : list float) (periods : Z) (w : option nat) :
  (1 <= periods)%Z ->
  exists r, rollingForecast values periods w = Normal r
            /\ List.length (fst r) = Z.to_nat periods /\ Forall Bracketed (fst r).
Proof.
  intros Hp. unfold rollingForecast.
  set (preds := map _ (periodsLoop periods)).
  assert (Hl : List.length preds = Z.to_nat periods)
    by (unfold preds; now rewrite length_map, periodsLoop_length).
  assert (Hb : Forall Bracketed preds).
  { apply Forall_map_in. intros i Hi. apply margin_bracketed.
    apply NonNeg_mul; [apply NonNeg_mul; [apply NonNeg_standardDeviation|reflexivity]|apply NonNeg_sqrt]. }
  destruct (propOf_defined preds 0 "value") as (a & Ha & _); [lia|].
  destruct (propOf_defined preds (periods - 1) "value") as (b & Hb' & _); [lia|].
  rewrite Ha. cbn [bindC]. rewrite Hb'. cbn [bindC].
  eexists. split; [reflexivity|]. split; assumption.
Qed.

Lemma forecast_points (rows : Dataset) (col : string) (periods : Z) (m : Forecast.selector) :
  (1 <= periods)%Z -> (5 <= List.length (extractNumericValues rows col))%nat ->
  exists f, forecast rows col periods m = Normal f
            /\ List.length (Forecast.predictions f) = Z.to_nat periods
            /\ Forall Bracketed (Forecast.predictions f).
Proof.
  intros Hp H5. unfold forecast.
  destruct (List.length (extractNumericValues rows col) <? 5)%nat eqn:E;
    [apply Nat.ltb_lt in E; lia|].
  set (sel := match m with Forecast.auto => _ | Forecast.fixed m0 => m0 end).
  assert (Hr : exists r, match sel with
                         | Forecast.linear => Normal (linearForecast (extractNumericValues rows col) periods)
                         | Forecast.exponential => exponentialForecast (extractNumericValues rows col) periods 0.3
                         | Forecast.rolling => rollingForecast (extractNumericValues rows col) periods None
                         end = Normal r /\ List.length (fst r) = Z.to_nat periods
                                /\ Forall Bracketed (fst r)).
  { destruct sel.
    - eexists; split; [reflexivity|apply linearForecast_points].
    - now apply exponentialForecast_points.
    - now apply rollingForecast_points. }
  destruct Hr as (r & Hr & Hl & Hb). rewrite Hr. cbn [bindC].
  destruct (JsNum.sneq _ 0).
  - destruct (propOf_defined (fst r) (Z.of_nat (List.length (fst r)) - 1) "value") as (a & Ha & _); [lia|].
    rewrite Ha. cbn [bindC]. eexists; split; [reflexivity|]. split; assumption.
  - cbn [bindC]. eexists; split; [reflexivity|]. split; assumption.
Qed.

(** ** Integers and quarters as Numbers *)

(** *** Integers as Numbers *)

Lemma Z2F_pos_spec (z : Z) :
  (0 < z < 2 ^ 53)%Z ->
  exists m e, Prim2SF (Z2F z) = S754_finite false m e
              /\ bounded prec emax m e = true /\ mag m e = (z * 2 ^ base)%Z.
Proof.
  intros [H0 H1]. destruct z as [|p|p]; try lia. unfold JsNum.Z2F.
  rewrite of_uint63_spec, Uint63.of_Z_spec.
  rewrite Z.mod_small by (change Uint63.wB with (2 ^ 63)%Z; lia).
  unfold binary_normalize.
  destruct (binary_round_spec false p 0 ltac:(lia)) as (V & _ & Ex & _ & R). cbv zeta in *.
  pose proof (E1_eq p 0) as E.
  assert (L : (Z.log2 (Zpos p) <= 52)%Z).
  { apply Z.log2_lt_pow2 in H1; lia. }
  assert (VN : V = mag p 0).
  { apply Ex. unfold mag.
    replace (0 + base)%Z with ((- E1 p 0) + (E1 p 0 + base))%Z by lia.
    rewrite Z.pow_add_r, Z.mul_assoc by (unfold base; lia).
    apply Z.mod_mul. pose proof (pow2_pos (E1 p 0 + base) ltac:(unfold base; lia)). lia. }
  destruct (binary_round prec emax false p 0) as [| s | | s m e]; cbn [RoundResult] in R; try tauto.
  - exfalso. destruct R as [_ R]. subst V. unfold mag in R.
    assert ((Zpos p * 2 ^ (0 + base) < 2 ^ 53 * 2 ^ base)%Z).
    { apply Z.mul_lt_mono_pos_r; [apply pow2_pos; unfold base; lia|lia]. }
    rewrite <- Z.pow_add_r in H by (unfold base; lia).
    assert ((2 ^ (53 + base) <= 2 ^ (1024 + base))%Z) by (apply Z.pow_le_mono_r; unfold base; lia).
    lia.
  - destruct R as (-> & Vm & Bm). exists m, e. repeat split; [exact Bm|].
    rewrite Vm, VN. reflexivity.
Qed.

Lemma Z2F_val (z : Z) :
  (0 <= z < 2 ^ 53)%Z -> SFval (Prim2SF (Z2F z)) = Some (z * 2 ^ base)%Z.
Proof.
  intros H. destruct (Z.eq_dec z 0) as [->|NZ]; [reflexivity|].
  destruct (Z2F_pos_spec z ltac:(lia)) as (m & e & -> & _ & M). cbn [SFval]. now rewrite M.
Qed.

(** An integer below 2^53 as a Number: mantissa and exponent. *)
Lemma Z2F_pos_exp (z : Z) :
  (0 < z < 2 ^ 53)%Z ->
  exists m, Prim2SF (Z2F z) = S754_finite false m (Z.log2 z - 52)
            /\ bounded prec emax m (Z.log2 z - 52) = true
            /\ Zpos m = (z * 2 ^ (52 - Z.log2 z))%Z
            /\ Z.log2 (Zpos m) = 52%Z.
Proof.
  intros H. destruct (Z2F_pos_spec z H) as (m & e & Hx & B & M).
  pose proof (bounded_inv _ _ B) as (Eb & Lm & Nm).
  pose proof (canonical_exp _ _ B) as C.
  pose proof (f_equal Z.log2 M) as LM.
  rewrite log2_mag, Z.log2_mul_pow2 in LM by (unfold base; lia).
  assert (Lz : (Z.log2 z < 53)%Z) by (apply Z.log2_lt_pow2; lia).
  pose proof (Z.log2_nonneg z).
  assert (Ee : (e = Z.log2 z - 52)%Z) by lia.
  subst e. exists m. repeat split; try assumption; [|lia].
  unfold mag in M.
  replace base with ((52 - Z.log2 z) + (Z.log2 z - 52 + base))%Z in M at 2 by lia.
  rewrite (Z.pow_add_r 2 (52 - Z.log2 z)), Z.mul_assoc in M by (unfold base; lia).
  apply Z.mul_reg_r in M; [exact M|].
  pose proof (pow2_pos (Z.log2 z - 52 + base) ltac:(unfold base; lia)). lia.
Qed.

Lemma opp_involutive (x : float) : (- - x)%float = x.
Proof.
  apply Prim2SF_inj. rewrite !opp_spec.
  destruct (Prim2SF x) as [s|s| |s m e]; cbn [SFopp]; now rewrite ?negb_involutive.
Qed.

Lemma Z2F_opp (z : Z) : (0 < z)%Z -> Z2F (- z) = (- Z2F z)%float.
Proof. intros H. destruct z; try lia. reflexivity. Qed.

Lemma SFval_pos_inj (x y : float) (a : Z) :
  SFval (Prim2SF x) = Some a -> SFval (Prim2SF y) = Some a -> (0 < a)%Z -> x = y.
Proof.
  intros Hx Hy Ha. apply Prim2SF_inj.
  pose proof (Prim2SF_valid x) as Vx. pose proof (Prim2SF_valid y) as Vy.
  destruct (Prim2SF x) as [sx|sx| |sx mx ex]; try discriminate; cbn [SFval] in Hx;
    inversion Hx as [Ex]; [lia|].
  destruct (Prim2SF y) as [sy|sy| |sy my ey]; try discriminate; cbn [SFval] in Hy;
    inversion Hy as [Ey]; [lia|].
  cbn [valid_binary] in Vx, Vy.
  pose proof (bounded_inv _ _ Vx) as (Bx & _). pose proof (bounded_inv _ _ Vy) as (By & _).
  pose proof (mag_pos mx ex ltac:(unfold base; lia)).
  pose proof (mag_pos my ey ltac:(unfold base; lia)).
  destruct sx, sy; try lia.
  destruct (mag_inj mx my ex ey Vx Vy ltac:(lia)) as [-> ->]. reflexivity.
Qed.

(** *** Exact sums, differences, products and quotients *)

Lemma sub_pos_exact (x y : float) (a b : Z) (m0 : positive) (e0 : Z) :
  SFval (Prim2SF x) = Some a -> SFval (Prim2SF y) = Some b -> (0 <= b < a)%Z ->
  bounded prec emax m0 e0 = true -> mag m0 e0 = (a - b)%Z ->
  Prim2SF (x - y) = S754_finite false m0 e0.
Proof.
  intros Hx Hy Hab B0 M0. rewrite sub_spec.
  pose proof (Prim2SF_valid x) as Vx. pose proof (Prim2SF_valid y) as Vy.
  destruct (Prim2SF x) as [sx|sx| |sx mx ex]; try discriminate; cbn [SFval] in Hx;
    inversion Hx; subst a; clear Hx; [lia|].
  cbn [valid_binary] in Vx. pose proof (bounded_inv _ _ Vx) as (Ex & _).
  pose proof (mag_pos mx ex ltac:(unfold base; lia)) as Px.
  destruct sx; [lia|].
  destruct (Prim2SF y) as [sy|sy| |sy my ey]; try discriminate; cbn [SFval] in Hy;
    inversion Hy; subst b; clear Hy; unfold SF64sub, SFsub.
  - rewrite Z.sub_0_r in M0. destruct (mag_inj _ _ _ _ B0 Vx M0) as [-> ->]. reflexivity.
  - cbn [valid_binary] in Vy. pose proof (bounded_inv _ _ Vy) as (Ey & _).
    pose proof (mag_pos my ey ltac:(unfold base; lia)) as Py.
    destruct sy; [lia|].
    destruct (margin_env mx my ex ey Vx Vy) as (Hez & Ax & Ay & P & _ & _).
    cbn [cond_Zopp]. unfold binary_normalize.
    destruct (Zpos _ - Zpos _)%Z as [|n|n] eqn:K; try nia.
    apply round_repr; [lia|exact B0|]. rewrite M0. unfold mag at 1. nia.
Qed.

Lemma add_val (x y : float) (a b : Z) (m0 : positive) (e0 : Z) :
  SFval (Prim2SF x) = Some a -> SFval (Prim2SF y) = Some b -> (0 < a)%Z -> (0 < b)%Z ->
  bounded prec emax m0 e0 = true -> mag m0 e0 = (a + b)%Z ->
  Prim2SF (x + y) = S754_finite false m0 e0.
Proof.
  intros Hx Hy Ha Hb B0 M0. rewrite add_spec.
  pose proof (Prim2SF_valid x) as Vx. pose proof (Prim2SF_valid y) as Vy.
  destruct (Prim2SF x) as [sx|sx| |sx mx ex]; try discriminate; cbn [SFval] in Hx;
    inversion Hx; subst a; clear Hx; [lia|].
  destruct (Prim2SF y) as [sy|sy| |sy my ey]; try discriminate; cbn [SFval] in Hy;
    inversion Hy; subst b; clear Hy; [lia|].
  cbn [valid_binary] in Vx, Vy.
  pose proof (bounded_inv _ _ Vx) as (Ex & _). pose proof (bounded_inv _ _ Vy) as (Ey & _).
  pose proof (mag_pos mx ex ltac:(unfold base; lia)) as Px.
  pose proof (mag_pos my ey ltac:(unfold base; lia)) as Py.
  destruct sx; [lia|]. destruct sy; [lia|].
  destruct (margin_env mx my ex ey Vx Vy) as (Hez & Ax & Ay & P & _ & _).
  unfold SF64add, SFadd. cbn [cond_Zopp]. unfold binary_normalize.
  destruct (Zpos _ + Zpos _)%Z as [|n|n] eqn:K; try lia.
  apply round_repr; [lia|exact B0|]. rewrite M0. unfold mag at 1. nia.
Qed.

Lemma add_Z2F (a b : Z) :
  (0 <= a)%Z -> (0 <= b)%Z -> (a + b < 2 ^ 53)%Z -> (Z2F a + Z2F b)%float = Z2F (a + b).
Proof.
  intros Ha Hb H.
  destruct (Z.eq_dec a 0) as [->|Na]; [|destruct (Z.eq_dec b 0) as [->|Nb]].
  - rewrite Z.add_0_l. apply Prim2SF_inj. rewrite add_spec.
    change (Prim2SF (Z2F 0)) with (S754_zero false). unfold SF64add, SFadd.
    destruct (Z.eq_dec b 0) as [->|Nb]; [reflexivity|].
    destruct (Z2F_pos_spec b ltac:(lia)) as (m & e & -> & _). reflexivity.
  - rewrite Z.add_0_r. apply Prim2SF_inj. rewrite add_spec.
    change (Prim2SF (Z2F 0)) with (S754_zero false). unfold SF64add, SFadd.
    destruct (Z2F_pos_spec a ltac:(lia)) as (m & e & -> & _). reflexivity.
  - destruct (Z2F_pos_spec (a + b) ltac:(lia)) as (m0 & e0 & H0 & B0 & M0).
    apply Prim2SF_inj. rewrite H0.
    pose proof (pow2_pos base ltac:(unfold base; lia)) as P.
    apply (add_val _ _ (a * 2 ^ base) (b * 2 ^ base)); try assumption.
    + apply Z2F_val; lia.
    + apply Z2F_val; lia.
    + nia.
    + nia.
    + rewrite M0. ring.
Qed.

Lemma mul_val (x y : float) (a b : Z) (m0 : positive) (e0 : Z) :
  SFval (Prim2SF x) = Some a -> SFval (Prim2SF y) = Some b -> (0 < a)%Z -> (0 < b)%Z ->
  bounded prec emax m0 e0 = true -> (mag m0 e0 * 2 ^ base = a * b)%Z ->
  Prim2SF (x * y) = S754_finite false m0 e0.
Proof.
  intros Hx Hy Ha Hb B0 M0. rewrite mul_spec.
  pose proof (Prim2SF_valid x) as Vx. pose proof (Prim2SF_valid y) as Vy.
  destruct (Prim2SF x) as [sx|sx| |sx mx ex]; try discriminate; cbn [SFval] in Hx;
    inversion Hx; subst a; clear Hx; [lia|].
  destruct (Prim2SF y) as [sy|sy| |sy my ey]; try discriminate; cbn [SFval] in Hy;
    inversion Hy; subst b; clear Hy; [lia|].
  cbn [valid_binary] in Vx, Vy.
  pose proof (bounded_inv _ _ Vx) as (Ex & Lx & Nx). pose proof (bounded_inv _ _ Vy) as (Ey & Ly & Ny).
  pose proof (mag_pos mx ex ltac:(unfold base; lia)) as Px.
  pose proof (mag_pos my ey ltac:(unfold base; lia)) as Py.
  destruct sx; [lia|]. destruct sy; [lia|].
  unfold SF64mul, SFmul. cbn [xorb].
  pose proof (Z.log2_mul_below (Zpos mx) (Zpos my) ltac:(lia) ltac:(lia)) as LB.
  pose proof (Z.log2_nonneg (Zpos mx)). pose proof (Z.log2_nonneg (Zpos my)).
  apply round_aux_repr.
  - unfold base; lia.
  - rewrite E1_eq, Pos2Z.inj_mul.
    destruct (Z.eq_dec ex (-1074)) as [X|X]; destruct (Z.eq_dec ey (-1074)) as [Y|Y];
      try specialize (Nx ltac:(lia)); try specialize (Ny ltac:(lia)); lia.
  - exact B0.
  - pose proof (pow2_pos base ltac:(unfold base; lia)) as P.
    apply (Z.mul_reg_r _ _ (2 ^ base)); [lia|]. rewrite M0. unfold mag.
    rewrite Pos2Z.inj_mul.
    replace (ex + ey + base)%Z with ((ex + base) + ey)%Z by lia.
    replace (Zpos mx * Zpos my * 2 ^ (ex + base + ey) * 2 ^ base)%Z
      with (Zpos mx * Zpos my * (2 ^ (ex + base + ey) * 2 ^ base))%Z by ring.
    rewrite <- Z.pow_add_r by (unfold base; lia).
    replace (ex + base + ey + base)%Z with ((ex + base) + (ey + base))%Z by lia.
    rewrite Z.pow_add_r by (unfold base; lia). ring.
Qed.

Lemma new_location_exact (m : Z) : new_location m 0 = loc_Exact.
Proof. unfold new_location. destruct (Z.even m); reflexivity. Qed.

Lemma div_Z2F (n z : Z) :
  (0 < n < 2 ^ 53)%Z -> (0 <= z)%Z -> (n * z < 2 ^ 53)%Z ->
  (Z2F (n * z) / Z2F n)%float = Z2F z.
Proof.
  intros Hn' Hz H. apply Prim2SF_inj. rewrite div_spec.
  assert (Hn : (0 < n)%Z) by lia.
  destruct (Z2F_pos_exp n Hn') as (my & Hy & By & My & Ly).
  destruct (Z.eq_dec z 0) as [->|Nz].
  - rewrite Z.mul_0_r, Hy. reflexivity.
  - assert (Hz' : (0 < z < 2 ^ 53)%Z) by nia.
    destruct (Z2F_pos_exp (n * z) ltac:(nia)) as (mx & Hx & Bx & Mx & Lx).
    destruct (Z2F_pos_exp z Hz') as (m0 & H0 & B0 & M0 & L0).
    rewrite Hx, Hy, H0. unfold SF64div, SFdiv, SFdiv_core_binary. cbn [xorb Zdigits2].
    rewrite !digits2_pos_log2, Lx, Ly.
    set (ex := (Z.log2 (n * z) - 52)%Z) in *. set (ey := (Z.log2 n - 52)%Z) in *.
    pose proof (Z.log2_nonneg n). pose proof (Z.log2_nonneg z).
    assert (Lnz : (Z.log2 n + Z.log2 z <= Z.log2 (n * z) <= Z.log2 n + Z.log2 z + 1)%Z).
    { split; [apply Z.log2_mul_below; lia|apply Z.log2_mul_above; lia]. }
    assert (Lz : (Z.log2 z < 53)%Z) by (apply Z.log2_lt_pow2; lia).
    assert (Ln : (Z.log2 n < 53)%Z) by (apply Z.log2_lt_pow2; lia).
    assert (Lp : (Z.log2 (n * z) < 53)%Z) by (apply Z.log2_lt_pow2; nia).
    rewrite fexp_eq.
    replace (Z.min (Z.max (52 + 1 + ex - (52 + 1 + ey) - 53) (-1074)) (ex - ey))
      with (ex - ey - 53)%Z by lia.
    replace (ex - ey - (ex - ey - 53))%Z with 53%Z by lia.
    rewrite Z.shiftl_mul_pow2 by lia.
    set (Q := (z * 2 ^ (53 - ex + ey))%Z).
    assert (PQ : (0 < 2 ^ (53 - ex + ey))%Z) by (apply pow2_pos; lia).
    assert (EQ : (Zpos mx * 2 ^ 53 = Q * Zpos my)%Z).
    { rewrite Mx, My. unfold Q.
      replace (52 - Z.log2 (n * z))%Z with (- ex)%Z by lia.
      replace (52 - Z.log2 n)%Z with (- ey)%Z by lia.
      transitivity (n * z * 2 ^ (53 - ex))%Z.
      - rewrite <- Z.mul_assoc, <- Z.pow_add_r by lia. do 2 f_equal. lia.
      - replace (z * 2 ^ (53 - ex + ey) * (n * 2 ^ (- ey)))%Z
          with (n * z * (2 ^ (53 - ex + ey) * 2 ^ (- ey)))%Z by ring.
        rewrite <- Z.pow_add_r by lia. do 2 f_equal. lia. }
    destruct (Z.div_eucl (Zpos mx * 2 ^ 53) (Zpos my)) as [q r] eqn:DE.
    assert (Eq : q = Q).
    { change q with (fst (q, r)). rewrite <- DE. change (fst (Z.div_eucl ?a ?b)) with (a / b)%Z.
      rewrite EQ. apply Z.div_mul. lia. }
    assert (Er : r = 0%Z).
    { change r with (snd (q, r)). rewrite <- DE. change (snd (Z.div_eucl ?a ?b)) with (a mod b)%Z.
      rewrite EQ. apply Z.mod_mul. lia. }
    subst q r. rewrite new_location_exact.
    assert (Qpos : (0 < Q)%Z) by (unfold Q; nia).
    destruct Q as [|qp|qp] eqn:EQp; try lia.
    apply round_aux_repr.
    + unfold base; lia.
    + rewrite E1_eq. rewrite <- EQp. unfold Q at 1. rewrite Z.log2_mul_pow2 by lia. lia.
    + exact B0.
    + unfold mag. rewrite <- EQp. unfold Q at 1. rewrite M0.
      rewrite <- !Z.mul_assoc, <- !Z.pow_add_r by (unfold base; lia).
      f_equal. f_equal. lia.
Qed.

(** A positive integer below 2^53, scaled down by [2^d]. *)
Lemma scaled_repr (j d : Z) :
  (0 < j < 2 ^ 53)%Z -> (0 <= d <= 1000)%Z ->
  exists m, bounded prec emax m (Z.log2 j - 52 - d) = true
            /\ mag m (Z.log2 j - 52 - d) = (j * 2 ^ (base - d))%Z
            /\ Zpos m = (j * 2 ^ (52 - Z.log2 j))%Z.
Proof.
  intros Hj Hd. destruct (Z2F_pos_exp j Hj) as (m & _ & B & M & L).
  assert (Lj : (Z.log2 j < 53)%Z) by (apply Z.log2_lt_pow2; lia).
  pose proof (Z.log2_nonneg j).
  exists m. split; [|split; [|exact M]].
  - apply bounded_intro; rewrite ?L; lia.
  - unfold mag. rewrite M, <- Z.mul_assoc, <- Z.pow_add_r by (unfold base; lia).
    do 2 f_equal. lia.
Qed.

(** *** Quarters *)

Lemma quarterF_val (q : Z) :
  (1 <= q <= 3)%Z -> SFval (Prim2SF (quarterF q)) = Some (q * 2 ^ (base - 2))%Z.
Proof.
  intros H. assert (C : q = 1%Z \/ q = 2%Z \/ q = 3%Z) by lia.
  destruct C as [->|[->| ->]]; reflexivity.
Qed.

Lemma quarter_times_Z2F (q k : Z) :
  (1 <= q <= 3)%Z -> (0 < k < 2 ^ 50)%Z ->
  exists m, Prim2SF (quarterF q * Z2F k) = S754_finite false m (Z.log2 (q * k) - 54)
            /\ bounded prec emax m (Z.log2 (q * k) - 54) = true
            /\ mag m (Z.log2 (q * k) - 54) = (q * k * 2 ^ (base - 2))%Z
            /\ Zpos m = (q * k * 2 ^ (52 - Z.log2 (q * k)))%Z.
Proof.
  intros Hq Hk.
  destruct (scaled_repr (q * k) 2 ltac:(nia) ltac:(lia)) as (m & B & M & Mm).
  replace (Z.log2 (q * k) - 52 - 2)%Z with (Z.log2 (q * k) - 54)%Z in * by lia.
  exists m. repeat split; try assumption.
  pose proof (pow2_pos (base - 2) ltac:(unfold base; lia)) as P2.
  pose proof (pow2_pos base ltac:(unfold base; lia)) as P.
  apply (mul_val _ _ (q * 2 ^ (base - 2)) (k * 2 ^ base)).
  - now apply quarterF_val.
  - apply Z2F_val. lia.
  - nia.
  - nia.
  - exact B.
  - rewrite M. ring.
Qed.

Lemma Z2F_times_quarter (q k : Z) :
  (1 <= q <= 3)%Z -> (0 < k < 2 ^ 50)%Z ->
  SFval (Prim2SF (Z2F k * quarterF q)) = Some (q * k * 2 ^ (base - 2))%Z.
Proof.
  intros Hq Hk.
  destruct (scaled_repr (q * k) 2 ltac:(nia) ltac:(lia)) as (m & B & M & Mm).
  pose proof (pow2_pos (base - 2) ltac:(unfold base; lia)) as P2.
  pose proof (pow2_pos base ltac:(unfold base; lia)) as P.
  rewrite (mul_val _ _ (k * 2 ^ base) (q * 2 ^ (base - 2)) m (Z.log2 (q * k) - 52 - 2)).
  - cbn [SFval]. now rewrite M.
  - apply Z2F_val. lia.
  - now apply quarterF_val.
  - nia.
  - nia.
  - exact B.
  - rewrite M. ring.
Qed.


Lemma floorZ_quarter (m : positive) (e j : Z) (s : bool) :
  Zpos m = (j * 2 ^ (- e - 2))%Z -> (e <= -2)%Z ->
  JsNum.floorZ s m e = ((if s then - j else j) / 4)%Z.
Proof.
  intros M He. unfold JsNum.floorZ.
  replace e with (- (- e))%Z at 1 by lia. rewrite Z.shiftl_opp_r, Z.shiftr_div_pow2 by lia.
  assert (P : (0 < 2 ^ (- e - 2))%Z) by (apply pow2_pos; lia).
  replace (2 ^ (- e))%Z with (4 * 2 ^ (- e - 2))%Z
    by (change 4%Z with (2 ^ 2)%Z; rewrite <- Z.pow_add_r by lia; f_equal; lia).
  destruct s.
  - change (Zneg m) with (- Zpos m)%Z. rewrite M, <- Z.mul_opp_l.
    apply Z.div_mul_cancel_r; lia.
  - rewrite M. apply Z.div_mul_cancel_r; lia.
Qed.

Section QuarterIndex.
Variables q k : Z.
Hypothesis Hq : (1 <= q <= 3)%Z.
Hypothesis Hk : (0 < k < 2 ^ 32)%Z.

Let index : float := (quarterF q * Z2F k)%float.
Let j : Z := (q * k)%Z.

Lemma quarter_index_spec :
  exists m e, Prim2SF index = S754_finite false m e /\ (e <= -2)%Z
              /\ Zpos m = (j * 2 ^ (- e - 2))%Z
              /\ SFval (Prim2SF index) = Some (j * 2 ^ (base - 2))%Z.
Proof.
  destruct (quarter_times_Z2F q k Hq ltac:(lia)) as (m & Hx & B & M & Mm).
  assert (Lj : (Z.log2 (q * k) < 34)%Z) by (apply Z.log2_lt_pow2; nia).
  exists m, (Z.log2 (q * k) - 54)%Z. unfold index. rewrite Hx. cbn [SFval].
  repeat split; try lia.
  - unfold j. rewrite Mm. do 2 f_equal. lia.
  - unfold j. now rewrite M.
Qed.

Lemma floor_quarter_index : JsNum.floor index = Z2F (j / 4).
Proof.
  destruct quarter_index_spec as (m & e & Hx & He & M & _).
  unfold JsNum.floor. rewrite Hx.
  destruct (0 <=? e)%Z eqn:E; [apply Z.leb_le in E; lia|].
  f_equal. now apply (floorZ_quarter m e j false).
Qed.

Lemma ceil_quarter_index : JsNum.ceil index = Z2F ((j + 3) / 4).
Proof.
  destruct quarter_index_spec as (m & e & Hx & He & M & _).
  unfold JsNum.ceil, JsNum.floor. rewrite opp_spec, Hx. cbn [SFopp negb].
  destruct (0 <=? e)%Z eqn:E; [apply Z.leb_le in E; lia|].
  rewrite (floorZ_quarter m e j true M He).
  assert (Hj : (0 < j)%Z) by (unfold j; nia).
  replace (- j / 4)%Z with (- ((j + 3) / 4))%Z.
  - rewrite Z2F_opp, opp_involutive; [reflexivity|].
    apply Z.div_str_pos. lia.
  - pose proof (Z.div_mod (- j) 4 ltac:(lia)). pose proof (Z.div_mod (j + 3) 4 ltac:(lia)).
    pose proof (Z.mod_pos_bound (- j) 4 ltac:(lia)). pose proof (Z.mod_pos_bound (j + 3) 4 ltac:(lia)).
    lia.
Qed.

Lemma quarter_weights :
  (j mod 4 <> 0)%Z ->
  (Z2F ((j + 3) / 4) - index)%float = quarterF (4 - j mod 4)
  /\ (index - Z2F (j / 4))%float = quarterF (j mod 4).
Proof.
  intros R.
  destruct quarter_index_spec as (m & e & Hx & He & M & Hv).
  assert (Hj : (0 < j < 2 ^ 34)%Z) by (unfold j; nia).
  pose proof (Z.div_mod j 4 ltac:(lia)) as DM.
  pose proof (Z.mod_pos_bound j 4 ltac:(lia)) as MB.
  assert (Hhi : ((j + 3) / 4 = j / 4 + 1)%Z).
  { symmetry. apply (Z.div_unique _ _ _ (j mod 4 - 1)); lia. }
  assert (D : (2 ^ base = 4 * 2 ^ (base - 2))%Z) by reflexivity.
  pose proof (pow2_pos (base - 2) ltac:(unfold base; lia)) as P.
  assert (Q0 : (0 <= j / 4)%Z) by (apply Z.div_pos; lia).
  rewrite Hhi. split.
  - apply (SFval_pos_inj _ _ ((4 - j mod 4) * 2 ^ (base - 2))%Z); [|apply quarterF_val; lia|nia].
    destruct (scaled_repr (4 - j mod 4) 2 ltac:(lia) ltac:(lia)) as (m0 & B0 & M0 & _).
    rewrite (sub_pos_exact _ _ ((j / 4 + 1) * 2 ^ base) (j * 2 ^ (base - 2)) m0
               (Z.log2 (4 - j mod 4) - 52 - 2)); try assumption.
    + cbn [SFval]. now rewrite M0.
    + apply Z2F_val. lia.
    + nia.
    + rewrite M0, D. nia.
  - apply (SFval_pos_inj _ _ ((j mod 4) * 2 ^ (base - 2))%Z); [|apply quarterF_val; lia|nia].
    destruct (scaled_repr (j mod 4) 2 ltac:(lia) ltac:(lia)) as (m0 & B0 & M0 & _).
    rewrite (sub_pos_exact _ _ (j * 2 ^ (base - 2)) ((j / 4) * 2 ^ base) m0
               (Z.log2 (j mod 4) - 52 - 2)); try assumption.
    + cbn [SFval]. now rewrite M0.
    + apply Z2F_val. lia.
    + nia.
    + rewrite M0, D. nia.
Qed.

End QuarterIndex.

(** *** Numbers as array positions *)

Lemma seq_Z2F (a b : Z) :
  (0 <= a < 2 ^ 53)%Z -> (0 <= b < 2 ^ 53)%Z -> JsNum.seq (Z2F a) (Z2F b) = (a =? b)%Z.
Proof.
  intros Ha Hb. unfold JsNum.seq. rewrite FloatAxioms.eqb_spec. unfold SFeqb.
  rewrite (SFcompare_val _ _ _ _ (Prim2SF_valid _) (Prim2SF_valid _) (Z2F_val a Ha) (Z2F_val b Hb)).
  pose proof (pow2_pos base ltac:(unfold base; lia)) as P.
  destruct (Z.compare_spec (a * 2 ^ base) (b * 2 ^ base)) as [E|E|E];
    symmetry; [apply Z.eqb_eq|apply Z.eqb_neq|apply Z.eqb_neq]; nia.
Qed.

Lemma toIndex_Z2F (a : Z) :
  (0 <= a < 2 ^ 52)%Z -> JsNum.toIndex (Z2F a) = Some (Z.to_nat a).
Proof.
  intros H. destruct (Z.eq_dec a 0) as [->|NZ]; [reflexivity|].
  destruct (Z2F_pos_spec a ltac:(lia)) as (m & e & Hx & B & M).
  unfold JsNum.toIndex. rewrite Hx.
  pose proof (bounded_inv _ _ B) as (Eb & Lm & _).
  pose proof (canonical_exp _ _ B) as C.
  pose proof (f_equal Z.log2 M) as LM.
  rewrite log2_mag, Z.log2_mul_pow2 in LM by (unfold base; lia).
  assert (La : (Z.log2 a < 52)%Z) by (apply Z.log2_lt_pow2; lia).
  assert (E0 : (e < 0)%Z) by lia.
  destruct (0 <=? e)%Z eqn:E; [apply Z.leb_le in E; lia|].
  assert (Ma : Zpos m = (a * 2 ^ (- e))%Z).
  { unfold mag in M. replace base with ((- e) + (e + base))%Z in M at 2 by lia.
    rewrite (Z.pow_add_r 2 (- e)), Z.mul_assoc in M by (unfold base; lia).
    apply Z.mul_reg_r in M; [exact M|].
    pose proof (pow2_pos (e + base) ltac:(unfold base; lia)). lia. }
  assert (P : (0 < 2 ^ (- e))%Z) by (apply pow2_pos; lia).
  assert (S1 : Z.shiftl (Zpos m) e = a).
  { replace e with (- (- e))%Z at 1 by lia.
    rewrite Z.shiftl_opp_r, Z.shiftr_div_pow2, Ma by lia. apply Z.div_mul. lia. }
  rewrite S1, Z.shiftl_mul_pow2, <- Ma, Z.eqb_refl by lia. reflexivity.
Qed.

Lemma getF_Z2F (xs : list float) (a : Z) :
  (0 <= a < 2 ^ 52)%Z -> JsNum.getF xs (Z2F a) = JsNum.get xs (Z.to_nat a).
Proof. intros H. unfold JsNum.getF. now rewrite toIndex_Z2F. Qed.

(** *** The percentile at a quarter *)

Lemma percentile_quarter (S : list float) (p : float) (q : Z) :
  (p / 100)%float = quarterF q -> (1 <= q <= 3)%Z ->
  (0 < Z.of_nat (List.length S) < 2 ^ 32)%Z ->
  let sorted := JsArr.sortNum S in
  let j := (q * (Z.of_nat (List.length S) - 1))%Z in
  percentile S p
  = if (j mod 4 =? 0)%Z then JsNum.get sorted (Z.to_nat (j / 4))
    else (JsNum.get sorted (Z.to_nat (j / 4)) * quarterF (4 - j mod 4)
          + JsNum.get sorted (Z.to_nat (j / 4 + 1)) * quarterF (j mod 4))%float.
Proof.
  intros Hp Hq Hn sorted j. unfold percentile.
  destruct (List.length S =? 0)%nat eqn:E0; [apply Nat.eqb_eq in E0; lia|].
  subst sorted. unfold JsArr.sortNum. rewrite !sort_length.
  set (sorted := JsArr.sort JsArr.ltNum S). rewrite Hp.
  set (k := (Z.of_nat (List.length S) - 1)%Z) in *.
  destruct (Z.eq_dec k 0) as [K0|KN].
  - assert (J0 : j = 0%Z) by (unfold j; rewrite K0; lia).
    rewrite K0, J0. cbn [Z.modulo Z.div Z.div_eucl Z.eqb fst snd Z.to_nat].
    assert (C : q = 1%Z \/ q = 2%Z \/ q = 3%Z) by lia.
    destruct C as [->|[->| ->]]; reflexivity.
  - assert (Hk : (0 < k < 2 ^ 32)%Z) by lia.
    assert (Hj : (0 < j < 2 ^ 34)%Z) by (unfold j; nia).
    pose proof (Z.div_mod j 4 ltac:(lia)) as DM.
    pose proof (Z.mod_pos_bound j 4 ltac:(lia)) as MB.
    assert (Q0 : (0 <= j / 4)%Z) by (apply Z.div_pos; lia).
    assert (Q1 : (j / 4 < 2 ^ 53)%Z) by (apply Z.div_lt_upper_bound; lia).
    assert (Q2 : (0 <= (j + 3) / 4 < 2 ^ 53)%Z)
      by (split; [apply Z.div_pos; lia|apply Z.div_lt_upper_bound; lia]).
    rewrite (floor_quarter_index q k Hq Hk), (ceil_quarter_index q k Hq Hk). fold j.
    rewrite seq_Z2F by lia.
    destruct (Z.eqb_spec (j mod 4) 0) as [R|R].
    + assert (Hhi : ((j + 3) / 4 = j / 4)%Z)
        by (symmetry; apply (Z.div_unique _ _ _ 3); lia).
      rewrite Hhi, Z.eqb_refl. apply getF_Z2F. lia.
    + assert (Hhi : ((j + 3) / 4 = j / 4 + 1)%Z)
        by (symmetry; apply (Z.div_unique _ _ _ (j mod 4 - 1)); lia).
      destruct (quarter_weights q k Hq Hk R) as [W1 W2]. fold j in W1, W2.
      rewrite W1, W2, Hhi.
      destruct (Z.eqb_spec (j / 4) (j / 4 + 1)) as [C|_]; [lia|].
      rewrite !getF_Z2F by lia. reflexivity.
Qed.

(** *** The percentile at 50 and the median *)

Lemma percentile_50_cases (S : list float) :
  (0 < Z.of_nat (List.length S) < 2 ^ 32)%Z ->
  (Nat.odd (List.length S) = true -> percentile S 50 = median S)
  /\ (Nat.even (List.length S) = true ->
      median S = ((lowerMiddle S + upperMiddle S) / 2)%float
      /\ percentile S 50 = (lowerMiddle S * 0.5 + upperMiddle S * 0.5)%float).
Proof.
  intros Hn.
  pose proof (percentile_quarter S 50 2 eq_refl ltac:(lia) Hn) as P. cbv zeta in P.
  unfold median, lowerMiddle, upperMiddle.
  destruct (List.length S =? 0)%nat eqn:E0; [apply Nat.eqb_eq in E0; lia|].
  unfold JsArr.sortNum in *. rewrite !sort_length.
  set (n := List.length S) in *.
  pose proof (Nat.div_mod_eq n 2) as DM.
  assert (M2 : (n mod 2 < 2)%nat) by (apply Nat.mod_upper_bound; lia).
  split.
  - intros Odd. apply Nat.odd_spec in Odd as [t Ht].
    assert (Hm : (n mod 2 = 1)%nat) by lia.
    assert (Hd : (n / 2 = t)%nat) by lia.
    assert (J : (2 * (Z.of_nat n - 1) = Z.of_nat t * 4)%Z) by lia.
    rewrite Hm, Hd. cbn [Nat.eqb negb].
    rewrite J, Z.mod_mul, Z.div_mul in P by lia. cbn [Z.eqb] in P.
    now rewrite Nat2Z.id in P.
  - intros Even. apply Nat.even_spec in Even as [t Ht].
    assert (Hm : (n mod 2 = 0)%nat) by lia.
    assert (Hd : (n / 2 = t)%nat) by lia.
    assert (J : (2 * (Z.of_nat n - 1) = 2 + (Z.of_nat t - 1) * 4)%Z) by lia.
    rewrite Hm, Hd. cbn [Nat.eqb negb]. split; [reflexivity|].
    rewrite J, Z.mod_add, Z.div_add in P by lia.
    change (2 mod 4)%Z with 2%Z in P. change (2 / 4)%Z with 0%Z in P.
    cbn [Z.eqb Z.sub Z.add Z.pos_sub Z.opp Pos.pred_double Z.succ_double Z.pred_double Z.double] in P.
    rewrite P. change (quarterF 2) with 0.5%float.
    replace (Z.to_nat (Z.of_nat t - 1)) with (t - 1)%nat by lia.
    replace (Z.to_nat (Z.of_nat t - 1 + 1)) with t by lia.
    reflexivity.
Qed.

(** The half of an integer. *)
Lemma Z2F_div_2 (z : Z) :
  (0 < z < 2 ^ 53)%Z -> SFval (Prim2SF (Z2F z / 2)) = Some (z * 2 ^ (base - 1))%Z.
Proof.
  intros Hz. rewrite div_spec.
  destruct (Z2F_pos_exp z Hz) as (m & Hx & B & M & L).
  destruct (scaled_repr z 1 Hz ltac:(lia)) as (m0 & B0 & M0 & Mm0).
  assert (m0 = m) by (apply Pos2Z.inj; congruence). subst m0.
  rewrite Hx. change (Prim2SF 2) with (S754_finite false 4503599627370496 (-51)).
  unfold SF64div, SFdiv, SFdiv_core_binary. cbn [xorb Zdigits2].
  rewrite digits2_pos_log2, L.
  change (Zpos (digits2_pos 4503599627370496)) with 53%Z.
  set (e := (Z.log2 z - 52)%Z) in *.
  assert (Lz : (Z.log2 z < 53)%Z) by (apply Z.log2_lt_pow2; lia).
  pose proof (Z.log2_nonneg z).
  rewrite fexp_eq.
  replace (Z.min (Z.max (52 + 1 + e - (53 + -51) - 53) (-1074)) (e - -51))
    with (e - 2)%Z by lia.
  replace (e - -51 - (e - 2))%Z with 53%Z by lia.
  rewrite Z.shiftl_mul_pow2 by lia.
  assert (EQ : (Zpos m * 2 ^ 53 = Zpos m~0 * 4503599627370496)%Z).
  { rewrite (Pos2Z.inj_xO m). change (2 ^ 53)%Z with (2 * 4503599627370496)%Z. ring. }
  destruct (Z.div_eucl (Zpos m * 2 ^ 53) 4503599627370496) as [q r] eqn:DE.
  assert (Eq : q = Zpos m~0).
  { change q with (fst (q, r)). rewrite <- DE. change (fst (Z.div_eucl ?a ?b)) with (a / b)%Z.
    rewrite EQ. apply Z.div_mul. lia. }
  assert (Er : r = 0%Z).
  { change r with (snd (q, r)). rewrite <- DE. change (snd (Z.div_eucl ?a ?b)) with (a mod b)%Z.
    rewrite EQ. apply Z.mod_mul. lia. }
  subst q r. rewrite new_location_exact.
  rewrite (round_aux_repr false m~0 (e - 2) m (e - 1)).
  - cbn [SFval]. rewrite <- M0. reflexivity.
  - unfold base; lia.
  - rewrite E1_eq, (Pos2Z.inj_xO m), Z.log2_double by lia. lia.
  - replace (e - 1)%Z with (Z.log2 z - 52 - 1)%Z by lia. exact B0.
  - unfold mag. rewrite (Pos2Z.inj_xO m).
    replace (e - 1 + base)%Z with (1 + (e - 2 + base))%Z by lia.
    rewrite (Z.pow_add_r 2 1) by (unfold base; lia). change (2 ^ 1)%Z with 2%Z. ring.
Qed.

Lemma add_zero_pos (v : float) (a : Z) :
  SFval (Prim2SF v) = Some a -> (0 < a)%Z -> (0 + v)%float = v /\ (v + 0)%float = v.
Proof.
  intros Hv Ha. split; apply Prim2SF_inj; rewrite add_spec;
    change (Prim2SF 0) with (S754_zero false); unfold SF64add, SFadd;
    destruct (Prim2SF v) as [s|s| |s m e]; try discriminate; try reflexivity;
    cbn [SFval] in Hv; inversion Hv; lia.
Qed.

Lemma median_formulas_agree (a b : float) :
  SmallNat a -> SmallNat b -> ((a + b) / 2 = a * 0.5 + b * 0.5)%float.
Proof.
  intros (x & Hx & ->) (y & Hy & ->).
  assert (D : (2 ^ (base - 1) = 2 * 2 ^ (base - 2))%Z) by reflexivity.
  pose proof (pow2_pos (base - 2) ltac:(unfold base; lia)) as P.
  assert (Half : forall z, (0 < z < 2 ^ 50)%Z ->
                           SFval (Prim2SF (Z2F z * 0.5)) = Some (z * 2 ^ (base - 1))%Z).
  { intros z Hz. change 0.5%float with (quarterF 2).
    rewrite (Z2F_times_quarter 2 z) by lia. f_equal. rewrite D. ring. }
  assert (Pos : forall z, (0 < z)%Z -> (0 < z * 2 ^ (base - 1))%Z)
    by (intros z Hz; apply Z.mul_pos_pos; [exact Hz|apply pow2_pos; unfold base; lia]).
  destruct (Z.eq_dec x 0) as [X0|X0]; [|destruct (Z.eq_dec y 0) as [Y0|Y0]].
  - subst x. destruct (Z.eq_dec y 0) as [->|Y0]; [reflexivity|].
    rewrite add_Z2F, Z.add_0_l by lia. change (Z2F 0 * 0.5)%float with 0%float.
    rewrite (proj1 (add_zero_pos _ _ (Half y ltac:(lia)) (Pos y ltac:(lia)))).
    apply (SFval_pos_inj _ _ (y * 2 ^ (base - 1))%Z);
      [apply Z2F_div_2; lia|apply Half; lia|apply Pos; lia].
  - subst y. rewrite add_Z2F, Z.add_0_r by lia. change (Z2F 0 * 0.5)%float with 0%float.
    rewrite (proj2 (add_zero_pos _ _ (Half x ltac:(lia)) (Pos x ltac:(lia)))).
    apply (SFval_pos_inj _ _ (x * 2 ^ (base - 1))%Z);
      [apply Z2F_div_2; lia|apply Half; lia|apply Pos; lia].
  - rewrite add_Z2F by lia.
    apply (SFval_pos_inj _ _ ((x + y) * 2 ^ (base - 1))%Z);
      [apply Z2F_div_2; lia| |apply Pos; lia].
    destruct (scaled_repr (x + y) 1 ltac:(lia) ltac:(lia)) as (m0 & B0 & M0 & _).
    rewrite (add_val _ _ (x * 2 ^ (base - 1)) (y * 2 ^ (base - 1)) m0
               (Z.log2 (x + y) - 52 - 1)).
    + cbn [SFval]. now rewrite M0.
    + apply Half; lia.
    + apply Half; lia.
    + apply Pos; lia.
    + apply Pos; lia.
    + exact B0.
    + rewrite M0. ring.
Qed.

Lemma get_sorted_In (S : list float) (i : nat) :
  (i < List.length S)%nat -> In (JsNum.get (JsArr.sortNum S) i) S.
Proof.
  intros Hi. unfold JsNum.get, JsArr.sortNum.
  apply (sort_In JsArr.ltNum). apply nth_In. now rewrite sort_length.
Qed.

Lemma percentile_50_small_integers (S : list float) :
  (0 < Z.of_nat (List.length S) < 2 ^ 32)%Z ->
  (forall v, In v S -> SmallNat v) -> percentile S 50 = median S.
Proof.
  intros Hn Hs. destruct (percentile_50_cases S Hn) as [Odd Even].
  destruct (Nat.even (List.length S)) eqn:E.
  - destruct (Even eq_refl) as [-> ->]. symmetry.
    pose proof (Nat.div_mod_eq (List.length S) 2) as DM.
    assert (M2 : (List.length S mod 2 < 2)%nat) by (apply Nat.mod_upper_bound; lia).
    apply median_formulas_agree; apply Hs, get_sorted_In; lia.
  - apply Odd. now rewrite <- Nat.negb_even, E.
Qed.

(** ** Detectors on a constant series *)

(** *** Arithmetic around a finite constant *)

Lemma is_finite_spec (c : float) :
  PrimFloat.is_finite c = true ->
  match Prim2SF c with S754_zero _ | S754_finite _ _ _ => True | _ => False end.
Proof.
  unfold PrimFloat.is_finite, PrimFloat.is_nan, PrimFloat.is_infinity.
  rewrite !FloatAxioms.eqb_spec, abs_spec.
  change (Prim2SF infinity) with (S754_infinity false).
  destruct (Prim2SF c) as [s|s| |s m e]; intros H; try exact I;
    [destruct s|]; vm_compute in H; discriminate.
Qed.

Lemma sub_self (c : float) : PrimFloat.is_finite c = true -> (c - c)%float = 0%float.
Proof.
  intros F. apply is_finite_spec in F. apply Prim2SF_inj. rewrite sub_spec.
  change (Prim2SF 0) with (S754_zero false). unfold SF64sub, SFsub.
  destruct (Prim2SF c) as [s|s| |s m e]; try tauto.
  - now destruct s.
  - unfold binary_normalize. now rewrite Z.sub_diag.
Qed.

Lemma sub_zero (c : float) : (c - 0)%float = c.
Proof.
  apply Prim2SF_inj. rewrite sub_spec. change (Prim2SF 0) with (S754_zero false).
  unfold SF64sub, SFsub. destruct (Prim2SF c) as [s|s| |s m e]; try reflexivity. now destruct s.
Qed.




Lemma zero_div_N2F (n : nat) :
  (0 < Z.of_nat n < 2 ^ 53)%Z -> (0 / N2F n)%float = 0%float.
Proof.
  intros H. apply Prim2SF_inj. rewrite div_spec. unfold JsNum.N2F.
  destruct (Z2F_pos_spec (Z.of_nat n) H) as (m & e & -> & _ & _). reflexivity.
Qed.

Lemma sum_zeros (n : nat) : sum (repeat 0%float n) = 0%float.
Proof.
  unfold sum. induction n as [|n IH]; [reflexivity|]. cbn [repeat fold_left]. exact IH.
Qed.

Lemma standardDeviation_constant (c : float) (n : nat) :
  PrimFloat.is_finite c = true -> (Z.of_nat n < 2 ^ 53)%Z ->
  mean (repeat c n) = c -> standardDeviation (repeat c n) = 0%float.
Proof.
  intros F Hn Hm. unfold standardDeviation. rewrite repeat_length.
  destruct (n <? 2)%nat eqn:E; [reflexivity|]. apply Nat.ltb_ge in E.
  rewrite Hm, map_repeat. unfold JsNum.pow2. rewrite (sub_self c F).
  change (0 * 0)%float with 0%float.
  unfold mean. rewrite repeat_length.
  destruct (n =? 0)%nat eqn:E0; [apply Nat.eqb_eq in E0; lia|].
  rewrite sum_zeros, zero_div_N2F by lia. reflexivity.
Qed.

(** *** Windows of a constant series *)

Lemma skipn_repeat_const {A : Type} (c : A) (n i : nat) :
  skipn i (repeat c n) = repeat c (n - i).
Proof.
  revert i. induction n as [|n IH]; intros [|i]; cbn; try reflexivity. apply IH.
Qed.

Lemma firstn_repeat_const {A : Type} (c : A) (n k : nat) :
  (k <= n)%nat -> firstn k (repeat c n) = repeat c k.
Proof.
  revert k. induction n as [|n IH]; intros [|k] H; cbn; try reflexivity; try lia.
  f_equal. apply IH. lia.
Qed.

Lemma slice_repeat {A : Type} (c : A) (n i j : nat) :
  (i <= j <= n)%nat -> JsArr.slice (repeat c n) i j = repeat c (j - i).
Proof.
  intros H. unfold JsArr.slice. rewrite skipn_repeat_const. apply firstn_repeat_const. lia.
Qed.

Lemma flat_map_nil {A B : Type} (f : A -> list B) (l : list A) :
  (forall x, In x l -> f x = []) -> flat_map f l = [].
Proof.
  induction l as [|x l IH]; intros H; [reflexivity|]. cbn [flat_map].
  rewrite (H x (or_introl eq_refl)), IH; [reflexivity|]. intros y Hy. apply H. now right.
Qed.

Lemma indexed_repeat_snd {A : Type} (c : A) (n : nat) (iv : nat * A) :
  In iv (JsArr.indexed (repeat c n)) -> snd iv = c.
Proof.
  unfold JsArr.indexed. destruct iv as [i v]. intros H. apply in_combine_r in H.
  apply repeat_spec in H. exact H.
Qed.

(** *** The three detectors on a constant series *)

Section Constant.
Variables (c : float) (n : nat) (columnName : string).
Hypothesis Fc : PrimFloat.is_finite c = true.
Hypothesis Hn : (Z.of_nat n < 2 ^ 32)%Z.




End Constant.

(** *** A constant series of a small integer *)

Lemma sum_from_Z2F (z : Z) (n : nat) (a : Z) :
  (0 <= z)%Z -> (0 <= a)%Z -> (a + Z.of_nat n * z < 2 ^ 53)%Z ->
  fold_left (fun s v => (s + v)%float) (repeat (Z2F z) n) (Z2F a)
  = Z2F (a + Z.of_nat n * z).
Proof.
  intros Hz. revert a. induction n as [|n IH]; intros a Ha H.
  - cbn. f_equal. lia.
  - cbn [repeat fold_left]. rewrite add_Z2F by nia.
    rewrite IH by nia. f_equal. lia.
Qed.

Lemma sum_repeat_Z2F (z : Z) (n : nat) :
  (0 <= z)%Z -> (Z.of_nat n * z < 2 ^ 53)%Z -> sum (repeat (Z2F z) n) = Z2F (Z.of_nat n * z).
Proof.
  intros Hz H. unfold sum. change 0%float with (Z2F 0).
  rewrite sum_from_Z2F by lia. f_equal.
Qed.

Lemma mean_repeat_Z2F (z : Z) (n : nat) :
  (0 <= z)%Z -> (0 < Z.of_nat n < 2 ^ 53)%Z -> (Z.of_nat n * z < 2 ^ 53)%Z ->
  mean (repeat (Z2F z) n) = Z2F z.
Proof.
  intros Hz Hn H. unfold mean. rewrite repeat_length.
  destruct (n =? 0)%nat eqn:E; [apply Nat.eqb_eq in E; lia|].
  rewrite sum_repeat_Z2F by assumption. unfold JsNum.N2F. apply div_Z2F; lia.
Qed.





(* ================================================================== *)
(** * Part VI.  The claims of the specification                      *)
(* ================================================================== *)

(** ** Determinism *)



(** ** Routing of queries *)

(** C2: on a non-empty dataset, "show me anomalies" is answered by the
    anomalies handler.  "forecast revenue" is answered by the forecast
    handler, but no target column is bound (the pattern binds a column only
    after the word "column", before it, or after "what", "explain" or
    "analyze"): the response carries the forecasts of every column with
    enough values.  "forecast column revenue" binds "revenue" and the
    response carries the forecast of that single column. *)
Theorem analyze_routes_anomalies_and_forecast (host : Host) (D : Dataset) :
  D <> [] ->
  (exists r, analyze host "show me anomalies" (Some D) = Normal r
             /\ InsightResponse.intent r = InsightResponse.anomalies
             /\ InsightResponse.i_anomalies (InsightResponse.insights r)
                = Some (detectAllAnomalies D))
  /\ (exists r fs, analyze host "forecast revenue" (Some D) = Normal r
                   /\ InsightResponse.intent r = InsightResponse.forecast
                   /\ forecastAll D 7 = Normal fs
                   /\ forecastsOf r = Some fs)
  /\ (exists r f, analyze host "forecast column revenue" (Some D) = Normal r
                  /\ InsightResponse.intent r = InsightResponse.forecast
                  /\ forecast D "revenue" 7 Forecast.auto = Normal f
                  /\ forecastsOf r = Some [f]).
Proof.
  intros HD. destruct D as [|row rows]; [congruence|]. repeat split.
  - unfold analyze. rewrite detectIntent_show_me_anomalies.
    eexists. repeat split.
  - unfold analyze. rewrite detectIntent_forecast_revenue.
    destruct (forecastAll_returns (row :: rows) 7) as (fs & Hfs); [lia|].
    unfold handleForecastQuery. cbn [given]. rewrite Hfs. cbn [bindC].
    eexists; exists fs. repeat split.
  - unfold analyze. rewrite detectIntent_forecast_column_revenue.
    destruct (forecast_returns (row :: rows) "revenue" 7 Forecast.auto) as (f & Hf); [lia|].
    unfold handleForecastQuery. cbn [given]. rewrite Hf. cbn [bindC].
    eexists; exists f. repeat split.
Qed.

Lemma analyze_routes_anomalies_and_forecast_witness :
  salesRows <> []
  /\ exists r f, analyze plainHost "forecast column revenue" (Some salesRows) = Normal r
                 /\ InsightResponse.intent r = InsightResponse.forecast
                 /\ forecast salesRows "revenue" 7 Forecast.auto = Normal f
                 /\ forecastsOf r = Some [f].
Proof.
  assert (H : salesRows <> []) by discriminate.
  split; [exact H|].
  exact (proj2 (proj2 (analyze_routes_anomalies_and_forecast plainHost salesRows H))).
Defined.

Lemma forecast_revenue_covers_every_column :
  detectIntent "forecast revenue" = (InsightResponse.forecast, None)
  /\ forecastColumns (analyze plainHost "forecast revenue" (Some salesRows))
     = Some ["revenue"; "cost"].
Proof. split; vm_compute; reflexivity. Qed.

(** ** The numeric series *)

(** C3: a cell that is null or the empty string is not dropped: it enters
    the numeric series as 0 (the coercion of both is 0, and 0 passes the
    filter).  A cell whose coercion is NaN is dropped. *)
Theorem blank_cells_enter_series_as_zero (rows : Dataset) (row : DataRow) (col : string) :
  (JsVal.get row col = JNull \/ JsVal.get row col = JStr "" ->
   extractNumericValues (row :: rows) col = 0%float :: extractNumericValues rows col)
  /\ (JsNum.isNaN (JsVal.toNumber (JsVal.get row col)) = true ->
      extractNumericValues (row :: rows) col = extractNumericValues rows col).
Proof.
  unfold extractNumericValues. cbn [map filter]. split.
  - intros [H|H]; rewrite H.
    + change (JsVal.toNumber JNull) with 0%float. reflexivity.
    + change (JsVal.toNumber (JStr "")) with 0%float. reflexivity.
  - intros H. rewrite H. reflexivity.
Qed.

Lemma blank_cells_enter_series_as_zero_witness :
  JsVal.get [("x", JNull)] "x" = JNull
  /\ extractNumericValues ([("x", JNull)] :: shortRows) "x"
     = 0%float :: extractNumericValues shortRows "x".
Proof.
  assert (H : JsVal.get [("x", JNull)] "x" = JNull) by reflexivity.
  split; [exact H|].
  exact (proj1 (blank_cells_enter_series_as_zero shortRows [("x", JNull)] "x") (or_introl H)).
Defined.

Lemma blank_cells_raise_an_anomaly :
  extractNumericValues blankRows "x" = repeat 0%float 9 ++ [100%float]
  /\ detectColumnAnomalies blankRows "x" = [blankAnomaly].
Proof. split; vm_compute; reflexivity. Qed.

(** ** Failures *)




(** ** Forecasts *)

(** C5: for a column of at least five numeric values, [forecast] with seven
    periods returns seven prediction points, and each bound of a point that
    is a number is on its side of the value: [lower <= value] unless
    [lower] is NaN, and [value <= upper] unless [upper] is NaN.  With fewer
    than five values it returns no prediction and the insufficient-data
    interpretation. *)
Theorem forecast_seven_points (rows : Dataset) (col : string) (m : Forecast.selector) :
  let values := extractNumericValues rows col in
  ((5 <= List.length values)%nat ->
   exists f, forecast rows col 7 m = Normal f
             /\ List.length (Forecast.predictions f) = 7%nat
             /\ Forall Bracketed (Forecast.predictions f))
  /\ ((List.length values < 5)%nat ->
      forecast rows col 7 m = Normal (insufficientData col (List.length values))).
Proof.
  intros values. split.
  - intros H5. destruct (forecast_points rows col 7 m ltac:(lia) H5) as (f & Hf & Hl & Hb).
    exists f. repeat split; assumption.
  - intros H. unfold forecast. fold values.
    apply Nat.ltb_lt in H. rewrite H. reflexivity.
Qed.

Lemma forecast_seven_points_witness :
  (5 <= List.length (extractNumericValues salesRows "revenue"))%nat
  /\ (exists f, forecast salesRows "revenue" 7 Forecast.auto = Normal f
                /\ List.length (Forecast.predictions f) = 7%nat
                /\ Forall Bracketed (Forecast.predictions f))
  /\ (List.length (extractNumericValues shortRows "revenue") < 5)%nat
  /\ forecast shortRows "revenue" 7 Forecast.auto
     = Normal (insufficientData "revenue" (List.length (extractNumericValues shortRows "revenue"))).
Proof.
  assert (H5 : (5 <= List.length (extractNumericValues salesRows "revenue"))%nat)
    by (vm_compute; lia).
  assert (H3 : (List.length (extractNumericValues shortRows "revenue") < 5)%nat)
    by (vm_compute; lia).
  split; [exact H5|]. split.
  - exact (proj1 (forecast_seven_points salesRows "revenue" Forecast.auto) H5).
  - split; [exact H3|].
    exact (proj2 (forecast_seven_points shortRows "revenue" Forecast.auto) H3).
Defined.

Lemma huge_values_forecast_unordered :
  extractNumericValues hugeRows "revenue" = repeat big 5
  /\ orderedPoints (forecast hugeRows "revenue" 7 Forecast.auto)
     = [false; false; false; false; false; false; false].
Proof. split; vm_compute; reflexivity. Qed.

(** ** Anomalies *)




(** C10: the row index of an anomaly is a position of the numeric series:
    it is below the length of the series, and the series holds the value of
    the anomaly there.  The row of the dataset it came from is the one at
    that rank among the rows whose cell is numeric; the two positions
    differ exactly when an earlier row has a cell that is not numeric. *)
Theorem anomaly_rowIndex_is_series_position (rows : Dataset) (col : string) (a : Anomaly.t) :
  In a (detectColumnAnomalies rows col) ->
  let values := extractNumericValues rows col in
  (Anomaly.rowIndex a < List.length values)%nat
  /\ nth_error values (Anomaly.rowIndex a) = Some (Anomaly.value a)
  /\ exists p,
       nth_error (numericRows rows col) (Anomaly.rowIndex a) = Some p
       /\ JsVal.toNumber (JsVal.get (nth p rows []) col) = Anomaly.value a
       /\ (Anomaly.rowIndex a <= p)%nat
       /\ (Anomaly.rowIndex a <> p <-> exists j, (j < p)%nat /\ numericCell rows col j = false).
Proof.
  intros H values.
  assert (P : seriesPoint values a).
  { unfold detectColumnAnomalies in H. fold values in H.
    destruct (List.length values <? 10)%nat; [destruct H|].
    apply sort_In, merge_values in H. destruct H as [H|[]].
    apply in_app_or in H. destruct H as [H|H]; [now apply detectZScoreAnomalies_points in H|].
    apply in_app_or in H. destruct H as [H|H];
      [now apply detectIQRAnomalies_points in H|now apply detectRollingAnomalies_points in H]. }
  unfold seriesPoint in P.
  assert (L : (Anomaly.rowIndex a < List.length values)%nat)
    by (apply nth_error_Some; congruence).
  split; [exact L|]. split; [exact P|].
  unfold values in P, L. rewrite extractNumericValues_rows in P, L.
  rewrite length_map in L.
  destruct (nth_error (numericRows rows col) (Anomaly.rowIndex a)) as [p|] eqn:Hp;
    [|apply nth_error_None in Hp; lia].
  exists p. split; [reflexivity|].
  rewrite nth_error_map, Hp in P. cbn in P. split; [congruence|].
  unfold numericRows in Hp. apply filter_seq_position in Hp.
  destruct Hp as (H1 & _ & _ & H4). cbn in H1, H4. split; [exact H1|].
  rewrite H4. split; intros (j & Hj & Fj); exists j; (split; [lia|exact Fj]).
Qed.

Lemma anomaly_rowIndex_is_series_position_witness :
  In gapAnomaly (detectColumnAnomalies gapRows "x")
  /\ (Anomaly.rowIndex gapAnomaly < List.length (extractNumericValues gapRows "x"))%nat
  /\ nth_error (extractNumericValues gapRows "x") (Anomaly.rowIndex gapAnomaly)
     = Some (Anomaly.value gapAnomaly)
  /\ exists p,
       nth_error (numericRows gapRows "x") (Anomaly.rowIndex gapAnomaly) = Some p
       /\ JsVal.toNumber (JsVal.get (nth p gapRows []) "x") = Anomaly.value gapAnomaly
       /\ (Anomaly.rowIndex gapAnomaly <= p)%nat
       /\ (Anomaly.rowIndex gapAnomaly <> p
           <-> exists j, (j < p)%nat /\ numericCell gapRows "x" j = false).
Proof.
  assert (H : In gapAnomaly (detectColumnAnomalies gapRows "x"))
    by (vm_compute; left; reflexivity).
  split; [exact H|].
  exact (anomaly_rowIndex_is_series_position gapRows "x" gapAnomaly H).
Defined.

(** ** Correlations *)



(** ** Percentiles *)

(** C8: for a non-empty list of array length, the percentile at 50 is the
    median when the length is odd.  When the length is even, the median is
    the half of the sum of the two middle order statistics, [(a + b) / 2],
    and the percentile is the sum of their halves, [a * 0.5 + b * 0.5].  The
    two are equal on every list of non-negative integers below 2^50. *)
Theorem percentile_50_vs_median (S : list float) :
  (0 < Z.of_nat (List.length S) < 2 ^ 32)%Z ->
  (Nat.odd (List.length S) = true -> percentile S 50 = median S)
  /\ (Nat.even (List.length S) = true ->
      median S = ((lowerMiddle S + upperMiddle S) / 2)%float
      /\ percentile S 50 = (lowerMiddle S * 0.5 + upperMiddle S * 0.5)%float)
  /\ ((forall v, In v S -> SmallNat v) -> percentile S 50 = median S).
Proof.
  intros Hn. destruct (percentile_50_cases S Hn) as [Odd Even].
  split; [exact Odd|]. split; [exact Even|].
  now apply percentile_50_small_integers.
Qed.

Lemma percentile_50_vs_median_witness :
  percentile [3; 1; 2]%float 50 = median [3; 1; 2]%float
  /\ percentile [4.5; 1; 3; 2]%float 50
     = (lowerMiddle [4.5; 1; 3; 2] * 0.5 + upperMiddle [4.5; 1; 3; 2] * 0.5)%float
  /\ percentile [4; 1; 3; 2]%float 50 = median [4; 1; 3; 2]%float.
Proof.
  split; [|split].
  - apply (proj1 (percentile_50_vs_median [3; 1; 2]%float ltac:(split; reflexivity))).
    reflexivity.
  - apply (proj1 (proj2 (percentile_50_vs_median [4.5; 1; 3; 2]%float
                           ltac:(split; reflexivity)))).
    reflexivity.
  - apply (proj2 (proj2 (percentile_50_vs_median [4; 1; 3; 2]%float
                           ltac:(split; reflexivity)))).
    intros v [<-|[<-|[<-|[<-|[]]]]];
      [exists 4%Z|exists 1%Z|exists 3%Z|exists 2%Z]; (split; [lia|reflexivity]).
Defined.

Lemma percentile_50_differs_from_median :
  percentile [big; big] 50 = big
  /\ median [big; big] = JsNum.infinity
  /\ percentile [tiny; tiny] 50 = 0%float
  /\ median [tiny; tiny] = tiny.
Proof. repeat split; vm_compute; reflexivity. Qed.

(** ** The empty dataset *)

(** C9: for every query, [analyze] on the empty dataset returns at once a
    response whose text says that no data was provided, whose insights are
    empty and whose list of recommended charts is empty. *)
Theorem analyze_empty_dataset (host : Host) (query : string) :
  exists r, analyze host query (Some []) = Normal r
            /\ InsightResponse.textSummary r = noDataText
            /\ InsightResponse.insights r = InsightResponse.noInsights
            /\ InsightResponse.recommendedCharts r = [].
Proof.
  eexists. repeat split.
Qed.

(* ================================================================== *)
(** * Part VII.  Further properties of the code                    *)
(* ================================================================== *)

(** ** Lists *)

Lemma fold_left_invariant {A B : Type} (f : A -> B -> A) (P : A -> Prop) (Q : B -> Prop)
      (l : list B) (a : A) :
  P a -> Forall Q l -> (forall a b, P a -> Q b -> P (f a b)) -> P (fold_left f l a).
Proof.
  intros Ha Hl Hf. revert a Ha. induction Hl as [|b l Hb Hl IH]; intros a Ha; [exact Ha|].
  cbn. apply IH. now apply Hf.
Qed.

Lemma fold_left_prefix {A B : Type} (f : A -> B -> A) (P : list B -> A -> Prop)
      (l : list B) (a0 : A) :
  P [] a0 ->
  (forall p x a, P p a -> P (p ++ [x]) (f a x)) ->
  P l (fold_left f l a0).
Proof.
  intros H0 Hs.
  assert (G : forall p a, P p a -> P (p ++ l) (fold_left f l a)).
  { induction l as [|x l IH]; intros p a Hp; cbn [fold_left].
    - now rewrite app_nil_r.
    - replace (p ++ x :: l) with ((p ++ [x]) ++ l) by (now rewrite <- app_assoc).
      apply IH. now apply Hs. }
  exact (G [] a0 H0).
Qed.



Lemma firstn_In {A : Type} (n : nat) (l : list A) (x : A) : In x (firstn n l) -> In x l.
Proof. intros H. rewrite <- (firstn_skipn n l). apply in_or_app. now left. Qed.

Lemma length_zero_nil {A : Type} (l : list A) : (0 <? List.length l)%nat = false -> l = [].
Proof. destruct l; [reflexivity|discriminate]. Qed.

Lemma nth_error_split_at {A : Type} (l : list A) (i : nat) (x : A) :
  nth_error l i = Some x -> l = firstn i l ++ x :: skipn (S i) l /\ List.length (firstn i l) = i.
Proof.
  revert i. induction l as [|y l IH]; intros [|i] H; cbn in H; try discriminate.
  - injection H as ->. split; reflexivity.
  - destruct (IH i H) as [E L]. split; [|cbn [firstn List.length]; now rewrite L].
    change (y :: l = y :: (firstn i l ++ x :: skipn (S i) l)). now rewrite <- E.
Qed.

(** ** CSV files *)

(** *** Strings *)

Lemma list_ascii_app (a b : string) :
  list_ascii_of_string (a ++ b) = list_ascii_of_string a ++ list_ascii_of_string b.
Proof. induction a as [|c a IH]; cbn; [reflexivity|now rewrite IH]. Qed.

Lemma string_of_list_app (a b : list ascii) :
  string_of_list_ascii (a ++ b) = (string_of_list_ascii a ++ string_of_list_ascii b)%string.
Proof. induction a as [|c a IH]; cbn; [reflexivity|now rewrite IH]. Qed.



Lemma stripSpace_eq (cs : list ascii) :
  JsConv.stripSpace cs = rev (dropSpaces (rev (dropSpaces cs))).
Proof. reflexivity. Qed.

Lemma dropSpaces_split (cs : list ascii) :
  exists pre, cs = pre ++ dropSpaces cs /\ forallb JsStr.isSpace pre = true.
Proof.
  induction cs as [|c cs (pre & E & F)]; [exists []; split; reflexivity|].
  cbn [dropSpaces]. destruct (JsStr.isSpace c) eqn:S.
  - exists (c :: pre). split; [cbn; now rewrite <- E|cbn; now rewrite S, F].
  - exists []. split; reflexivity.
Qed.

Lemma dropSpaces_head (cs : list ascii) :
  match dropSpaces cs with c :: _ => JsStr.isSpace c = false | [] => True end.
Proof.
  induction cs as [|c cs IH]; [exact I|]. cbn [dropSpaces].
  destruct (JsStr.isSpace c) eqn:S; [exact IH|exact S].
Qed.

Lemma dropSpaces_id (cs : list ascii) :
  match cs with c :: _ => JsStr.isSpace c = false | [] => True end -> dropSpaces cs = cs.
Proof. destruct cs as [|c cs]; [reflexivity|]. cbn. now intros ->. Qed.

Lemma dropSpaces_idem (cs : list ascii) : dropSpaces (dropSpaces cs) = dropSpaces cs.
Proof. apply dropSpaces_id, dropSpaces_head. Qed.

Lemma dropSpaces_In (c : ascii) (cs : list ascii) : In c (dropSpaces cs) -> In c cs.
Proof.
  destruct (dropSpaces_split cs) as (pre & E & _). intros H. rewrite E. apply in_or_app. now right.
Qed.


Lemma stripSpace_In (c : ascii) (cs : list ascii) : In c (JsConv.stripSpace cs) -> In c cs.
Proof.
  rewrite stripSpace_eq. intros H. apply in_rev in H. apply dropSpaces_In in H.
  apply in_rev in H. now apply dropSpaces_In.
Qed.


(** The result of [trim] starts and ends with a character that is no space. *)
Lemma stripSpace_head (cs : list ascii) :
  dropSpaces (JsConv.stripSpace cs) = JsConv.stripSpace cs.
Proof.
  rewrite stripSpace_eq.
  set (d := dropSpaces cs). set (e := dropSpaces (rev d)).
  apply dropSpaces_id.
  destruct (dropSpaces_split (rev d)) as (pre & E & _). fold e in E.
  assert (Ed : d = rev e ++ rev pre).
  { rewrite <- (rev_involutive d), E, rev_app_distr. reflexivity. }
  destruct (rev e) as [|c re] eqn:R; [exact I|].
  pose proof (dropSpaces_head cs) as Hd. fold d in Hd. rewrite Ed in Hd. exact Hd.
Qed.

Lemma stripSpace_last (cs : list ascii) : endsClean (JsConv.stripSpace cs).
Proof.
  unfold endsClean. rewrite stripSpace_eq, rev_involutive. apply dropSpaces_head.
Qed.

Lemma stripSpace_idem (cs : list ascii) :
  JsConv.stripSpace (JsConv.stripSpace cs) = JsConv.stripSpace cs.
Proof.
  rewrite (stripSpace_eq (JsConv.stripSpace cs)), stripSpace_head.
  rewrite (dropSpaces_id (rev (JsConv.stripSpace cs)) (stripSpace_last cs)).
  apply rev_involutive.
Qed.

Lemma trim_idem (s : string) : trim (trim s) = trim s.
Proof.
  unfold trim. rewrite list_ascii_of_string_of_list_ascii, stripSpace_idem. reflexivity.
Qed.

Lemma hasChar_false (c : ascii) (s : string) :
  hasChar c s = false <-> ~ In c (list_ascii_of_string s).
Proof.
  unfold hasChar. split.
  - intros H Hin. assert (existsb (Ascii.eqb c) (list_ascii_of_string s) = true).
    { apply existsb_exists. exists c. split; [exact Hin|apply Ascii.eqb_refl]. }
    congruence.
  - intros H. destruct (existsb _ _) eqn:E; [|reflexivity].
    apply existsb_exists in E. destruct E as (x & Hx & Ex). apply Ascii.eqb_eq in Ex. subst. contradiction.
Qed.

Lemma hasChar_trim (c : ascii) (s : string) : hasChar c s = false -> hasChar c (trim s) = false.
Proof.
  rewrite !hasChar_false. intros H Hin. apply H. unfold trim in Hin.
  rewrite list_ascii_of_string_of_list_ascii in Hin. now apply stripSpace_In in Hin.
Qed.

Lemma hasChar_app (c : ascii) (a b : string) :
  hasChar c (a ++ b) = hasChar c a || hasChar c b.
Proof. unfold hasChar. now rewrite list_ascii_app, existsb_app. Qed.

(** *** Lines *)

Lemma splitLines_cons (cs : list ascii) : exists l ls, splitLines cs = l :: ls.
Proof.
  induction cs as [|c cs (l & ls & E)]; [now exists "", []|].
  cbn [splitLines]. destruct (isLF c); [now exists "", (splitLines cs)|].
  destruct (isCR c && _); [now exists l, ls|]. rewrite E. now exists (String c l), ls.
Qed.

Lemma splitLines_no_LF (cs : list ascii) (line : string) :
  In line (splitLines cs) -> hasChar "010" line = false.
Proof.
  revert line. induction cs as [|c cs IH]; intros line.
  - intros [<-|[]]. reflexivity.
  - cbn [splitLines]. destruct (isLF c) eqn:L.
    + intros [<-|H]; [reflexivity|now apply IH].
    + destruct (isCR c && _); [apply IH|].
      destruct (splitLines cs) as [|l ls]; cbn [In].
      * intros [<-|[]]. unfold hasChar. cbn [list_ascii_of_string existsb].
        unfold isLF in L. rewrite Ascii.eqb_sym, L. reflexivity.
      * intros [<-|H]; [|apply IH; now right].
        unfold hasChar. cbn [list_ascii_of_string existsb].
        unfold isLF in L. rewrite Ascii.eqb_sym, L. apply (IH l). now left.
Qed.

(** *** The fields of a line *)

Lemma cleanText_trim (s : string) : cleanText s -> cleanText (trim s).
Proof. intros [A B]. split; now apply hasChar_trim. Qed.

Lemma parseLine_clean (line : string) (field : string) :
  hasChar "010" line = false -> In field (parseLine line) ->
  trim field = field /\ cleanText field.
Proof.
  intros HL. unfold parseLine.
  set (st0 := {| LineState.result := []; LineState.current := ""; LineState.inQuotes := false |}).
  assert (Inv : Forall (fun f => trim f = f /\ cleanText f)
                       (LineState.result (fold_left parseChar (list_ascii_of_string line) st0))
                /\ cleanText (LineState.current (fold_left parseChar (list_ascii_of_string line) st0))).
  { apply (fold_left_invariant parseChar
             (fun st => Forall (fun f => trim f = f /\ cleanText f) (LineState.result st)
                        /\ cleanText (LineState.current st))
             (fun c => Ascii.eqb "010" c = false)).
    - split; [constructor|split; reflexivity].
    - apply Forall_forall. intros c Hc. destruct (Ascii.eqb "010" c) eqn:E; [|reflexivity].
      apply Ascii.eqb_eq in E. subst c. apply hasChar_false in HL. contradiction.
    - intros st c [HR HC] Hc. unfold parseChar.
      destruct (Ascii.eqb c "034") eqn:Q; [split; assumption|].
      destruct (Ascii.eqb c "," && negb (LineState.inQuotes st)); cbn.
      + split; [|split; reflexivity].
        apply Forall_app. split; [exact HR|]. constructor; [|constructor].
        split; [apply trim_idem|now apply cleanText_trim].
      + split; [exact HR|]. destruct HC as [C1 C2].
        split; rewrite hasChar_app; [rewrite C1|rewrite C2]; unfold hasChar;
          cbn [list_ascii_of_string existsb orb]; rewrite ?orb_false_r;
          [now rewrite Ascii.eqb_sym|exact Hc]. }
  destruct Inv as [HR HC]. intros H. apply in_app_or in H. destruct H as [H|[<-|[]]].
  - rewrite Forall_forall in HR. now apply HR.
  - split; [apply trim_idem|now apply cleanText_trim].
Qed.

Lemma parseLine_length (line : string) : 1 <= List.length (parseLine line).
Proof. unfold parseLine. rewrite length_app. cbn. lia. Qed.

(** X1: every row that [parseCSV] returns has at least one field, and every field
    is trimmed and holds neither a double quote nor a line feed: quotes are
    only toggles for the commas, so a doubled quote inside a quoted field is
    dropped, not kept as a quote, and a quoted field cannot span two lines. *)
Theorem parseCSV_fields_are_clean (text : string) (row : list string) :
  In row (parseCSV text) ->
  1 <= List.length row
  /\ forall field, In field row ->
       trim field = field /\ hasChar "034" field = false /\ hasChar "010" field = false.
Proof.
  unfold parseCSV. intros H. apply in_map_iff in H. destruct H as (line & <- & H).
  apply filter_In in H. destruct H as [H _]. apply splitLines_no_LF in H.
  split; [apply parseLine_length|]. intros field Hf.
  destruct (parseLine_clean line field H Hf) as (T & Q & L). auto.
Qed.

Lemma parseCSV_fields_are_clean_witness :
  In ["say hi"; "7"] (parseCSV sampleCsv)
  /\ 1 <= List.length ["say hi"; "7"]
  /\ forall field, In field ["say hi"; "7"] ->
       trim field = field /\ hasChar "034" field = false /\ hasChar "010" field = false.
Proof.
  assert (H : In ["say hi"; "7"] (parseCSV sampleCsv))
    by (vm_compute; right; right; left; reflexivity).
  split; [exact H|]. exact (parseCSV_fields_are_clean sampleCsv ["say hi"; "7"] H).
Defined.

(** *** Reading back what the writer wrote *)



Lemma hasChar_forallb (c : ascii) (s : string) (p : ascii -> bool) :
  hasChar c s = false -> (forall x, x <> c -> p x = true) ->
  forallb p (list_ascii_of_string s) = true.
Proof.
  intros H Hp. apply forallb_forall. intros x Hx. apply Hp. intros ->.
  apply hasChar_false in H. contradiction.
Qed.






















(** ** Rows as objects *)

(** *** The object of a row *)

Lemma rowFrom_cons (row : list string) (k : nat) (h : string) (hs : list string)
      (obj : JsObj.t string) :
  rowFrom row k (h :: hs) obj
  = rowFrom row (S k) hs (assign obj h (orEmpty (nth_error row k))).
Proof. reflexivity. Qed.

Lemma rowFrom_app (row : list string) (k : nat) (a b : list string) (obj : JsObj.t string) :
  rowFrom row k (a ++ b) obj = rowFrom row (k + List.length a) b (rowFrom row k a obj).
Proof.
  revert k obj. induction a as [|h a IH]; intros k obj.
  - cbn [app List.length]. now rewrite Nat.add_0_r.
  - cbn [app List.length]. rewrite !rowFrom_cons, IH. f_equal. lia.
Qed.

Lemma orEmpty_nth (row : list string) (i : nat) : orEmpty (nth_error row i) = nth i row "".
Proof.
  revert i. induction row as [|c row IH]; intros [|i]; cbn; try reflexivity.
  - destruct (String.eqb c "") eqn:E; [apply String.eqb_eq in E; now subst|reflexivity].
  - apply IH.
Qed.

Lemma get_assign_same (obj : JsObj.t string) (h v : string) :
  h <> "__proto__" -> JsObj.get (assign obj h v) h = Some v.
Proof.
  intros N. unfold assign. apply String.eqb_neq in N. rewrite N. apply obj_get_set_same.
Qed.

Lemma get_assign_other (obj : JsObj.t string) (h v k : string) :
  k <> h -> JsObj.get (assign obj h v) k = JsObj.get obj k.
Proof.
  intros N. unfold assign. destruct (String.eqb h "__proto__"); [reflexivity|].
  now apply obj_get_set_other.
Qed.

Lemma rowFrom_other (row : list string) (k : nat) (hs : list string) (obj : JsObj.t string)
      (h : string) :
  existsb (String.eqb h) hs = false -> JsObj.get (rowFrom row k hs obj) h = JsObj.get obj h.
Proof.
  revert k obj. induction hs as [|x hs IH]; intros k obj H; [reflexivity|].
  cbn [existsb] in H. apply orb_false_iff in H. destruct H as [Hx H].
  rewrite rowFrom_cons, IH by exact H. apply get_assign_other.
  apply String.eqb_neq. exact Hx.
Qed.

(** X3: in the object that [rowToObject] builds, the property named by a
    header holds the cell at the position of the last occurrence of that
    header, and the empty string when the row has no cell there or an empty
    one.  (The header [__proto__] is set apart: on an object literal it names
    the prototype accessor.) *)
Theorem rowToObject_lookup (headers row : list string) (i : nat) (h : string) :
  nth_error headers i = Some h ->
  h <> "__proto__" ->
  existsb (String.eqb h) (skipn (S i) headers) = false ->
  JsObj.get (rowToObject headers row) h = Some (nth i row "").
Proof.
  intros Hi Hp Hlast.
  destruct (nth_error_split_at headers i h Hi) as [E L].
  change (rowToObject headers row) with (rowFrom row 0 headers []).
  rewrite E, rowFrom_app, rowFrom_cons, rowFrom_other by exact Hlast.
  rewrite L, Nat.add_0_l, get_assign_same by exact Hp.
  now rewrite orEmpty_nth.
Qed.

Lemma rowToObject_lookup_witness :
  JsObj.get (rowToObject ["id"; "name"; "id"] ["7"; "Ann"]) "id" = Some ""
  /\ JsObj.get (rowToObject ["id"; "name"; "id"] ["7"; "Ann"]) "name" = Some "Ann".
Proof.
  split.
  - apply (rowToObject_lookup ["id"; "name"; "id"] ["7"; "Ann"] 2 "id");
      [reflexivity|discriminate|reflexivity].
  - apply (rowToObject_lookup ["id"; "name"; "id"] ["7"; "Ann"] 1 "name");
      [reflexivity|discriminate|reflexivity].
Defined.

Lemma obj_add_ordinary {A : Type} (o : JsObj.t A) (k : string) (v : A) :
  JsObj.arrayIndex k = None -> JsObj.add o k v = o ++ [(k, v)].
Proof.
  intros H. induction o as [|[k' v'] o IH]; cbn [JsObj.add app]; [reflexivity|].
  rewrite H, IH. reflexivity.
Qed.

Lemma obj_has_keys {A : Type} (o : JsObj.t A) (k : string) :
  JsObj.has o k = false <-> ~ In k (JsObj.keys o).
Proof.
  unfold JsObj.has, JsObj.keys. induction o as [|[k' v'] o IH]; cbn [JsObj.get map fst In].
  - split; [intros _ []|reflexivity].
  - destruct (String.eqb k' k) eqn:E.
    + apply String.eqb_eq in E. subst. split; [discriminate|intros H; exfalso; apply H; now left].
    + apply String.eqb_neq in E. rewrite IH. split; [intros H [K|K]; congruence|tauto].
Qed.

Lemma ordinaryKey_spec (h : string) :
  ordinaryKey h = true -> h <> "__proto__" /\ JsObj.arrayIndex h = None.
Proof.
  unfold ordinaryKey. intros H. apply andb_true_iff in H. destruct H as [P I].
  apply negb_true_iff, String.eqb_neq in P. split; [exact P|].
  now destruct (JsObj.arrayIndex h).
Qed.

Lemma rowFrom_ordinary (row : list string) (k : nat) (hs : list string) (obj : JsObj.t string) :
  NoDup hs -> forallb ordinaryKey hs = true ->
  (forall h, In h hs -> ~ In h (JsObj.keys obj)) ->
  rowFrom row k hs obj
  = obj ++ combine hs (map (fun i => nth i row "") (seq k (List.length hs))).
Proof.
  revert k obj. induction hs as [|h hs IH]; intros k obj ND O D.
  - cbn. now rewrite app_nil_r.
  - rewrite rowFrom_cons. cbn [forallb] in O. apply andb_true_iff in O. destruct O as [Oh O].
    destruct (ordinaryKey_spec h Oh) as [P I].
    assert (E : assign obj h (orEmpty (nth_error row k)) = obj ++ [(h, nth k row "")]).
    { unfold assign. apply String.eqb_neq in P. rewrite P. unfold JsObj.set.
      replace (JsObj.has obj h) with false
        by (symmetry; apply obj_has_keys, D; now left).
      rewrite obj_add_ordinary by exact I. now rewrite orEmpty_nth. }
    rewrite E, IH.
    + rewrite <- app_assoc. reflexivity.
    + now inversion ND.
    + exact O.
    + intros x Hx. unfold JsObj.keys. rewrite map_app. cbn [map fst]. intros K.
      apply in_app_or in K. destruct K as [K|[K|[]]].
      * apply (D x); [now right|exact K].
      * subst x. inversion ND. contradiction.
Qed.

(** X4: for distinct headers none of which is an array index or [__proto__],
    the object that [rowToObject] builds lists exactly the headers, in their
    order, each with its cell or the empty string: the column order of the
    file is the key order the analyses later read from the first row. *)
Theorem rowToObject_keeps_header_order (headers row : list string) :
  NoDup headers -> forallb ordinaryKey headers = true ->
  rowToObject headers row
  = combine headers (map (fun i => nth i row "") (seq 0 (List.length headers))).
Proof.
  intros ND O. change (rowToObject headers row) with (rowFrom row 0 headers []).
  rewrite rowFrom_ordinary; [reflexivity|exact ND|exact O|intros h _ []].
Qed.

Lemma rowToObject_keeps_header_order_witness :
  rowToObject ["name"; "age"; "city"] ["Ann"; ""] = [("name", "Ann"); ("age", ""); ("city", "")].
Proof.
  apply (rowToObject_keeps_header_order ["name"; "age"; "city"] ["Ann"; ""]).
  - repeat constructor; cbn; intuition discriminate.
  - reflexivity.
Defined.

(** ** Correlations *)

(** *** Symmetry of the Pearson coefficient *)

Lemma float_mul_comm (x y : float) : (x * y)%float = (y * x)%float.
Proof.
  apply Prim2SF_inj. rewrite !mul_spec. unfold SF64mul, SFmul.
  destruct (Prim2SF x) as [sx|sx| |sx mx ex], (Prim2SF y) as [sy|sy| |sy my ey];
    try reflexivity; try (now rewrite xorb_comm).
  now rewrite xorb_comm, Pos.mul_comm, Z.add_comm.
Qed.

Lemma combine_swap {A B : Type} (x : list A) (y : list B) :
  combine y x = map (fun p => (snd p, fst p)) (combine x y).
Proof.
  revert y. induction x as [|a x IH]; intros [|b y]; cbn; try reflexivity.
  now rewrite IH.
Qed.

Lemma pearson_sums_swap (xMean yMean : float) (l : list (float * float))
      (num xd yd : float) :
  fold_left
    (fun (acc : float * float * float) (xy : float * float) =>
       let '(num, xd, yd) := acc in
       let xDiff := (fst xy - yMean)%float in
       let yDiff := (snd xy - xMean)%float in
       (num + xDiff * yDiff, xd + xDiff * xDiff, yd + yDiff * yDiff)%float)
    (map (fun p => (snd p, fst p)) l) (num, yd, xd)
  = let '(n, a, b) :=
      fold_left
        (fun (acc : float * float * float) (xy : float * float) =>
           let '(num, xd, yd) := acc in
           let xDiff := (fst xy - xMean)%float in
           let yDiff := (snd xy - yMean)%float in
           (num + xDiff * yDiff, xd + xDiff * xDiff, yd + yDiff * yDiff)%float)
        l (num, xd, yd) in
    (n, b, a).
Proof.
  revert num xd yd. induction l as [|[a b] l IH]; intros num xd yd; [reflexivity|].
  cbn [map fold_left fst snd].
  rewrite (float_mul_comm (b - yMean) (a - xMean)). apply IH.
Qed.

(** The symmetry of the coefficient: the order of the series does not matter. *)
Lemma pearson_swap (x y : list float) : pearsonCorrelation x y = pearsonCorrelation y x.
Proof.
  unfold pearsonCorrelation. rewrite (Nat.min_comm (List.length y)).
  destruct (Nat.min (List.length x) (List.length y) <? 2)%nat; [reflexivity|].
  rewrite (combine_swap x y).
  rewrite (pearson_sums_swap _ _ (combine x y) 0 0 0).
  destruct (fold_left _ (combine x y) _) as [[n a] b].
  now rewrite (float_mul_comm b a).
Qed.

(** X5: the Pearson coefficient does not depend on the order of its two
    series: [pearsonCorrelation x y] and [pearsonCorrelation y x] are the same
    Number, bit for bit, for all lists (of any lengths, NaN and infinities
    included). *)
Theorem pearsonCorrelation_symmetric (x y : list float) :
  pearsonCorrelation x y = pearsonCorrelation y x.
Proof.
  apply pearson_swap.
Qed.

(** *** The entries of the correlation matrix *)







(** *** The keys of an object *)















(** *** Charts, related features and dispersion *)

Lemma abs_opp (x : float) : JsNum.abs (- x)%float = JsNum.abs x.
Proof.
  unfold JsNum.abs. apply Prim2SF_inj. rewrite !abs_spec, opp_spec.
  now destruct (Prim2SF x).
Qed.

(** X8: the strength of a correlation ignores its sign: a coefficient and its
    opposite get the same strength. *)
Theorem getCorrelationStrength_ignores_sign (coefficient : float) :
  getCorrelationStrength (- coefficient)%float = getCorrelationStrength coefficient.
Proof.
  unfold getCorrelationStrength. now rewrite abs_opp.
Qed.

(** X9: [findCorrelatedFeatures] returns at most [limit] features; each is a
    column of the first row other than the target, its strength is the
    strength of its coefficient and is never none. *)
Theorem findCorrelatedFeatures_excludes_target (rows : Dataset) (targetColumn : string)
        (limit : nat) :
  List.length (findCorrelatedFeatures rows targetColumn limit) <= limit
  /\ forall r, In r (findCorrelatedFeatures rows targetColumn limit) ->
       rf_column r <> targetColumn
       /\ In (rf_column r) (JsVal.keys (hd [] rows))
       /\ rf_strength r = getCorrelationStrength (rf_correlation r)
       /\ rf_strength r <> Correlation.none.
Proof.
  unfold findCorrelatedFeatures. destruct rows as [|row0 rest]; [split; [cbn; lia|intros r []]|].
  cbn [hd]. set (rows := row0 :: rest).
  destruct (List.length (extractNumericValues rows targetColumn) =? 0)%nat;
    (split; [apply firstn_le_length|]);
    intros r H; apply firstn_In, sort_In, filter_In in H; destruct H as [H S];
    apply in_map_iff in H; destruct H as (c & <- & Hc);
    apply filter_In in Hc; destruct Hc as [Hc N];
    cbn [rf_column rf_correlation rf_strength] in *;
    (split; [apply negb_true_iff, String.eqb_neq in N; exact N|]);
    (split; [exact Hc|]); (split; [reflexivity|]);
    intros E; rewrite E in S; discriminate.
Qed.

(** ** Anomalies *)

(** *** Comparisons of Numbers *)

Lemma SFcompare_antisym (x y : spec_float) :
  SFcompare y x = option_map CompOpp (SFcompare x y).
Proof.
  destruct x as [sx|sx| |sx mx ex], y as [sy|sy| |sy my ey]; try reflexivity;
    try (destruct sx; reflexivity); try (destruct sy; reflexivity);
    try (destruct sx, sy; reflexivity).
  cbn [SFcompare option_map]. f_equal.
  destruct sx, sy; try reflexivity; rewrite (Z.compare_antisym ex ey);
    destruct (ex ?= ey)%Z; cbn [CompOpp]; try reflexivity.
  - f_equal. symmetry. exact (Pos.compare_cont_antisym mx my Eq).
  - symmetry. exact (Pos.compare_cont_antisym mx my Eq).
Qed.

Lemma ltb_asym (a b : float) : (a <? b)%float = true -> (b <? a)%float = false.
Proof.
  rewrite !FloatAxioms.ltb_spec. unfold SFltb. rewrite (SFcompare_antisym (Prim2SF a)).
  destruct (SFcompare (Prim2SF a) (Prim2SF b)) as [[| |]|]; cbn; congruence.
Qed.

(** [Math.min(x, 1)] never exceeds 1. *)
Lemma min_one_le (x : float) : JsNum.gt (JsNum.min x 1) 1 = false.
Proof.
  unfold JsNum.gt, JsNum.min.
  destruct (JsNum.isNaN x || JsNum.isNaN 1); [reflexivity|].
  unfold JsNum.lt. destruct (x <? 1)%float eqn:L; [now apply ltb_asym|].
  destruct (1 <? x)%float eqn:G; [reflexivity|].
  destruct (JsNum.isNegZero x); [exact G|reflexivity].
Qed.

Lemma NonNeg_nan : NonNeg JsNum.nan.
Proof. reflexivity. Qed.

Lemma NonNeg_min (u v : float) : NonNeg u -> NonNeg v -> NonNeg (JsNum.min u v).
Proof.
  intros Hu Hv. unfold JsNum.min.
  destruct (_ || _); [exact NonNeg_nan|].
  destruct (JsNum.lt u v); [exact Hu|].
  destruct (JsNum.lt v u); [exact Hv|].
  destruct (JsNum.isNegZero u); assumption.
Qed.

Lemma NonNeg_abs (x : float) : NonNeg (JsNum.abs x).
Proof.
  unfold NonNeg, JsNum.abs. rewrite abs_spec. now destruct (Prim2SF x).
Qed.

(** *** One anomaly per row of a column *)

Lemma detectZScoreAnomalies_shape (values : list float) (c : string) (t : float) (a : Anomaly.t) :
  In a (detectZScoreAnomalies values c t) ->
  Anomaly.column a = c /\ exists x, Anomaly.score a = JsNum.min x 1.
Proof.
  unfold detectZScoreAnomalies.
  destruct (List.length values <? 10)%nat; [intros []|].
  destruct (JsNum.seq _ 0); [intros []|].
  rewrite in_flat_map. intros ([i v] & Hin & Ha).
  destruct (JsNum.gt _ t); [|destruct Ha].
  destruct Ha as [<-|[]]. split; [reflexivity|]. eexists. reflexivity.
Qed.

Lemma detectIQRAnomalies_shape (values : list float) (c : string) (m : float) (a : Anomaly.t) :
  In a (detectIQRAnomalies values c m) ->
  Anomaly.column a = c /\ exists x, Anomaly.score a = JsNum.min x 1.
Proof.
  unfold detectIQRAnomalies.
  destruct (List.length values <? 10)%nat; [intros []|].
  rewrite in_flat_map. intros ([i v] & Hin & Ha).
  destruct (_ || _); [|destruct Ha].
  destruct Ha as [<-|[]]. split; [reflexivity|]. eexists. reflexivity.
Qed.

Lemma detectRollingAnomalies_shape (values : list float) (c : string) (w : nat) (t : float)
      (a : Anomaly.t) :
  In a (detectRollingAnomalies values c w t) ->
  Anomaly.column a = c /\ exists x, Anomaly.score a = JsNum.min x 1.
Proof.
  unfold detectRollingAnomalies.
  destruct (List.length values <? w + 2)%nat; [intros []|].
  rewrite in_flat_map. intros (i & Hin & Ha).
  destruct (JsNum.seq _ 0); [destruct Ha|].
  destruct (JsNum.gt _ t); [|destruct Ha].
  destruct Ha as [<-|[]]. split; [reflexivity|]. eexists. reflexivity.
Qed.

Lemma detectColumnAnomalies_sources (rows : Dataset) (c : string) (a : Anomaly.t) :
  In a (detectColumnAnomalies rows c) ->
  let values := extractNumericValues rows c in
  In a (detectZScoreAnomalies values c 3)
  \/ In a (detectIQRAnomalies values c 1.5)
  \/ In a (detectRollingAnomalies values c 5 2).
Proof.
  unfold detectColumnAnomalies. cbn zeta.
  destruct (List.length (extractNumericValues rows c) <? 10)%nat; [intros []|].
  intros H. apply sort_In in H. apply merge_values in H. destruct H as [H|[]].
  apply in_app_or in H. destruct H as [H|H]; [now left|].
  apply in_app_or in H. destruct H as [H|H]; [right; now left|right; now right].
Qed.

Lemma detectColumnAnomalies_shape (rows : Dataset) (c : string) (a : Anomaly.t) :
  In a (detectColumnAnomalies rows c) ->
  Anomaly.column a = c /\ exists x, Anomaly.score a = JsNum.min x 1.
Proof.
  intros H. apply detectColumnAnomalies_sources in H. cbn zeta in H.
  destruct H as [H|[H|H]];
    [eapply detectZScoreAnomalies_shape|eapply detectIQRAnomalies_shape
     |eapply detectRollingAnomalies_shape]; exact H.
Qed.

(** The keys of the merge map are the row indexes of its anomalies, each
    key once. *)
Lemma mapSet_keys (k : nat) (a : Anomaly.t) (m : list (nat * Anomaly.t)) :
  map fst (mapSet k a m) = if existsb (Nat.eqb k) (map fst m) then map fst m else map fst m ++ [k].
Proof.
  induction m as [|[k' b] m IH]; cbn [mapSet map fst existsb app]; [reflexivity|].
  rewrite (Nat.eqb_sym k k'). destruct (k' =? k)%nat; cbn [orb map fst]; [reflexivity|].
  rewrite IH. now destruct (existsb _ _).
Qed.

Lemma mapSet_keyed (k : nat) (a : Anomaly.t) (m : list (nat * Anomaly.t)) :
  Anomaly.rowIndex a = k ->
  Forall (fun kb => Anomaly.rowIndex (snd kb) = fst kb) m ->
  Forall (fun kb => Anomaly.rowIndex (snd kb) = fst kb) (mapSet k a m).
Proof.
  intros Ha H. induction H as [|[k' b] m Hb H IH]; cbn [mapSet].
  - constructor; [exact Ha|constructor].
  - destruct (k' =? k)%nat eqn:E.
    + apply Nat.eqb_eq in E. subst k'. constructor; [exact Ha|exact H].
    + constructor; [exact Hb|exact IH].
Qed.

Lemma mapSet_NoDup (k : nat) (a : Anomaly.t) (m : list (nat * Anomaly.t)) :
  NoDup (map fst m) -> NoDup (map fst (mapSet k a m)).
Proof.
  intros H. rewrite mapSet_keys. destruct (existsb _ _) eqn:E; [exact H|].
  apply NoDup_app; [exact H|constructor; [intros []|constructor]|].
  intros x Hx [<-|[]].
  assert (existsb (Nat.eqb k) (map fst m) = true)
    by (apply existsb_exists; exists k; split; [exact Hx|apply Nat.eqb_refl]).
  congruence.
Qed.

Lemma merge_keyed (l : list Anomaly.t) (m : list (nat * Anomaly.t)) :
  NoDup (map fst m) /\ Forall (fun kb => Anomaly.rowIndex (snd kb) = fst kb) m ->
  NoDup (map fst (fold_left mergeAnomaly l m))
  /\ Forall (fun kb => Anomaly.rowIndex (snd kb) = fst kb) (fold_left mergeAnomaly l m).
Proof.
  revert m. induction l as [|a l IH]; intros m H; [exact H|].
  cbn [fold_left]. apply IH. destruct H as [N K]. unfold mergeAnomaly.
  destruct (mapGet _ m); [destruct (JsNum.lt _ _)|];
    try (split; [now apply mapSet_NoDup|now apply mapSet_keyed]).
  split; assumption.
Qed.

Lemma insert_NoDup {A B : Type} (f : A -> B) (lt : A -> A -> bool) (x : A) (l : list A) :
  NoDup (map f (x :: l)) -> NoDup (map f (JsArr.insert lt x l)).
Proof.
  induction l as [|y l IH]; intros H; [exact H|].
  cbn [JsArr.insert]. destruct (lt y x); [|exact H].
  cbn [map] in *. inversion H as [|? ? Hx Hr]; subst. inversion Hr as [|? ? Hy Hl]; subst.
  constructor.
  - intros K. apply in_map_iff in K. destruct K as (z & Ez & Hz).
    apply insert_In in Hz. destruct Hz as [->|Hz].
    + apply Hx. rewrite Ez. now left.
    + apply Hy. rewrite <- Ez. now apply in_map.
  - apply IH. constructor; [|exact Hl]. intros K. apply Hx. now right.
Qed.

Lemma sort_NoDup {A B : Type} (f : A -> B) (lt : A -> A -> bool) (l : list A) :
  NoDup (map f l) -> NoDup (map f (JsArr.sort lt l)).
Proof.
  induction l as [|x l IH]; intros H; [exact H|].
  cbn [JsArr.sort]. apply insert_NoDup. cbn [map] in *.
  inversion H as [|? ? Hx Hl]; subst. constructor; [|now apply IH].
  intros K. apply Hx. apply in_map_iff in K. destruct K as (z & Ez & Hz).
  apply sort_In in Hz. rewrite <- Ez. now apply in_map.
Qed.

Lemma detectColumnAnomalies_position (rows : Dataset) (c : string) (a : Anomaly.t) :
  In a (detectColumnAnomalies rows c) ->
  Anomaly.rowIndex a < List.length (extractNumericValues rows c).
Proof.
  intros H. apply detectColumnAnomalies_sources in H. cbn zeta in H.
  assert (P : seriesPoint (extractNumericValues rows c) a).
  { destruct H as [H|[H|H]];
      [eapply detectZScoreAnomalies_points|eapply detectIQRAnomalies_points
       |eapply detectRollingAnomalies_points]; exact H. }
  unfold seriesPoint in P. apply nth_error_Some. congruence.
Qed.

(** X10: the anomalies of a column hold each row index at most once (the merge
    keeps one anomaly per position of the series), so there are never more
    anomalies than numeric values, and each anomaly names the column. *)
Theorem detectColumnAnomalies_one_per_row (rows : Dataset) (columnName : string) :
  NoDup (map Anomaly.rowIndex (detectColumnAnomalies rows columnName))
  /\ List.length (detectColumnAnomalies rows columnName)
     <= List.length (extractNumericValues rows columnName)
  /\ forall a, In a (detectColumnAnomalies rows columnName) -> Anomaly.column a = columnName.
Proof.
  assert (N : NoDup (map Anomaly.rowIndex (detectColumnAnomalies rows columnName))).
  { unfold detectColumnAnomalies.
    destruct (List.length (extractNumericValues rows columnName) <? 10)%nat; [constructor|].
    apply sort_NoDup. rewrite map_map.
    destruct (merge_keyed
                (detectZScoreAnomalies (extractNumericValues rows columnName) columnName 3
                 ++ detectIQRAnomalies (extractNumericValues rows columnName) columnName 1.5
                 ++ detectRollingAnomalies (extractNumericValues rows columnName) columnName 5 2)
                []) as [K F]; [split; constructor|].
    erewrite map_ext_in; [exact K|].
    intros kb Hkb. rewrite Forall_forall in F. now apply F. }
  split; [exact N|]. split.
  - rewrite <- (length_map Anomaly.rowIndex (detectColumnAnomalies rows columnName)).
    rewrite <- (length_seq (List.length (extractNumericValues rows columnName)) 0) at 1.
    apply NoDup_incl_length; [exact N|].
    intros i Hi. apply in_map_iff in Hi. destruct Hi as (a & <- & Ha).
    apply in_seq. apply detectColumnAnomalies_position in Ha. lia.
  - intros a Ha. now apply detectColumnAnomalies_shape in Ha.
Qed.

(** X11: the score of a reported anomaly is never greater than 1, whichever
    detector produced it. *)
Theorem anomaly_score_at_most_one (rows : Dataset) (columnName : string) (a : Anomaly.t) :
  In a (detectColumnAnomalies rows columnName) ->
  JsNum.gt (Anomaly.score a) 1 = false.
Proof.
  intros H. apply detectColumnAnomalies_shape in H. destruct H as (_ & x & ->).
  apply min_one_le.
Qed.

Lemma anomaly_score_at_most_one_witness :
  In gapAnomaly (detectColumnAnomalies gapRows "x")
  /\ JsNum.gt (Anomaly.score gapAnomaly) 1 = false.
Proof.
  assert (H : In gapAnomaly (detectColumnAnomalies gapRows "x"))
    by (vm_compute; left; reflexivity).
  split; [exact H|]. exact (anomaly_score_at_most_one gapRows "x" gapAnomaly H).
Defined.

(** *** The anomalies of a dataset *)

Lemma setAdd_In (x c : string) (s : list string) : In c (setAdd x s) <-> c = x \/ In c s.
Proof.
  unfold setAdd. destruct (existsb (String.eqb x) s) eqn:E.
  - split; [now right|]. intros [->|H]; [|exact H].
    apply existsb_exists in E. destruct E as (y & Hy & Ey). apply String.eqb_eq in Ey. now subst.
  - rewrite in_app_iff. cbn [In]. intuition.
Qed.

Lemma setAdd_NoDup (x : string) (s : list string) : NoDup s -> NoDup (setAdd x s).
Proof.
  intros H. unfold setAdd. destruct (existsb (String.eqb x) s) eqn:E; [exact H|].
  apply NoDup_app; [exact H|constructor; [intros []|constructor]|].
  intros y Hy [<-|[]].
  assert (existsb (String.eqb x) s = true)
    by (apply existsb_exists; exists x; split; [exact Hy|apply String.eqb_refl]).
  congruence.
Qed.

Lemma detectColumnAnomalies_short (rows : Dataset) (c : string) :
  (10 <=? List.length (extractNumericValues rows c))%nat = false ->
  detectColumnAnomalies rows c = [].
Proof.
  intros H. unfold detectColumnAnomalies.
  replace (List.length (extractNumericValues rows c) <? 10)%nat with true; [reflexivity|].
  symmetry. apply Nat.ltb_lt. apply Nat.leb_gt in H. exact H.
Qed.

(** What the loop over the columns has collected after the columns [p]. *)
Lemma detectAllAnomalies_loop (rows : Dataset) (columnNames : list string) :
  let acc :=
    fold_left
      (fun (acc : list Anomaly.t * list string) (column : string) =>
         let values := extractNumericValues rows column in
         if (10 <=? List.length values)%nat then
           let anomalies := detectColumnAnomalies rows column in
           if (0 <? List.length anomalies)%nat
           then (fst acc ++ anomalies, setAdd column (snd acc))
           else acc
         else acc)
      columnNames ([], []) in
  NoDup (snd acc)
  /\ (forall c, In c (snd acc) <-> In c columnNames /\ detectColumnAnomalies rows c <> [])
  /\ (forall a, In a (fst acc) ->
        In a (detectColumnAnomalies rows (Anomaly.column a)) /\ In (Anomaly.column a) (snd acc)).
Proof.
  cbn zeta.
  apply (fold_left_prefix _
    (fun p acc =>
       NoDup (snd acc)
       /\ (forall c, In c (snd acc) <-> In c p /\ detectColumnAnomalies rows c <> [])
       /\ (forall a, In a (fst acc) ->
             In a (detectColumnAnomalies rows (Anomaly.column a))
             /\ In (Anomaly.column a) (snd acc)))).
  - split; [constructor|]. split; [|intros a []]. intros c. cbn. tauto.
  - intros p x [all aff] (N & C & A). cbn [fst snd] in *.
    destruct (10 <=? _)%nat eqn:E10.
    + destruct (0 <? _)%nat eqn:E0; cbn [fst snd].
      * split; [now apply setAdd_NoDup|]. split.
        -- intros c. rewrite setAdd_In, C, in_app_iff. cbn [In]. split.
           ++ intros [->|[H1 H2]]; [|tauto]. split; [tauto|].
              intros K. rewrite K in E0. discriminate.
           ++ intros [[H|[<-|[]]] H2]; tauto.
        -- intros a Ha. apply in_app_or in Ha. destruct Ha as [Ha|Ha].
           ++ destruct (A a Ha) as [A1 A2]. split; [exact A1|]. apply setAdd_In. now right.
           ++ pose proof (detectColumnAnomalies_shape rows x a Ha) as [Ec _].
              rewrite Ec. split; [exact Ha|]. apply setAdd_In. now left.
      * apply length_zero_nil in E0.
        split; [exact N|]. split; [|exact A].
        intros c. rewrite C, in_app_iff. cbn [In]. split; [tauto|].
        intros [[H|[<-|[]]] H2]; [tauto|contradiction].
    + apply detectColumnAnomalies_short in E10.
      split; [exact N|]. split; [|exact A].
      intros c. rewrite C, in_app_iff. cbn [In]. split; [tauto|].
      intros [[H|[<-|[]]] H2]; [tauto|contradiction].
Qed.

(** X12: the report of [detectAllAnomalies] lists at most 100 anomalies and an
    anomaly score not greater than 1; the affected columns are listed once
    each and are exactly the columns of the first row that have an anomaly;
    every listed anomaly is an anomaly of its column, and that column is among
    the affected ones. *)
Theorem detectAllAnomalies_report (rows : Dataset) :
  List.length (AnomalyResult.anomalies (detectAllAnomalies rows)) <= 100
  /\ JsNum.gt (AnomalyResult.anomalyScore (detectAllAnomalies rows)) 1 = false
  /\ NoDup (AnomalyResult.affectedColumns (detectAllAnomalies rows))
  /\ (forall c, In c (AnomalyResult.affectedColumns (detectAllAnomalies rows)) <->
                In c (JsVal.keys (hd [] rows)) /\ detectColumnAnomalies rows c <> [])
  /\ (forall a, In a (AnomalyResult.anomalies (detectAllAnomalies rows)) ->
        In a (detectColumnAnomalies rows (Anomaly.column a))
        /\ In (Anomaly.column a) (AnomalyResult.affectedColumns (detectAllAnomalies rows))).
Proof.
  destruct rows as [|row0 rest].
  - cbn. repeat split; try constructor; try lia; try tauto; intros [].
  - unfold detectAllAnomalies. cbn [hd]. set (rows := row0 :: rest).
    pose proof (detectAllAnomalies_loop rows (JsVal.keys row0)) as L. cbn zeta in L.
    destruct (fold_left _ (JsVal.keys row0) _) as [all aff].
    cbn [fst snd] in L. destruct L as (N & C & A).
    cbn [AnomalyResult.anomalies AnomalyResult.anomalyScore AnomalyResult.affectedColumns].
    split; [apply firstn_le_length|].
    split; [destruct (0 <? _)%nat; [apply min_one_le|reflexivity]|].
    split; [exact N|]. split; [exact C|].
    intros a Ha. apply firstn_In, sort_In in Ha. now apply A.
Qed.

(** ** Forecasts *)

(** *** The periods of a forecast *)

Lemma map_period_id (g : Z -> float) (h : Z -> Forecast.interval) (l : list Z) :
  map Forecast.period
      (map (fun i => {| Forecast.period := i; Forecast.value := g i; Forecast.confidence := h i |}) l)
  = l.
Proof. rewrite map_map. cbn. apply map_id. Qed.

Lemma linearForecast_periods (values : list float) (periods : Z) :
  map Forecast.period (fst (linearForecast values periods)) = periodsLoop periods.
Proof. unfold linearForecast. cbn [fst]. rewrite map_map. cbn. apply map_id. Qed.

Lemma exponentialForecast_periods (values : list float) (periods : Z) (alpha : float) :
  (1 <= periods)%Z ->
  exists r, exponentialForecast values periods alpha = Normal r
            /\ map Forecast.period (fst r) = periodsLoop periods.
Proof.
  intros Hp. unfold exponentialForecast.
  set (preds := map _ (periodsLoop periods)).
  assert (Hl : List.length preds = Z.to_nat periods)
    by (unfold preds; now rewrite length_map, periodsLoop_length).
  assert (Hm : map Forecast.period preds = periodsLoop periods)
    by (unfold preds; rewrite map_map; cbn; apply map_id).
  destruct (JsNum.sneq _ 0).
  - destruct (propOf_defined preds (periods - 1) "value") as (a & Ha & _); [lia|].
    rewrite Ha. cbn [bindC]. eexists. split; [reflexivity|]. exact Hm.
  - cbn [bindC]. eexists. split; [reflexivity|]. exact Hm.
Qed.

Lemma rollingForecast_periods (values : list float) (periods : Z) (w : option nat) :
  (1 <= periods)%Z ->
  exists r, rollingForecast values periods w = Normal r
            /\ map Forecast.period (fst r) = periodsLoop periods.
Proof.
  intros Hp. unfold rollingForecast.
  set (preds := map _ (periodsLoop periods)).
  assert (Hl : List.length preds = Z.to_nat periods)
    by (unfold preds; now rewrite length_map, periodsLoop_length).
  assert (Hm : map Forecast.period preds = periodsLoop periods)
    by (unfold preds; rewrite map_map; cbn; apply map_id).
  destruct (propOf_defined preds 0 "value") as (a & Ha & _); [lia|].
  destruct (propOf_defined preds (periods - 1) "value") as (b & Hb' & _); [lia|].
  rewrite Ha. cbn [bindC]. rewrite Hb'. cbn [bindC].
  eexists. split; [reflexivity|]. exact Hm.
Qed.

Lemma forecast_shape (rows : Dataset) (col : string) (periods : Z) (m : Forecast.selector) :
  (1 <= periods)%Z -> (5 <= List.length (extractNumericValues rows col))%nat ->
  exists f, forecast rows col periods m = Normal f
            /\ Forecast.column f = col
            /\ map Forecast.period (Forecast.predictions f) = periodsLoop periods.
Proof.
  intros Hp H5. unfold forecast.
  destruct (List.length (extractNumericValues rows col) <? 5)%nat eqn:E;
    [apply Nat.ltb_lt in E; lia|].
  set (sel := match m with Forecast.auto => _ | Forecast.fixed m0 => m0 end).
  assert (Hr : exists r, match sel with
                         | Forecast.linear => Normal (linearForecast (extractNumericValues rows col) periods)
                         | Forecast.exponential => exponentialForecast (extractNumericValues rows col) periods 0.3
                         | Forecast.rolling => rollingForecast (extractNumericValues rows col) periods None
                         end = Normal r /\ map Forecast.period (fst r) = periodsLoop periods).
  { destruct sel.
    - eexists; split; [reflexivity|apply linearForecast_periods].
    - now apply exponentialForecast_periods.
    - now apply rollingForecast_periods. }
  destruct Hr as (r & Hr & Hm). rewrite Hr. cbn [bindC].
  assert (Hl : List.length (fst r) = Z.to_nat periods)
    by (rewrite <- (length_map Forecast.period (fst r)), Hm; apply periodsLoop_length).
  destruct (JsNum.sneq _ 0).
  - destruct (propOf_defined (fst r) (Z.of_nat (List.length (fst r)) - 1) "value") as (a & Ha & _); [lia|].
    rewrite Ha. cbn [bindC]. eexists; split; [reflexivity|]. split; [reflexivity|exact Hm].
  - cbn [bindC]. eexists; split; [reflexivity|]. split; [reflexivity|exact Hm].
Qed.

Lemma mapC_spec {A B : Type} (f : A -> Completion B) (P : A -> B -> Prop) (xs : list A) :
  (forall x, In x xs -> exists y, f x = Normal y /\ P x y) ->
  exists ys, mapC f xs = Normal ys /\ Forall2 P xs ys.
Proof.
  induction xs as [|x xs IH]; intros H.
  - exists []. split; [reflexivity|constructor].
  - destruct (H x (or_introl eq_refl)) as (y & Hy & Py).
    destruct IH as (ys & Hys & F); [intros; apply H; now right|].
    cbn [mapC]. rewrite Hy. cbn [bindC]. rewrite Hys. cbn [bindC].
    exists (y :: ys). split; [reflexivity|]. now constructor.
Qed.

(** X13: for at least one period and a column of at least five numeric values,
    [forecast] returns, whatever the method, a result for that column whose
    prediction points are numbered 1, 2, ..., periods in this order. *)
Theorem forecast_periods_are_numbered (rows : Dataset) (columnName : string) (periods : Z)
        (method : Forecast.selector) :
  (1 <= periods)%Z -> (5 <= List.length (extractNumericValues rows columnName))%nat ->
  exists f, forecast rows columnName periods method = Normal f
            /\ Forecast.column f = columnName
            /\ map Forecast.period (Forecast.predictions f)
               = map Z.of_nat (seq 1 (Z.to_nat periods)).
Proof.
  apply forecast_shape.
Qed.

Lemma forecast_periods_are_numbered_witness :
  exists f, forecast salesRows "revenue" 3 Forecast.auto = Normal f
            /\ Forecast.column f = "revenue"
            /\ map Forecast.period (Forecast.predictions f) = [1; 2; 3]%Z.
Proof.
  apply (forecast_periods_are_numbered salesRows "revenue" 3 Forecast.auto).
  - lia.
  - vm_compute. lia.
Defined.

(** X14: for at least one period, [forecastAll] returns one forecast for each
    column of the first row that has at least five numeric values, in the
    order of the columns, and each forecast has [periods] prediction points
    (none is the insufficient-data result). *)
Theorem forecastAll_covers_forecastable_columns (row0 : DataRow) (rest : Dataset) (periods : Z) :
  (1 <= periods)%Z ->
  exists fs, forecastAll (row0 :: rest) periods = Normal fs
             /\ map Forecast.column fs
                = filter (fun column =>
                            (5 <=? List.length (extractNumericValues (row0 :: rest) column))%nat)
                         (JsVal.keys row0)
             /\ forall f, In f fs -> List.length (Forecast.predictions f) = Z.to_nat periods.
Proof.
  intros Hp. unfold forecastAll. set (rows := row0 :: rest).
  set (cols := filter _ (JsVal.keys row0)).
  destruct (mapC_spec (fun column => forecast rows column periods Forecast.auto)
              (fun c f => Forecast.column f = c
                          /\ List.length (Forecast.predictions f) = Z.to_nat periods) cols)
    as (fs & Hfs & F).
  - intros c Hc. apply filter_In in Hc. destruct Hc as [_ Hc]. apply Nat.leb_le in Hc.
    destruct (forecast_shape rows c periods Forecast.auto Hp Hc) as (f & Hf & Ec & Hm).
    exists f. split; [exact Hf|]. split; [exact Ec|].
    rewrite <- (length_map Forecast.period), Hm. apply periodsLoop_length.
  - exists fs. split; [exact Hfs|]. split.
    + clear Hfs. induction F as [|c f cs fs [Ec _] F IH]; [reflexivity|].
      cbn [map]. now rewrite Ec, IH.
    + intros f Hf. clear Hfs. induction F as [|c g cs fs [_ Hl] F IH]; [destruct Hf|].
      destruct Hf as [<-|Hf]; [exact Hl|now apply IH].
Qed.

Lemma forecastAll_covers_forecastable_columns_witness :
  exists fs, forecastAll salesRows 7 = Normal fs
             /\ map Forecast.column fs = ["revenue"; "cost"]
             /\ forall f, In f fs -> List.length (Forecast.predictions f) = 7.
Proof.
  apply (forecastAll_covers_forecastable_columns
           [("revenue", JNum 100); ("cost", JNum 60)] (tl salesRows) 7).
  lia.
Defined.

(** ** Trends *)

(** *** Trends *)

Lemma detectTrendDirection_strength (values : list float) :
  NonNeg (snd (detectTrendDirection values))
  /\ JsNum.gt (snd (detectTrendDirection values)) 1 = false.
Proof.
  unfold detectTrendDirection. destruct (List.length values <? 3)%nat; [split; reflexivity|].
  cbn [snd]. split; [apply NonNeg_min; [apply NonNeg_abs|reflexivity]|apply min_one_le].
Qed.

Lemma detectSeasonality_spec (values : list float) :
  match detectSeasonality values with
  | (true, Some p) => In p [7; 12; 4; 24; 30] /\ 2 * p <= List.length values
  | (false, None) => True
  | _ => False
  end.
Proof.
  unfold detectSeasonality. destruct (List.length values <? 12)%nat; [exact I|].
  destruct (find _ _) as [p|] eqn:F; [|exact I].
  apply find_some in F. destruct F as [Hp F]. split; [exact Hp|].
  apply andb_true_iff in F. destruct F as [F _].
  apply negb_true_iff, Nat.ltb_ge in F. lia.
Qed.

Lemma detectShifts_length (values : list float) : List.length (detectShifts values) <= 5.
Proof.
  unfold detectShifts. destruct (List.length values <? 5)%nat; [cbn; lia|].
  apply firstn_le_length.
Qed.

Lemma analyzeTrend_column (rows : Dataset) (columnName : string) :
  Trend.column (analyzeTrend rows columnName) = columnName.
Proof.
  unfold analyzeTrend. destruct (_ <? 3)%nat; [reflexivity|].
  destruct (detectTrendDirection _), (detectSeasonality _). reflexivity.
Qed.

(** X15: the trend of a column names that column; its strength is neither
    below 0 nor above 1; it lists at most five shifts; and it reports a
    seasonal period exactly when it reports seasonality, the period being one
    of 7, 12, 4, 24 and 30 and the series covering it at least twice. *)
Theorem analyzeTrend_result_is_bounded (rows : Dataset) (columnName : string) :
  Trend.column (analyzeTrend rows columnName) = columnName
  /\ JsNum.lt (Trend.strength (analyzeTrend rows columnName)) 0 = false
  /\ JsNum.gt (Trend.strength (analyzeTrend rows columnName)) 1 = false
  /\ List.length (Trend.shifts (analyzeTrend rows columnName)) <= 5
  /\ match Trend.seasonality (analyzeTrend rows columnName),
           Trend.seasonalPeriod (analyzeTrend rows columnName) with
     | true, Some p =>
         In p [7; 12; 4; 24; 30]
         /\ 2 * p <= List.length (extractNumericValues rows columnName)
     | false, None => True
     | _, _ => False
     end.
Proof.
  split; [apply analyzeTrend_column|].
  unfold analyzeTrend. set (values := extractNumericValues rows columnName).
  destruct (List.length values <? 3)%nat.
  - cbn. repeat split; lia.
  - pose proof (detectTrendDirection_strength values) as [S0 S1].
    pose proof (detectSeasonality_spec values) as P.
    pose proof (detectShifts_length values) as L.
    destruct (detectTrendDirection values) as [d s], (detectSeasonality values) as [b o].
    cbn [snd Trend.strength Trend.shifts Trend.seasonality Trend.seasonalPeriod] in *.
    split; [now apply NonNeg_ltb|]. split; [exact S1|]. split; [exact L|exact P].
Qed.

(** X16: [analyzeAllTrends] returns one trend for each column of the first row
    that has at least three numeric values, in the order of the columns. *)
Theorem analyzeAllTrends_covers_numeric_columns (row0 : DataRow) (rest : Dataset) :
  map Trend.column (analyzeAllTrends (row0 :: rest))
  = filter (fun column =>
              (3 <=? List.length (extractNumericValues (row0 :: rest) column))%nat)
           (JsVal.keys row0).
Proof.
  unfold analyzeAllTrends. rewrite map_map. erewrite map_ext; [apply map_id|].
  intros c. apply analyzeTrend_column.
Qed.

(** ** Frequencies *)

(** *** Counting values *)

Section Counting.
Context {T : Type} (eq : T -> T -> bool).
Hypothesis eq_refl' : forall a, eq a a = true.
Hypothesis eq_sym' : forall a b, eq a b = eq b a.
Hypothesis eq_trans' : forall a b c, eq a b = true -> eq b c = true -> eq a c = true.











End Counting.

Lemma String_eqb_equivalence : keyEquivalence String.eqb.
Proof.
  split; [apply String.eqb_refl|]. split; [apply String.eqb_sym|].
  intros a b c H1 H2. apply String.eqb_eq in H1, H2. subst. apply String.eqb_refl.
Qed.

(** *** The sort by decreasing count *)







(** *** SameValueZero is an equivalence *)

Lemma SFcompare_Eq (x y : spec_float) :
  SFcompare x y = Some Eq ->
  (exists s s', x = S754_zero s /\ y = S754_zero s') \/ x = y.
Proof.
  destruct x as [sx|sx| |sx mx ex], y as [sy|sy| |sy my ey]; cbn [SFcompare];
    try discriminate; try (destruct sx; discriminate); try (destruct sy; discriminate).
  - intros _. left. now exists sx, sy.
  - destruct sx, sy; try discriminate; intros _; now right.
  - intros H. right. injection H as H.
    destruct sx, sy; try discriminate; destruct (ex ?= ey)%Z eqn:E; try discriminate;
      apply Z.compare_eq in E; subst ey.
    + assert (C : Pos.compare_cont Eq mx my = Eq) by (now destruct (Pos.compare_cont Eq mx my)).
      apply Pos.compare_eq in C. now subst.
    + apply Pos.compare_eq in H. now subst.
Qed.

Lemma eqb_refl_not_nan (x : float) : JsNum.isNaN x = false -> (x =? x)%float = true.
Proof. unfold JsNum.isNaN, PrimFloat.is_nan. now destruct (x =? x)%float. Qed.

Lemma eqb_sym_float (x y : float) : (x =? y)%float = (y =? x)%float.
Proof.
  rewrite !FloatAxioms.eqb_spec. unfold SFeqb. rewrite (SFcompare_antisym (Prim2SF y)).
  now destruct (SFcompare (Prim2SF y) (Prim2SF x)) as [[| |]|].
Qed.

Lemma eqb_trans_float (x y z : float) :
  (x =? y)%float = true -> (y =? z)%float = true -> (x =? z)%float = true.
Proof.
  rewrite !FloatAxioms.eqb_spec. unfold SFeqb.
  destruct (SFcompare (Prim2SF x) (Prim2SF y)) as [[| |]|] eqn:A; try discriminate.
  destruct (SFcompare (Prim2SF y) (Prim2SF z)) as [[| |]|] eqn:B; try discriminate.
  intros _ _. pose proof A as A0. pose proof B as B0.
  apply SFcompare_Eq in A. apply SFcompare_Eq in B.
  destruct A as [(s & s' & Ax & Ay)|A], B as [(t & t' & By & Bz)|B].
  - now rewrite Ax, Bz.
  - now rewrite Ax, <- B, Ay.
  - now rewrite A, By, Bz.
  - now rewrite <- B, A0.
Qed.

Lemma numKeyEq_equivalence : keyEquivalence JsVal.numKeyEq.
Proof.
  unfold keyEquivalence, JsVal.numKeyEq, JsNum.seq. split; [|split].
  - intros a. destruct (JsNum.isNaN a) eqn:N; [reflexivity|]. cbn [andb orb].
    now apply eqb_refl_not_nan.
  - intros a b. now rewrite andb_comm, eqb_sym_float.
  - intros a b c.
    assert (Nan : forall u v, JsNum.isNaN u = true -> (u =? v)%float = false
                              /\ (v =? u)%float = false).
    { intros u v. unfold JsNum.isNaN, PrimFloat.is_nan.
      rewrite !FloatAxioms.eqb_spec. unfold SFeqb. intros H.
      destruct (Prim2SF u) as [s|s| |s m e] eqn:U;
        try (rewrite SFcompare_refl in H by discriminate; discriminate).
      split; [reflexivity|now destruct (Prim2SF v)]. }
    destruct (JsNum.isNaN a) eqn:Na, (JsNum.isNaN b) eqn:Nb, (JsNum.isNaN c) eqn:Nc;
      cbn [andb orb]; intros H1 H2; try reflexivity;
      try (rewrite (proj1 (Nan a b Na)) in H1; discriminate);
      try (rewrite (proj2 (Nan b a Nb)) in H1; discriminate);
      try (rewrite (proj1 (Nan b c Nb)) in H2; discriminate);
      try (rewrite (proj2 (Nan c b Nc)) in H2; discriminate).
    exact (eqb_trans_float a b c H1 H2).
Qed.

Lemma StrOrNum_keyEq_equivalence : keyEquivalence StrOrNum_keyEq.
Proof.
  destruct numKeyEq_equivalence as (R & S & T).
  destruct String_eqb_equivalence as (R' & S' & T').
  split; [|split].
  - intros [s|x]; cbn; [apply R'|apply R].
  - intros [s|x] [t|y]; cbn; try reflexivity; [apply S'|apply S].
  - intros [s|x] [t|y] [u|z]; cbn; try discriminate; [apply T'|apply T].
Qed.





(** ** Dispersion and smoothing *)

(** X19: the standard deviation of a list of Numbers is never below 0
    (it may be NaN, for a list that holds NaN or overflows). *)
Theorem standardDeviation_is_never_negative (values : list float) :
  JsNum.lt (standardDeviation values) 0 = false.
Proof.
  apply NonNeg_ltb, NonNeg_standardDeviation.
Qed.

(** X20: exponential smoothing keeps the length of the series; the moving
    average returns a series shorter than its window unchanged, and otherwise
    a series of length - window + 1 averages. *)
Theorem smoothed_series_lengths (values : list float) (window : nat) (alpha : float) :
  List.length (exponentialSmoothing values alpha) = List.length values
  /\ (List.length values < window -> movingAverage values window = values)
  /\ (window <= List.length values ->
      List.length (movingAverage values window) = List.length values - window + 1).
Proof.
  split; [|split].
  - unfold exponentialSmoothing. destruct values as [|v0 rest]; [reflexivity|].
    cbn [List.length]. f_equal. generalize v0. induction rest as [|v rest IH]; intros p;
      [reflexivity|]. cbn [smoothFrom List.length]. now rewrite IH.
  - intros H. unfold movingAverage. apply Nat.ltb_lt in H. now rewrite H.
  - intros H. unfold movingAverage. apply Nat.ltb_ge in H. rewrite H.
    now rewrite length_map, length_seq.
Qed.

(** ** Profiles *)

(** *** Profiles *)

Lemma distinct_length {A : Type} (eq : A -> A -> bool) (l : list A) :
  List.length (JsArr.distinct eq l) <= List.length l.
Proof.
  induction l as [|x l IH]; [apply le_n|]. cbn [JsArr.distinct List.length].
  pose proof (filter_length_le (fun y => negb (eq x y)) (JsArr.distinct eq l)). lia.
Qed.

Lemma distinct_In {A : Type} (eq : A -> A -> bool) (l : list A) (y : A) :
  In y (JsArr.distinct eq l) -> In y l.
Proof.
  induction l as [|x l IH]; [intros []|]. cbn [JsArr.distinct In].
  intros [H|H]; [now left|]. apply filter_In in H. right. now apply IH.
Qed.

Lemma distinct_NoDup (l : list string) : NoDup (JsArr.distinct String.eqb l).
Proof.
  induction l as [|x l IH]; [constructor|]. cbn [JsArr.distinct]. constructor.
  - intros H. apply filter_In in H. destruct H as [_ H]. now rewrite String.eqb_refl in H.
  - now apply NoDup_filter.
Qed.

Lemma profileColumn_counts (host : Host) (rows : Dataset) (columnName : string) :
  let c := profileColumn host rows columnName in
  ColumnProfile.name c = columnName
  /\ ColumnProfile.totalCount c = List.length rows
  /\ ColumnProfile.nullCount c
     = List.length rows - List.length (filter JsVal.nonNull (columnValues rows columnName))
  /\ ColumnProfile.nullCount c + ColumnProfile.uniqueCount c <= List.length rows
  /\ List.length (ColumnProfile.topValues c) <= 5.
Proof.
  cbn zeta. unfold profileColumn.
  set (values := columnValues rows columnName).
  assert (Lv : List.length values = List.length rows) by apply length_map.
  assert (U : List.length (JsArr.distinct String.eqb
                             (map JsVal.toString (filter JsVal.nonNull values)))
              <= List.length (filter JsVal.nonNull values)).
  { etransitivity; [apply distinct_length|]. now rewrite length_map. }
  pose proof (filter_length_le JsVal.nonNull values) as F.
  destruct (detectColumnType host values);
    [destruct (0 <? _)%nat| |destruct (JsArr.sort _ _)| |];
    cbn [ColumnProfile.name ColumnProfile.totalCount ColumnProfile.nullCount
         ColumnProfile.uniqueCount ColumnProfile.topValues];
    rewrite Lv; (repeat split; [lia|apply firstn_le_length]).
Qed.

(** X21: the profile of a non-empty dataset counts its rows, has one column
    profile for each key of the first row, in key order, and in every column
    profile the total is the number of rows, the null count and the count of
    distinct values together do not exceed the total, and at most five top
    values are listed. *)
Theorem profileDataset_counts_are_consistent (host : Host) (row0 : DataRow) (rest : Dataset) :
  DatasetProfile.rowCount (profileDataset host (row0 :: rest)) = S (List.length rest)
  /\ DatasetProfile.columnCount (profileDataset host (row0 :: rest))
     = List.length (JsVal.keys row0)
  /\ map ColumnProfile.name (DatasetProfile.columns (profileDataset host (row0 :: rest)))
     = JsVal.keys row0
  /\ forall c, In c (DatasetProfile.columns (profileDataset host (row0 :: rest))) ->
       ColumnProfile.totalCount c = S (List.length rest)
       /\ ColumnProfile.nullCount c + ColumnProfile.uniqueCount c <= ColumnProfile.totalCount c
       /\ List.length (ColumnProfile.topValues c) <= 5.
Proof.
  unfold profileDataset. cbn [DatasetProfile.rowCount DatasetProfile.columnCount
                              DatasetProfile.columns List.length].
  split; [reflexivity|]. split; [reflexivity|]. split.
  - rewrite map_map. erewrite map_ext; [apply map_id|].
    intros k. apply (profileColumn_counts host (row0 :: rest) k).
  - intros c Hc. apply in_map_iff in Hc. destruct Hc as (k & <- & _).
    destruct (profileColumn_counts host (row0 :: rest) k) as (_ & T & N & U & V).
    cbn [List.length] in *. rewrite T. split; [reflexivity|]. split; [exact U|exact V].
Qed.

(** *** Completeness of a dataset *)







(** ** Queries and charts *)

(** *** Queries that differ by case only *)

Lemma lowerChar_idem (c : ascii) : JsStr.lowerChar (JsStr.lowerChar c) = JsStr.lowerChar c.
Proof. destruct c as [[] [] [] [] [] [] [] []]; reflexivity. Qed.

Lemma isWord_lower (c : ascii) : JsStr.isWord (JsStr.lowerChar c) = JsStr.isWord c.
Proof. destruct c as [[] [] [] [] [] [] [] []]; reflexivity. Qed.

Lemma isSpace_lower (c : ascii) : JsStr.isSpace (JsStr.lowerChar c) = JsStr.isSpace c.
Proof. destruct c as [[] [] [] [] [] [] [] []]; reflexivity. Qed.

Lemma isQuote_lower (c : ascii) : JsStr.isQuote (JsStr.lowerChar c) = JsStr.isQuote c.
Proof. destruct c as [[] [] [] [] [] [] [] []]; reflexivity. Qed.

Lemma toLowerCase_idem (s : string) :
  JsStr.toLowerCase (JsStr.toLowerCase s) = JsStr.toLowerCase s.
Proof. induction s as [|c s IH]; cbn; [reflexivity|now rewrite lowerChar_idem, IH]. Qed.

Lemma list_ascii_lower (s : string) :
  list_ascii_of_string (JsStr.toLowerCase s) = map JsStr.lowerChar (list_ascii_of_string s).
Proof. induction s as [|c s IH]; cbn; [reflexivity|now rewrite IH]. Qed.

Lemma string_of_lower (cs : list ascii) :
  string_of_list_ascii (map JsStr.lowerChar cs) = JsStr.toLowerCase (string_of_list_ascii cs).
Proof. induction cs as [|c cs IH]; cbn; [reflexivity|now rewrite IH]. Qed.

Lemma span_lower (p : ascii -> bool) (cs : list ascii) :
  (forall c, p (JsStr.lowerChar c) = p c) ->
  JsConv.span p (map JsStr.lowerChar cs)
  = (map JsStr.lowerChar (fst (JsConv.span p cs)), map JsStr.lowerChar (snd (JsConv.span p cs))).
Proof.
  intros Hp. induction cs as [|c cs IH]; [reflexivity|].
  cbn [map JsConv.span]. rewrite Hp. destruct (p c); [|reflexivity].
  rewrite IH. destruct (JsConv.span p cs). reflexivity.
Qed.

Lemma literalCI_lower (l cs : list ascii) :
  literalCI l (map JsStr.lowerChar cs) = option_map (map JsStr.lowerChar) (literalCI l cs).
Proof.
  revert cs. induction l as [|a l IH]; intros cs; [reflexivity|].
  destruct cs as [|c cs]; [reflexivity|]. cbn [map literalCI].
  rewrite lowerChar_idem. destruct (Ascii.eqb _ _); [apply IH|reflexivity].
Qed.

Lemma spaces1_lower (cs : list ascii) :
  spaces1 (map JsStr.lowerChar cs) = option_map (map JsStr.lowerChar) (spaces1 cs).
Proof.
  unfold spaces1. rewrite (span_lower _ _ isSpace_lower).
  destruct (JsConv.span JsStr.isSpace cs) as [[|a s] r]; reflexivity.
Qed.

Lemma quotedWord_lower (cs : list ascii) :
  quotedWord (map JsStr.lowerChar cs) = option_map (map JsStr.lowerChar) (quotedWord cs).
Proof.
  unfold quotedWord.
  assert (E : match map JsStr.lowerChar cs with
              | c :: r => if JsStr.isQuote c then r else map JsStr.lowerChar cs
              | [] => []
              end
              = map JsStr.lowerChar (match cs with
                                     | c :: r => if JsStr.isQuote c then r else cs
                                     | [] => []
                                     end)).
  { destruct cs as [|c r]; [reflexivity|]. cbn [map]. rewrite isQuote_lower.
    now destruct (JsStr.isQuote c). }
  rewrite E, (span_lower _ _ isWord_lower).
  destruct (JsConv.span JsStr.isWord _) as [[|a s] r]; reflexivity.
Qed.

Lemma matchColumnWord_lower (cs : list ascii) :
  matchColumnWord (map JsStr.lowerChar cs)
  = option_map (map JsStr.lowerChar) (matchColumnWord cs).
Proof.
  unfold matchColumnWord. rewrite literalCI_lower.
  destruct (literalCI (lit "column") cs) as [r1|]; [|reflexivity]. cbn [option_map].
  rewrite spaces1_lower. destruct (spaces1 r1) as [r2|]; [|reflexivity]. cbn [option_map].
  apply quotedWord_lower.
Qed.

Lemma matchWordColumn_lower (cs : list ascii) :
  matchWordColumn (map JsStr.lowerChar cs)
  = option_map (map JsStr.lowerChar) (matchWordColumn cs).
Proof.
  unfold matchWordColumn. destruct cs as [|c r]; [reflexivity|]. cbn [map].
  rewrite isQuote_lower. destruct (JsStr.isQuote c); [|reflexivity].
  rewrite (span_lower _ _ isWord_lower).
  destruct (JsConv.span JsStr.isWord r) as [[|a w] [|c' r']]; try reflexivity.
  cbn [fst snd map]. rewrite isQuote_lower. destruct (JsStr.isQuote c'); [|reflexivity].
  rewrite spaces1_lower. destruct (spaces1 r') as [r''|]; [|reflexivity]. cbn [option_map].
  rewrite literalCI_lower. destruct (literalCI (lit "column") r''); reflexivity.
Qed.

Lemma matchVerbWord_lower (cs : list ascii) :
  matchVerbWord (map JsStr.lowerChar cs)
  = option_map (map JsStr.lowerChar) (matchVerbWord cs).
Proof.
  unfold matchVerbWord. rewrite !literalCI_lower.
  assert (V : match option_map (map JsStr.lowerChar) (literalCI (lit "what") cs) with
              | Some r => Some r
              | None =>
                  match option_map (map JsStr.lowerChar) (literalCI (lit "explain") cs) with
                  | Some r => Some r
                  | None => option_map (map JsStr.lowerChar) (literalCI (lit "analyze") cs)
                  end
              end
              = option_map (map JsStr.lowerChar)
                  (match literalCI (lit "what") cs with
                   | Some r => Some r
                   | None =>
                       match literalCI (lit "explain") cs with
                       | Some r => Some r
                       | None => literalCI (lit "analyze") cs
                       end
                   end)).
  { destruct (literalCI (lit "what") cs); [reflexivity|].
    destruct (literalCI (lit "explain") cs); reflexivity. }
  rewrite V. clear V.
  destruct (match literalCI (lit "what") cs with Some r => Some r | None => _ end) as [r1|];
    [|reflexivity].
  cbn [option_map]. rewrite spaces1_lower.
  destruct (spaces1 r1) as [r2|]; [|reflexivity]. cbn [option_map].
  rewrite !literalCI_lower, quotedWord_lower.
  destruct (literalCI (lit "is") r2) as [r3|]; cbn [option_map].
  - rewrite (span_lower _ _ isSpace_lower). cbn [snd]. rewrite quotedWord_lower.
    destruct (quotedWord (snd (JsConv.span JsStr.isSpace r3))); reflexivity.
  - destruct (literalCI (lit "about") r2) as [r3|]; cbn [option_map]; [|reflexivity].
    rewrite (span_lower _ _ isSpace_lower). cbn [snd]. rewrite quotedWord_lower.
    destruct (quotedWord (snd (JsConv.span JsStr.isSpace r3))); reflexivity.
Qed.

Lemma matchHere_lower (cs : list ascii) :
  matchHere (map JsStr.lowerChar cs) = option_map (map JsStr.lowerChar) (matchHere cs).
Proof.
  unfold matchHere. rewrite matchColumnWord_lower, matchWordColumn_lower, matchVerbWord_lower.
  destruct (matchColumnWord cs); [reflexivity|]. destruct (matchWordColumn cs); reflexivity.
Qed.

Lemma columnMatch_lower (cs : list ascii) :
  columnMatch (map JsStr.lowerChar cs) = option_map JsStr.toLowerCase (columnMatch cs).
Proof.
  induction cs as [|c cs IH].
  - cbn [map columnMatch]. change (matchHere []) with (@None (list ascii)). reflexivity.
  - cbn [map columnMatch].
    change (JsStr.lowerChar c :: map JsStr.lowerChar cs) with (map JsStr.lowerChar (c :: cs)).
    rewrite matchHere_lower. destruct (matchHere (c :: cs)) as [w|]; cbn [option_map].
    + now rewrite string_of_lower.
    + exact IH.
Qed.

Lemma detectIntent_lower (query : string) :
  detectIntent (JsStr.toLowerCase query)
  = (fst (detectIntent query), option_map JsStr.toLowerCase (snd (detectIntent query))).
Proof.
  unfold detectIntent. rewrite toLowerCase_idem, list_ascii_lower, columnMatch_lower.
  repeat (destruct (_ || _); [reflexivity|]). reflexivity.
Qed.

(** X23: two queries that differ only by the case of their letters get the
    same intent, and the same target column up to case. *)
Theorem detectIntent_ignores_case (query1 query2 : string) :
  JsStr.toLowerCase query1 = JsStr.toLowerCase query2 ->
  fst (detectIntent query1) = fst (detectIntent query2)
  /\ option_map JsStr.toLowerCase (snd (detectIntent query1))
     = option_map JsStr.toLowerCase (snd (detectIntent query2)).
Proof.
  intros H. pose proof (detectIntent_lower query1) as H1.
  pose proof (detectIntent_lower query2) as H2. rewrite H in H1. rewrite H1 in H2.
  injection H2 as E1 E2. split; assumption.
Qed.

Lemma detectIntent_ignores_case_witness :
  fst (detectIntent "Forecast COLUMN Revenue") = fst (detectIntent "forecast column revenue")
  /\ option_map JsStr.toLowerCase (snd (detectIntent "Forecast COLUMN Revenue"))
     = option_map JsStr.toLowerCase (snd (detectIntent "forecast column revenue")).
Proof.
  apply (detectIntent_ignores_case "Forecast COLUMN Revenue" "forecast column revenue").
  reflexivity.
Defined.

(** X24: on a non-empty dataset [analyze] returns a response whose intent is
    the detected intent, except that an explain query without a target
    column is answered by the complete analysis, whose intent is summary. *)
Theorem analyze_answers_detected_intent (host : Host) (query : string)
        (row : DataRow) (rest : Dataset) :
  exists r, analyze host query (Some (row :: rest)) = Normal r
            /\ InsightResponse.intent r
               = match fst (detectIntent query), given (snd (detectIntent query)) with
                 | InsightResponse.explain, None => InsightResponse.summary
                 | intent, _ => intent
                 end.
Proof.
  unfold analyze. destruct (detectIntent query) as [intent t]. cbn [fst snd].
  destruct intent.
  - eexists. split; [reflexivity|]. unfold handleSummaryQuery.
    destruct (given t) as [target|]; [|reflexivity].
    destruct (findColumn _ target); reflexivity.
  - eexists. split; [reflexivity|]. unfold handleAnomalyQuery.
    destruct (given t); reflexivity.
  - destruct (handleForecastQuery_returns (row :: rest) t) as (r & Hr & Hi).
    exists r. split; [exact Hr|]. rewrite Hi. now destruct (given t).
  - eexists. split; [reflexivity|]. unfold handleTrendQuery.
    destruct (given t); reflexivity.
  - eexists. split; [reflexivity|]. unfold handleCorrelationQuery.
    destruct (given t); reflexivity.
  - unfold handleExplainQuery. destruct (given t) as [target|].
    + destruct (findColumn _ target); eexists; split; reflexivity.
    + unfold generateCompleteAnalysis.
      destruct (forecastAll_returns (row :: rest) 7) as (fs & Hfs); [lia|].
      rewrite Hfs. cbn [bindC]. eexists. split; reflexivity.
  - eexists. split; [reflexivity|]. now destruct (given t).
Qed.

(** X25: [suggestVisualizations] lists no chart twice, and only charts among
    line, area, histogram, box, bar, pie, scatter and heatmap. *)
Theorem suggestVisualizations_lists_each_chart_once (profile : DatasetProfile.t)
        (insights : list Insight.t) :
  NoDup (suggestVisualizations profile insights)
  /\ forall chart, In chart (suggestVisualizations profile insights) ->
       In chart ["line"; "area"; "histogram"; "box"; "bar"; "pie"; "scatter"; "heatmap"].
Proof.
  unfold suggestVisualizations. split; [apply distinct_NoDup|].
  intros chart H. apply distinct_In in H.
  repeat (apply in_app_or in H; destruct H as [H|H];
          [match type of H with In _ (if ?b then _ else _) => destruct b end;
           cbn in H; intuition (subst; cbn; tauto)|]).
  match type of H with In _ (if ?b then _ else _) => destruct b end;
    cbn in H; intuition (subst; cbn; tauto).
Qed.

(** ** Constant series *)

(** *** Arithmetic on a constant series *)

Lemma round_exact_class (s : bool) (m : positive) (e : Z) :
  (-1074 <= e)%Z ->
  match binary_round_aux prec emax s (Zpos m) e loc_Exact with
  | S754_finite s' _ _ | S754_infinity s' => s' = s
  | _ => False
  end.
Proof.
  intros He. destruct (Z_lt_le_dec e (E1 m e)) as [C|C].
  - destruct (round_aux_round s m e He C) as (V & _ & _ & _ & R).
    destruct (binary_round_aux _ _ _ _ _ _) as [s'|s'| |s' m' e']; cbn [RoundResult] in R;
      try contradiction; apply R.
  - rewrite round_aux_id by exact C. now destruct (e <=? 971)%Z.
Qed.

Lemma square_tame (x : float) :
  tameSF (Prim2SF x) = true -> positiveSF (Prim2SF (x * x)) = true.
Proof.
  intros T. rewrite mul_spec. unfold SF64mul, SFmul.
  destruct (Prim2SF x) as [s|s| |s m e]; try discriminate.
  - now destruct s.
  - cbn [tameSF] in T. apply Z.leb_le in T. rewrite xorb_nilpotent.
    pose proof (round_exact_class false (m * m) (e + e) ltac:(lia)) as R.
    destruct (binary_round_aux _ _ _ _ _ _) as [s'|s'| |s' m' e']; try contradiction;
      now subst s'.
Qed.

Lemma mul_zero_tame (x : float) :
  tameSF (Prim2SF x) = true -> (0 + x * 0)%float = 0%float.
Proof.
  intros T. apply Prim2SF_inj. rewrite add_spec, mul_spec.
  change (Prim2SF 0) with (S754_zero false).
  destruct (Prim2SF x) as [s|s| |s m e]; try discriminate; now destruct s.
Qed.

Lemma positive_add (d e : float) :
  positiveSF (Prim2SF d) = true -> positiveSF (Prim2SF e) = true ->
  positiveSF (Prim2SF (d + e)) = true.
Proof.
  intros Pd Pe. rewrite add_spec. unfold SF64add, SFadd.
  pose proof (Prim2SF_valid d) as Vd. pose proof (Prim2SF_valid e) as Ve.
  destruct (Prim2SF d) as [sd|sd| |sd md ed], (Prim2SF e) as [se|se| |se me ee];
    try discriminate; try destruct sd; try destruct se; try discriminate; try reflexivity.
  cbn [valid_binary] in Vd, Ve.
  pose proof (bounded_inv _ _ Vd) as (Ed & _). pose proof (bounded_inv _ _ Ve) as (Ee & _).
  cbn [cond_Zopp]. unfold binary_normalize.
  destruct (Zpos _ + Zpos _)%Z as [|n|n] eqn:K; try lia.
  destruct (binary_round_spec false n (Z.min ed ee) ltac:(lia)) as (V & _ & _ & _ & R).
  destruct (binary_round _ _ _ _ _) as [s'|s'| |s' m' e']; cbn [RoundResult] in R;
    try contradiction; destruct R as [-> _]; reflexivity.
Qed.

Lemma zero_div_positive (d : float) :
  positiveSF (Prim2SF d) = true ->
  (if JsNum.sneq d 0 then 0 / d else 0)%float = 0%float.
Proof.
  intros P. unfold JsNum.sneq. rewrite FloatAxioms.eqb_spec.
  change (Prim2SF 0) with (S754_zero false).
  destruct (Prim2SF d) as [s|s| |s m e] eqn:E; try discriminate.
  - reflexivity.
  - destruct s; [discriminate|]. cbn [SFeqb SFcompare negb].
    apply Prim2SF_inj. rewrite div_spec, E. reflexivity.
  - destruct s; [discriminate|]. cbn [SFeqb SFcompare negb].
    apply Prim2SF_inj. rewrite div_spec, E. reflexivity.
Qed.

Lemma sub_neg_exact (x y : float) (a b : Z) (m0 : positive) (e0 : Z) :
  SFval (Prim2SF x) = Some a -> SFval (Prim2SF y) = Some b -> (0 <= a < b)%Z ->
  bounded prec emax m0 e0 = true -> mag m0 e0 = (b - a)%Z ->
  Prim2SF (x - y) = S754_finite true m0 e0.
Proof.
  intros Hx Hy Hab B0 M0. rewrite sub_spec.
  pose proof (Prim2SF_valid x) as Vx. pose proof (Prim2SF_valid y) as Vy.
  destruct (Prim2SF y) as [sy|sy| |sy my ey]; try discriminate; cbn [SFval] in Hy;
    inversion Hy; subst b; clear Hy; [lia|].
  cbn [valid_binary] in Vy. pose proof (bounded_inv _ _ Vy) as (Ey & _).
  pose proof (mag_pos my ey ltac:(unfold base; lia)) as Py.
  destruct sy; [lia|].
  destruct (Prim2SF x) as [sx|sx| |sx mx ex]; try discriminate; cbn [SFval] in Hx;
    inversion Hx; subst a; clear Hx; unfold SF64sub, SFsub.
  - rewrite Z.sub_0_r in M0. destruct (mag_inj _ _ _ _ B0 Vy M0) as [-> ->]. reflexivity.
  - cbn [valid_binary] in Vx. pose proof (bounded_inv _ _ Vx) as (Ex & _).
    pose proof (mag_pos mx ex ltac:(unfold base; lia)) as Px.
    destruct sx; [lia|].
    destruct (margin_env mx my ex ey Vx Vy) as (Hez & Ax & Ay & P & _ & _).
    cbn [cond_Zopp]. unfold binary_normalize.
    destruct (Zpos _ - Zpos _)%Z as [|n|n] eqn:K; try nia.
    apply round_repr; [lia|exact B0|]. rewrite M0. unfold mag at 1. nia.
Qed.

Lemma xDiff_tame (i m : nat) :
  (i < m)%nat -> (2 <= m)%nat -> (Z.of_nat m < 2 ^ 32)%Z ->
  tameSF (Prim2SF (JsNum.N2F i - Z2F (Z.of_nat m - 1) / 2)) = true.
Proof.
  intros Hi Hm B. unfold JsNum.N2F.
  assert (P32 : (2 ^ 32 < 2 ^ 53)%Z) by reflexivity.
  pose proof (Z2F_val (Z.of_nat i) ltac:(lia)) as Vi.
  pose proof (Z2F_div_2 (Z.of_nat m - 1) ltac:(lia)) as Vm.
  assert (Hb : (2 ^ base = 2 * 2 ^ (base - 1))%Z) by reflexivity.
  assert (Pb : (0 < 2 ^ (base - 1))%Z) by reflexivity.
  destruct (Z.lt_trichotomy (2 * Z.of_nat i) (Z.of_nat m - 1)) as [C|[C|C]].
  - set (j := (Z.of_nat m - 1 - 2 * Z.of_nat i)%Z).
    destruct (scaled_repr j 1 ltac:(unfold j; lia) ltac:(lia)) as (m0 & B0 & M0 & _).
    rewrite (sub_neg_exact _ _ _ _ m0 (Z.log2 j - 52 - 1) Vi Vm); [| |exact B0|].
    + cbn [tameSF]. apply Z.leb_le. pose proof (Z.log2_nonneg j). lia.
    + split; [lia|]. rewrite Hb. nia.
    + rewrite M0. unfold j. rewrite Hb. ring.
  - assert (E : Z2F (Z.of_nat i) = (Z2F (Z.of_nat m - 1) / 2)%float).
    { apply Prim2SF_inj.
      pose proof (Prim2SF_valid (Z2F (Z.of_nat i))) as V1.
      pose proof (Prim2SF_valid (Z2F (Z.of_nat m - 1) / 2)) as V2.
      assert (Q : (Z.of_nat i * 2 ^ base = (Z.of_nat m - 1) * 2 ^ (base - 1))%Z).
      { rewrite Hb, <- C. ring. }
      assert (Q0 : (0 < Z.of_nat i * 2 ^ base)%Z) by (rewrite Hb; nia).
      rewrite <- Q in Vm.
      destruct (Prim2SF (Z2F (Z.of_nat i))) as [s1|s1| |s1 m1 e1]; try discriminate Vi;
        cbn [SFval] in Vi; [inversion Vi; lia|].
      destruct (Prim2SF (Z2F (Z.of_nat m - 1) / 2)) as [s2|s2| |s2 m2 e2]; try discriminate Vm;
        cbn [SFval] in Vm; [inversion Vm; lia|].
      cbn [valid_binary] in V1, V2.
      pose proof (bounded_inv _ _ V1) as (X1 & _). pose proof (bounded_inv _ _ V2) as (X2 & _).
      pose proof (mag_pos m1 e1 ltac:(unfold base; lia)).
      pose proof (mag_pos m2 e2 ltac:(unfold base; lia)).
      destruct s1; [inversion Vi; lia|]. destruct s2; [inversion Vm; lia|].
      inversion Vi as [W1]. inversion Vm as [W2].
      destruct (mag_inj m1 m2 e1 e2 V1 V2 ltac:(lia)) as [-> ->]. reflexivity. }
    rewrite <- E. rewrite sub_spec. unfold SF64sub, SFsub.
    destruct (Prim2SF (Z2F (Z.of_nat i))) as [s1|s1| |s1 m1 e1]; try discriminate Vi.
    + now destruct s1.
    + unfold binary_normalize. now rewrite Z.sub_diag.
  - set (j := (2 * Z.of_nat i - (Z.of_nat m - 1))%Z).
    destruct (scaled_repr j 1 ltac:(unfold j; lia) ltac:(lia)) as (m0 & B0 & M0 & _).
    rewrite (sub_pos_exact _ _ _ _ m0 (Z.log2 j - 52 - 1) Vi Vm); [| |exact B0|].
    + cbn [tameSF]. apply Z.leb_le. pose proof (Z.log2_nonneg j). lia.
    + split; [nia|]. rewrite Hb. nia.
    + rewrite M0. unfold j. rewrite Hb. ring.
Qed.

Lemma zero_mul_half (z : Z) : (0 < z < 2 ^ 53)%Z -> (0 * (Z2F z / 2))%float = 0%float.
Proof.
  intros Hz. apply Prim2SF_inj. rewrite mul_spec.
  pose proof (Z2F_div_2 z Hz) as V. pose proof (Prim2SF_valid (Z2F z / 2)) as B.
  assert (P : (0 < z * 2 ^ (base - 1))%Z) by (apply Z.mul_pos_pos; [lia|reflexivity]).
  destruct (Prim2SF (Z2F z / 2)) as [s|s| |s m e]; try discriminate V;
    cbn [SFval] in V; inversion V as [W]; [lia|].
  destruct s; [|reflexivity].
  cbn [valid_binary] in B. apply bounded_inv in B. destruct B as (E & _).
  pose proof (mag_pos m e ltac:(unfold base; lia)). lia.
Qed.

(** The regression line through a constant series is flat: every [yDiff] is
    zero, every [xDiff] is finite, and the denominator is a sum of squares. *)
Lemma linearRegression_constant (c : float) (m : nat) :
  PrimFloat.is_finite c = true -> (Z.of_nat m < 2 ^ 32)%Z ->
  ((2 <= m)%nat -> mean (repeat c m) = c) ->
  slope (linearRegression (repeat c m)) = 0%float
  /\ r2 (linearRegression (repeat c m)) = 0%float
  /\ ((2 <= m)%nat -> intercept (linearRegression (repeat c m)) = c).
Proof.
  intros Fc B Hm. unfold linearRegression. rewrite repeat_length.
  destruct (m <? 2)%nat eqn:E;
    [apply Nat.ltb_lt in E; split; [reflexivity|split; [reflexivity|lia]]|].
  apply Nat.ltb_ge in E. rewrite (Hm E).
  match goal with
  | |- context [fold_left ?f ?l (?a, ?b, ?d)] =>
      pose proof (fold_left_invariant f
        (fun acc => fst (fst acc) = 0%float
                    /\ positiveSF (Prim2SF (snd (fst acc))) = true
                    /\ snd acc = 0%float)
        (fun iv => (fst iv < m)%nat /\ snd iv = c) l (a, b, d)) as Inv
  end.
  cbv beta in Inv.
  match type of Inv with
  | _ -> _ -> _ -> ?G => assert (K : G)
  end.
  { apply Inv; clear Inv.
    - repeat split.
    - apply Forall_forall. intros [i v] Hin. split.
      + apply indexed_nth_error in Hin.
        assert (Hl : (i < List.length (repeat c m))%nat)
          by (apply nth_error_Some; congruence).
        now rewrite repeat_length in Hl.
      + now apply indexed_repeat_snd in Hin.
    - intros [[num den] sst] [i v] (N & D & S) [Hi Hv]. cbn [fst snd] in *. subst num sst v.
      rewrite (sub_self c Fc).
      pose proof (xDiff_tame i m Hi E B) as T.
      split; [|split].
      + now apply mul_zero_tame.
      + apply positive_add; [exact D|]. now apply square_tame.
      + reflexivity. }
  clear Inv.
  destruct (fold_left _ _ _) as [[num den] sst]. cbn [fst snd] in K.
  destruct K as (-> & D & ->). cbn [slope r2 intercept].
  rewrite (zero_div_positive den D).
  split; [reflexivity|]. split; [reflexivity|]. intros _.
  rewrite (zero_mul_half (Z.of_nat m - 1)) by lia. apply sub_zero.
Qed.

Lemma get_repeat (c : float) (m i : nat) : (i < m)%nat -> JsNum.get (repeat c m) i = c.
Proof.
  intros H. unfold JsNum.get. apply (repeat_spec m c).
  apply nth_In. now rewrite repeat_length.
Qed.

Lemma movingAverage_constant (c : float) (n w : nat) :
  (1 <= w <= n)%nat -> mean (repeat c w) = c ->
  movingAverage (repeat c n) w = repeat c (n - w + 1).
Proof.
  intros H M. unfold movingAverage. rewrite repeat_length.
  destruct (n <? w)%nat eqn:E; [apply Nat.ltb_lt in E; lia|].
  rewrite <- (length_seq (n - w + 1) 0) at 2. rewrite <- map_const.
  apply map_ext_in. intros i Hi. apply in_seq in Hi.
  rewrite slice_repeat by lia. replace (i + w - i)%nat with w by lia. exact M.
Qed.

Lemma changePct_constant (c : float) :
  PrimFloat.is_finite c = true ->
  (if JsNum.sneq c 0 then (c - c) / JsNum.abs c * 100 else 0)%float = 0%float.
Proof.
  intros F. rewrite (sub_self c F). apply is_finite_spec in F.
  unfold JsNum.sneq, JsNum.abs. rewrite FloatAxioms.eqb_spec.
  change (Prim2SF 0) with (S754_zero false).
  destruct (Prim2SF c) as [s|s| |s m e] eqn:E; try contradiction.
  - reflexivity.
  - replace (0 / abs c)%float with 0%float; [now destruct s|].
    apply Prim2SF_inj. rewrite div_spec, abs_spec, E. reflexivity.
Qed.

Lemma flat_prediction (z i : Z) :
  (0 <= z < 2 ^ 53)%Z -> (1 <= i < 2 ^ 53)%Z -> (Z2F z + 0 * Z2F i)%float = Z2F z.
Proof.
  intros Hz Hi.
  replace (0 * Z2F i)%float with 0%float.
  - destruct (Z.eq_dec z 0) as [->|N]; [reflexivity|].
    apply (add_zero_pos (Z2F z) (z * 2 ^ base)); [apply Z2F_val; lia|].
    apply Z.mul_pos_pos; [lia|reflexivity].
  - apply Prim2SF_inj. rewrite mul_spec.
    destruct (Z2F_pos_spec i ltac:(lia)) as (m & e & -> & _). reflexivity.
Qed.

Lemma Z2F_add_zero (z : Z) : (0 <= z < 2 ^ 53)%Z -> (Z2F z + 0)%float = Z2F z.
Proof.
  intros Hz. destruct (Z.eq_dec z 0) as [->|N]; [reflexivity|].
  apply (add_zero_pos (Z2F z) (z * 2 ^ base)); [apply Z2F_val; lia|].
  apply Z.mul_pos_pos; [lia|reflexivity].
Qed.

Lemma Z2F_is_finite (z : Z) : (0 < z < 2 ^ 53)%Z -> PrimFloat.is_finite (Z2F z) = true.
Proof.
  intros Hz. destruct (Z2F_pos_spec z Hz) as (m & e & E & _).
  unfold PrimFloat.is_finite, PrimFloat.is_nan, PrimFloat.is_infinity.
  rewrite !FloatAxioms.eqb_spec, abs_spec, E.
  change (Prim2SF infinity) with (S754_infinity false).
  cbn [SFabs SFeqb SFcompare]. now rewrite Z.compare_refl, Pos.compare_cont_refl.
Qed.

(** *** Rounding without overflow *)

Local Open Scope Z_scope.

Lemma shr_m_step (r : shr_record) : 0 <= shr_m r -> shr_m (shr_1 r) = shr_m r / 2.
Proof. destruct r as [m r s]. cbn [shr_m]. intros H. now rewrite shr_1_nonneg. Qed.

Lemma shr_m_iter (p : positive) :
  forall r : shr_record, 0 <= shr_m r -> shr_m (iter_pos shr_1 p r) = shr_m r / 2 ^ Zpos p.
Proof.
  assert (Half : forall a, 0 <= a -> 0 <= a / 2) by (intros; apply Z.div_pos; lia).
  assert (Pow : forall a q, 0 <= a -> 0 <= a / 2 ^ Zpos q).
  { intros a q Ha. apply Z.div_pos; [exact Ha|]. apply pow2_pos. lia. }
  induction p as [p IH|p IH|]; intros r H; cbn [iter_pos].
  - pose proof (shr_m_step r H) as S1.
    assert (H1 : 0 <= shr_m (shr_1 r)) by (rewrite S1; auto).
    pose proof (IH _ H1) as S2.
    assert (H2 : 0 <= shr_m (iter_pos shr_1 p (shr_1 r))) by (rewrite S2; auto).
    rewrite (IH _ H2), S2, S1.
    assert (P : 0 < 2 ^ Zpos p) by (apply pow2_pos; lia).
    rewrite !Z.div_div by lia.
    f_equal. replace (Zpos p~1) with (1 + Zpos p + Zpos p) by lia.
    rewrite !Z.pow_add_r, Z.pow_1_r by lia. ring.
  - pose proof (IH _ H) as S1.
    assert (H1 : 0 <= shr_m (iter_pos shr_1 p r)) by (rewrite S1; auto).
    rewrite (IH _ H1), S1.
    assert (P : 0 < 2 ^ Zpos p) by (apply pow2_pos; lia).
    rewrite Z.div_div by lia.
    f_equal. replace (Zpos p~0) with (Zpos p + Zpos p) by lia.
    now rewrite Z.pow_add_r by lia.
  - rewrite shr_m_step by exact H. reflexivity.
Qed.

Lemma Zdigits2_log2 (m : Z) : 0 < m -> Zdigits2 m = Z.log2 m + 1.
Proof. destruct m as [|p|p]; try lia. intros _. apply digits2_pos_log2. Qed.

Lemma Zdigits2_bound (m b : Z) : 0 <= b -> 0 <= m <= 2 ^ b -> Zdigits2 m <= b + 1.
Proof.
  intros Hb [H0 H1]. destruct (Z.eq_dec m 0) as [->|N]; [cbn; lia|].
  rewrite Zdigits2_log2 by lia.
  pose proof (Z.log2_le_mono m (2 ^ b) H1) as L. rewrite Z.log2_pow2 in L by exact Hb. lia.
Qed.

Lemma Zdigits2_lt (m : Z) : 0 <= m -> m < 2 ^ Zdigits2 m.
Proof.
  intros H. destruct (Z.eq_dec m 0) as [->|N]; [reflexivity|].
  rewrite Zdigits2_log2 by lia. apply log2_bounds. lia.
Qed.

Lemma Zdigits2_nonneg (m : Z) : 0 <= m -> 0 <= Zdigits2 m.
Proof.
  intros H. destruct (Z.eq_dec m 0) as [->|N]; [cbn; lia|].
  rewrite Zdigits2_log2 by lia. pose proof (Z.log2_nonneg m). lia.
Qed.

(** The renormalisation yields a finite float when the rounded mantissa is
    below the overflow threshold. *)
Lemma finish_finite (s : bool) (m e : Z) :
  0 <= m -> e <= 971 -> Zdigits2 m + e <= 1024 -> finiteSF s (finish s m e) = true.
Proof.
  intros Hm He Hd. unfold finish, shr_fexp. rewrite fexp_eq.
  set (k := Z.max (Zdigits2 m + e - 53) (-1074) - e).
  destruct k as [|p|p] eqn:K; cbn [shr shr_record_of_loc shr_m].
  - destruct m as [|q|q]; try lia; cbn [finiteSF]; [apply eqb_reflx|].
    destruct (e <=? 971) eqn:O; [apply eqb_reflx|apply Z.leb_gt in O; lia].
  - rewrite shr_m_iter by (cbn; lia). cbn [shr_m].
    assert (Q : 0 <= m / 2 ^ Zpos p) by (apply Z.div_pos; [lia|apply pow2_pos; lia]).
    destruct (m / 2 ^ Zpos p) as [|q|q]; try lia; cbn [finiteSF]; [apply eqb_reflx|].
    destruct (e + Zpos p <=? 971) eqn:O; [apply eqb_reflx|apply Z.leb_gt in O; lia].
  - destruct m as [|q|q]; try lia; cbn [finiteSF]; [apply eqb_reflx|].
    destruct (e <=? 971) eqn:O; [apply eqb_reflx|apply Z.leb_gt in O; lia].
Qed.

Lemma round_nearest_even_bound (m : Z) (l : location) :
  m <= round_nearest_even m l <= m + 1.
Proof. destruct l as [|[]]; cbn [round_nearest_even]; try destruct (Z.even m); lia. Qed.

(** Rounding a mantissa with any location never overflows when the value is
    below [2^1023]. *)
Lemma round_aux_finite (s : bool) (m e : Z) (l : location) :
  0 <= m -> e <= 971 -> Zdigits2 m + e <= 1023 ->
  finiteSF s (binary_round_aux prec emax s m e l) = true.
Proof.
  intros Hm He Hd.
  assert (F : binary_round_aux prec emax s m e l
              = let r := shr_fexp prec emax m e l in
                finish s (round_nearest_even (shr_m (fst r)) (loc_of_shr_record (fst r)))
                       (snd r)).
  { unfold binary_round_aux, finish. destruct (shr_fexp prec emax m e l) as [r e'].
    reflexivity. }
  rewrite F. cbv zeta. clear F. unfold shr_fexp. rewrite fexp_eq.
  pose proof (Zdigits2_nonneg m Hm) as Dn. pose proof (Zdigits2_lt m Hm) as Dl.
  set (d := Zdigits2 m) in *.
  set (k := Z.max (d + e - 53) (-1074) - e).
  assert (Keep : forall r : shr_record, shr_m r = m ->
            finiteSF s (finish s (round_nearest_even (shr_m r) (loc_of_shr_record r)) e)
            = true).
  { intros r Hr. rewrite Hr.
    pose proof (round_nearest_even_bound m (loc_of_shr_record r)) as [R0 R1].
    apply finish_finite; [lia|exact He|].
    pose proof (Zdigits2_bound (round_nearest_even m (loc_of_shr_record r)) d Dn
                  ltac:(lia)). lia. }
  assert (Rec : shr_m (shr_record_of_loc m l) = m) by (now destruct l as [|[]]).
  destruct k as [|p|p] eqn:K; cbn [shr fst snd]; try (apply Keep; exact Rec).
  set (r := iter_pos shr_1 p (shr_record_of_loc m l)).
  assert (Hr : shr_m r = m / 2 ^ Zpos p) by (unfold r; rewrite shr_m_iter, Rec; lia).
  rewrite Hr.
  assert (P : 0 < 2 ^ Zpos p) by (apply pow2_pos; lia).
  assert (Q0 : 0 <= m / 2 ^ Zpos p) by (apply Z.div_pos; lia).
  pose proof (round_nearest_even_bound (m / 2 ^ Zpos p) (loc_of_shr_record r)) as [R0 R1].
  set (b := Z.max (d - Zpos p) 0).
  assert (Q1 : m / 2 ^ Zpos p < 2 ^ b).
  { apply Z.div_lt_upper_bound; [exact P|]. rewrite <- Z.pow_add_r by lia.
    eapply Z.lt_le_trans; [exact Dl|]. apply Z.pow_le_mono_r; lia. }
  apply finish_finite; [lia|lia|].
  pose proof (Zdigits2_bound (round_nearest_even (m / 2 ^ Zpos p) (loc_of_shr_record r)) b
                ltac:(lia) ltac:(lia)). lia.
Qed.

(** A quotient of finite floats is finite unless it is very large. *)
Lemma SFdiv_finite (sx sy : bool) (mx my : positive) (ex ey : Z) :
  Zpos (digits2_pos mx) + ex - (Zpos (digits2_pos my) + ey) <= 1000 ->
  finiteSF (xorb sx sy)
           (SFdiv prec emax (S754_finite sx mx ex) (S754_finite sy my ey)) = true.
Proof.
  intros H. unfold SFdiv, SFdiv_core_binary.
  change (Zdigits2 (Zpos mx)) with (Zpos (digits2_pos mx)).
  change (Zdigits2 (Zpos my)) with (Zpos (digits2_pos my)).
  rewrite fexp_eq.
  set (d1 := Zpos (digits2_pos mx)) in *. set (d2 := Zpos (digits2_pos my)) in *.
  set (e' := Z.min (Z.max (d1 + ex - (d2 + ey) - 53) (-1074)) (ex - ey)).
  set (s := ex - ey - e').
  set (m' := match s with Zpos _ => Z.shiftl (Zpos mx) s | Z0 => Zpos mx | Zneg _ => 0 end).
  assert (Hs : 0 <= s) by (unfold s, e'; lia).
  assert (Hm' : m' = Zpos mx * 2 ^ s).
  { unfold m'. destruct s as [|p|p] eqn:S; try lia.
    now rewrite Z.shiftl_mul_pow2. }
  clearbody m'.
  destruct (Z.div_eucl m' (Zpos my)) as [q r] eqn:DE.
  assert (Hq : q = m' / Zpos my) by (unfold Z.div; now rewrite DE).
  assert (P : 0 < 2 ^ s) by now apply pow2_pos.
  assert (Q0 : 0 <= q) by (subst q; apply Z.div_pos; nia).
  apply round_aux_finite; [exact Q0|unfold e'; lia|].
  destruct (Z.eq_dec q 0) as [->|N]; [cbn [Zdigits2]; unfold e'; lia|].
  rewrite Zdigits2_log2 by lia.
  assert (L1 : Z.log2 (Zpos mx) = d1 - 1) by (unfold d1; rewrite digits2_pos_log2; lia).
  assert (L2 : Z.log2 (Zpos my) = d2 - 1) by (unfold d2; rewrite digits2_pos_log2; lia).
  pose proof (Z.log2_nonneg (Zpos my)) as N2.
  pose proof (Z.log2_nonneg q) as Nq.
  assert (M : q * Zpos my <= m').
  { subst q. rewrite Z.mul_comm. apply Z.mul_div_le. lia. }
  assert (L : Z.log2 q + Z.log2 (Zpos my) <= Z.log2 m').
  { eapply Z.le_trans; [apply Z.log2_mul_below; lia|]. now apply Z.log2_le_mono. }
  rewrite Hm', Z.log2_mul_pow2 in L by lia.
  unfold s in L. lia.
Qed.

(** The square root of a finite float is finite. *)
Lemma SFsqrt_finite (mx : positive) (ex : Z) :
  bounded prec emax mx ex = true ->
  finiteSF false (SFsqrt prec emax (S754_finite false mx ex)) = true.
Proof.
  intros B. apply bounded_inv in B. destruct B as (E & L & _).
  unfold SFsqrt, SFsqrt_core_binary.
  change (Zdigits2 (Zpos mx)) with (Zpos (digits2_pos mx)).
  rewrite digits2_pos_log2, fexp_eq, !Z.div2_div.
  set (d := Z.log2 (Zpos mx) + 1) in *.
  set (e' := Z.min (Z.max ((d + ex + 1) / 2 - 53) (-1074)) (ex / 2)).
  set (s := ex - 2 * e').
  set (m' := match s with Zpos _ => Z.shiftl (Zpos mx) s | Z0 => Zpos mx | Zneg _ => 0 end).
  assert (Hs : 0 <= s).
  { unfold s, e'. pose proof (Z.mul_div_le ex 2 ltac:(lia)). lia. }
  assert (Hm' : m' = Zpos mx * 2 ^ s).
  { unfold m'. destruct s as [|p|p] eqn:S; try lia.
    now rewrite Z.shiftl_mul_pow2. }
  clearbody m'.
  assert (P : 0 < 2 ^ s) by now apply pow2_pos.
  pose proof (Z.sqrtrem_spec m' ltac:(nia)) as R.
  destruct (Z.sqrtrem m') as [q r]. destruct R as [R1 R2].
  assert (Q0 : 0 <= q) by lia.
  assert (He' : e' <= 971).
  { unfold e'. pose proof (Z.div_le_upper_bound (d + ex + 1) 2 1024 ltac:(lia) ltac:(lia)).
    lia. }
  apply round_aux_finite; [exact Q0|exact He'|].
  destruct (Z.eq_dec q 0) as [->|N]; [cbn [Zdigits2]; lia|].
  rewrite Zdigits2_log2 by lia.
  pose proof (Z.log2_nonneg q) as Nq.
  assert (Lq : Z.log2 q + Z.log2 q <= Z.log2 m').
  { eapply Z.le_trans; [apply Z.log2_mul_below; lia|]. apply Z.log2_le_mono. nia. }
  rewrite Hm', Z.log2_mul_pow2 in Lq by lia.
  unfold s in Lq. lia.
Qed.

Local Close Scope Z_scope.

Lemma zero_mul_sqrt_finite (x : float) :
  finiteSF false (Prim2SF x) = true -> (0 * PrimFloat.sqrt x)%float = 0%float.
Proof.
  intros F. apply Prim2SF_inj. rewrite mul_spec, sqrt_spec.
  pose proof (Prim2SF_valid x) as V.
  change (Prim2SF 0) with (S754_zero false). unfold SF64mul, SF64sqrt.
  destruct (Prim2SF x) as [s|s| |s m e]; try discriminate; destruct s; try discriminate.
  - reflexivity.
  - cbn [valid_binary] in V. pose proof (SFsqrt_finite m e V) as S.
    destruct (SFsqrt prec emax _) as [s|s| |s m' e']; try discriminate;
      destruct s; try discriminate; reflexivity.
Qed.

Lemma div_Z2F_finite (i w : Z) :
  (0 < i < 2 ^ 53)%Z -> (0 < w < 2 ^ 53)%Z ->
  finiteSF false (Prim2SF (Z2F i / Z2F w)) = true.
Proof.
  intros Hi Hw. rewrite div_spec.
  destruct (Z2F_pos_exp i Hi) as (m1 & -> & _ & _ & L1).
  destruct (Z2F_pos_exp w Hw) as (m2 & -> & _ & _ & L2).
  apply (SFdiv_finite false false). rewrite !digits2_pos_log2, L1, L2.
  pose proof (Z.log2_nonneg w).
  assert (Z.log2 i <= 52)%Z; [|lia].
  pose proof (Z.log2_lt_pow2 i 53 ltac:(lia)). lia.
Qed.

Lemma rolling_interval_constant (c : float) (i : Z) (w : nat) :
  (0 < i < 2 ^ 53)%Z -> (0 < Z.of_nat w < 2 ^ 53)%Z ->
  (c - 0 * 1.5 * JsNum.sqrt (Z2F i / JsNum.N2F w))%float = c
  /\ (0 * 1.5 * JsNum.sqrt (Z2F i / JsNum.N2F w))%float = 0%float.
Proof.
  intros Hi Hw. change (0 * 1.5)%float with 0%float. unfold JsNum.sqrt, JsNum.N2F.
  rewrite (zero_mul_sqrt_finite _ (div_Z2F_finite i (Z.of_nat w) Hi Hw)).
  split; [apply sub_zero|reflexivity].
Qed.

(** *** The rolling forecast of a constant series *)

Lemma periodsLoop_bound (periods i : Z) : In i (periodsLoop periods) -> (i <= periods)%Z.
Proof.
  unfold periodsLoop. intros H. apply in_map_iff in H. destruct H as (k & <- & H).
  apply in_seq in H. lia.
Qed.

Lemma rollingForecast_constant (z : Z) (n : nat) (periods : Z) :
  (5 <= n)%nat -> (Z.of_nat n < 2 ^ 32)%Z -> (0 <= z)%Z -> (Z.of_nat n * z < 2 ^ 53)%Z ->
  (1 <= periods < 2 ^ 53)%Z -> PrimFloat.is_finite (Z2F z) = true ->
  exists preds,
    rollingForecast (repeat (Z2F z) n) periods None = Normal (preds, "stable outlook")
    /\ List.length preds = Z.to_nat periods
    /\ (forall p, In p preds ->
          Forecast.value p = Z2F z
          /\ Forecast.lower (Forecast.confidence p) = Z2F z
          /\ Forecast.upper (Forecast.confidence p) = Z2F z).
Proof.
  intros Hn Bn Hz Hnz Hp Fc. unfold rollingForecast. rewrite repeat_length.
  set (w := Nat.max 3 (n / 5)).
  assert (Hw : (3 <= w <= n)%nat).
  { unfold w. pose proof (Nat.Div0.div_le_upper_bound n 5 n ltac:(lia)). lia. }
  assert (Mean : forall k, (1 <= k <= n)%nat -> mean (repeat (Z2F z) k) = Z2F z).
  { intros k Hk. apply mean_repeat_Z2F; [exact Hz|lia|nia]. }
  rewrite movingAverage_constant by (try apply Mean; lia).
  rewrite repeat_length, get_repeat by lia.
  rewrite (standardDeviation_constant (Z2F z) n Fc ltac:(lia) (Mean n ltac:(lia))).
  destruct (linearRegression_constant (Z2F z) (n - w + 1) Fc ltac:(lia)) as (-> & _ & _).
  { intros _. apply Mean. lia. }
  set (preds := map _ (periodsLoop periods)).
  assert (Hl : List.length preds = Z.to_nat periods)
    by (unfold preds; now rewrite length_map, periodsLoop_length).
  assert (Hv : forall p, In p preds ->
            Forecast.value p = Z2F z
            /\ Forecast.lower (Forecast.confidence p) = Z2F z
            /\ Forecast.upper (Forecast.confidence p) = Z2F z).
  { intros p Hin. unfold preds in Hin. apply in_map_iff in Hin.
    destruct Hin as (i & <- & Hi).
    cbn [Forecast.value Forecast.confidence Forecast.lower Forecast.upper].
    pose proof (periodsLoop_pos _ _ Hi). pose proof (periodsLoop_bound _ _ Hi).
    rewrite (flat_prediction z i) by nia.
    destruct (rolling_interval_constant (Z2F z) i w ltac:(lia) ltac:(lia)) as [-> ->].
    rewrite Z2F_add_zero by nia. repeat split. }
  destruct (propOf_defined preds 0 "value") as (a & Ha & Ia); [lia|].
  destruct (propOf_defined preds (periods - 1) "value") as (b & Hb & Ib); [lia|].
  rewrite Ha. cbn [bindC]. rewrite Hb. cbn [bindC].
  rewrite (proj1 (Hv a Ia)), (proj1 (Hv b Ib)), (changePct_constant _ Fc).
  exists preds. split; [reflexivity|]. split; assumption.
Qed.

(** X26: the regression line through a constant series is the horizontal line
    through it.  For a series of [n] copies of a non-negative integer [z],
    with [n] from 2 to below 2^32 and [n * z] below 2^53, [linearRegression]
    returns the slope 0, the intercept [z] and the coefficient of
    determination 0, exactly: no rounding error of the sums tilts the line. *)
Theorem regression_line_of_constant_series (z : Z) (n : nat) :
  (2 <= n)%nat -> (Z.of_nat n < 2 ^ 32)%Z -> (0 <= z)%Z -> (Z.of_nat n * z < 2 ^ 53)%Z ->
  linearRegression (repeat (Z2F z) n) = {| slope := 0; intercept := Z2F z; r2 := 0 |}.
Proof.
  intros Hn Bn Hz Hnz.
  assert (Fc : PrimFloat.is_finite (Z2F z) = true).
  { destruct (Z.eq_dec z 0) as [->|N]; [reflexivity|]. apply Z2F_is_finite. nia. }
  assert (Mean : mean (repeat (Z2F z) n) = Z2F z)
    by (apply mean_repeat_Z2F; [exact Hz|lia|exact Hnz]).
  destruct (linearRegression_constant (Z2F z) n Fc Bn (fun _ => Mean)) as (S & R & I).
  specialize (I Hn).
  destruct (linearRegression (repeat (Z2F z) n)) as [s i r]. cbn in S, R, I. now subst.
Qed.

Lemma regression_line_of_constant_series_witness :
  linearRegression (repeat 7%float 6) = {| slope := 0; intercept := 7; r2 := 0 |}.
Proof.
  apply (regression_line_of_constant_series 7 6).
  - lia.
  - reflexivity.
  - lia.
  - reflexivity.
Defined.

(** X27: a flat series is forecast flat.  For a column whose numeric values are
    [n] copies of a non-negative integer [z], with [n] from 5 to below 2^32
    and [n * z] below 2^53, and for a number of periods from 1 to below 2^53,
    [forecast] with the automatic selection chooses the rolling average,
    reports a stable outlook and returns [periods] predictions, each of which
    has the value [z] and a confidence interval from [z] to [z]. *)
Theorem constant_series_is_forecast_flat (rows : Dataset) (columnName : string)
        (n : nat) (z periods : Z) :
  extractNumericValues rows columnName = repeat (Z2F z) n ->
  (5 <= n)%nat -> (Z.of_nat n < 2 ^ 32)%Z ->
  (0 <= z)%Z -> (Z.of_nat n * z < 2 ^ 53)%Z -> (1 <= periods < 2 ^ 53)%Z ->
  exists f,
    forecast rows columnName periods Forecast.auto = Normal f
    /\ Forecast.method_ f = Forecast.rolling
    /\ Forecast.trend f = "stable outlook"
    /\ List.length (Forecast.predictions f) = Z.to_nat periods
    /\ (forall p, In p (Forecast.predictions f) ->
          Forecast.value p = Z2F z
          /\ Forecast.lower (Forecast.confidence p) = Z2F z
          /\ Forecast.upper (Forecast.confidence p) = Z2F z).
Proof.
  intros Hv Hn Bn Hz Hnz Hp.
  assert (Fc : PrimFloat.is_finite (Z2F z) = true).
  { assert (I : In (Z2F z) (extractNumericValues rows columnName)).
    { rewrite Hv. destruct n; [lia|]. now left. }
    unfold extractNumericValues in I. apply filter_In in I as [_ I].
    apply andb_true_iff in I as [_ I]. exact I. }
  assert (Mean : mean (repeat (Z2F z) n) = Z2F z)
    by (apply mean_repeat_Z2F; [exact Hz|lia|exact Hnz]).
  unfold forecast. rewrite Hv, repeat_length.
  destruct (n <? 5)%nat eqn:E; [apply Nat.ltb_lt in E; lia|].
  destruct (linearRegression_constant (Z2F z) n Fc Bn (fun _ => Mean)) as (_ & -> & _).
  rewrite (standardDeviation_constant (Z2F z) n Fc ltac:(lia) Mean), Mean.
  assert (Cv : JsNum.gt (0 / JsNum.orElse (Z2F z) 1) 0.3 = false).
  { destruct (Z.eq_dec z 0) as [->|N]; [reflexivity|].
    unfold JsNum.orElse. destruct (JsNum.truthy (Z2F z)); [|reflexivity].
    replace (0 / Z2F z)%float with 0%float; [reflexivity|].
    apply Prim2SF_inj. rewrite div_spec.
    destruct (Z2F_pos_spec z ltac:(nia)) as (m & e & -> & _). reflexivity. }
  change (JsNum.gt 0 0.7) with false. cbv iota. rewrite Cv.
  destruct (rollingForecast_constant z n periods Hn Bn Hz Hnz Hp Fc)
    as (preds & -> & Hl & Hval).
  cbn [bindC fst snd].
  destruct (JsNum.sneq _ 0).
  - destruct (propOf_defined preds (Z.of_nat (List.length preds) - 1) "value")
      as (a & Ha & _); [lia|].
    rewrite Ha. cbn [bindC]. eexists. split; [reflexivity|]. cbn.
    split; [reflexivity|]. split; [reflexivity|]. split; [exact Hl|exact Hval].
  - cbn [bindC]. eexists. split; [reflexivity|]. cbn.
    split; [reflexivity|]. split; [reflexivity|]. split; [exact Hl|exact Hval].
Qed.

Lemma constant_series_is_forecast_flat_witness :
  exists f,
    forecast (repeat [("sales", JNum 7)] 6) "sales" 3 Forecast.auto = Normal f
    /\ Forecast.method_ f = Forecast.rolling
    /\ Forecast.trend f = "stable outlook"
    /\ List.length (Forecast.predictions f) = 3%nat
    /\ (forall p, In p (Forecast.predictions f) ->
          Forecast.value p = 7%float
          /\ Forecast.lower (Forecast.confidence p) = 7%float
          /\ Forecast.upper (Forecast.confidence p) = 7%float).
Proof.
  apply (constant_series_is_forecast_flat (repeat [("sales", JNum 7)] 6) "sales" 6 7 3).
  - reflexivity.
  - lia.
  - reflexivity.
  - lia.
  - reflexivity.
  - split; [lia|reflexivity].
Defined.

(** *** The trend of a constant series *)

Lemma zero_div_orElse (z : Z) :
  (0 <= z < 2 ^ 53)%Z -> (0 / JsNum.orElse (Z2F z) 1)%float = 0%float.
Proof.
  intros Hz. destruct (Z.eq_dec z 0) as [->|N]; [reflexivity|].
  unfold JsNum.orElse. destruct (JsNum.truthy (Z2F z)); [|reflexivity].
  apply Prim2SF_inj. rewrite div_spec.
  destruct (Z2F_pos_spec z ltac:(lia)) as (m & e & -> & _). reflexivity.
Qed.

Lemma zero_div_abs (c : float) :
  PrimFloat.is_finite c = true ->
  (if JsNum.sneq c 0 then 0 / JsNum.abs c else 0)%float = 0%float.
Proof.
  intros F. apply is_finite_spec in F.
  unfold JsNum.sneq, JsNum.abs. rewrite FloatAxioms.eqb_spec.
  change (Prim2SF 0) with (S754_zero false).
  destruct (Prim2SF c) as [s|s| |s m e] eqn:E; try contradiction.
  - reflexivity.
  - replace (0 / abs c)%float with 0%float; [now destruct s|].
    apply Prim2SF_inj. rewrite div_spec, abs_spec, E. reflexivity.
Qed.

Lemma detectTrendDirection_constant (z : Z) (n : nat) :
  (Z.of_nat n < 2 ^ 32)%Z -> (0 <= z)%Z -> (Z.of_nat n * z < 2 ^ 53)%Z ->
  PrimFloat.is_finite (Z2F z) = true ->
  detectTrendDirection (repeat (Z2F z) n) = (Trend.stable, 0%float).
Proof.
  intros Bn Hz Hnz Fc. unfold detectTrendDirection. rewrite repeat_length.
  destruct (n <? 3)%nat eqn:E; [reflexivity|]. apply Nat.ltb_ge in E.
  assert (Mean : mean (repeat (Z2F z) n) = Z2F z)
    by (apply mean_repeat_Z2F; [exact Hz|lia|exact Hnz]).
  destruct (linearRegression_constant (Z2F z) n Fc Bn (fun _ => Mean)) as (-> & -> & _).
  rewrite (standardDeviation_constant (Z2F z) n Fc ltac:(lia) Mean), Mean.
  rewrite zero_div_orElse by nia. rewrite (zero_div_abs _ Fc). reflexivity.
Qed.

Lemma sum_squares_zeros (n : nat) :
  fold_left (fun s v : float => (s + v * v)%float) (repeat 0%float n) 0%float = 0%float.
Proof. induction n as [|n IH]; [reflexivity|]. cbn [repeat fold_left]. exact IH. Qed.

Lemma detectSeasonality_constant (c : float) (n : nat) :
  PrimFloat.is_finite c = true -> mean (repeat c n) = c ->
  detectSeasonality (repeat c n) = (false, None).
Proof.
  intros Fc Mean. unfold detectSeasonality. rewrite repeat_length.
  destruct (n <? 12)%nat; [reflexivity|].
  rewrite Mean, map_repeat, (sub_self c Fc), sum_squares_zeros.
  change (JsNum.sneq 0 0) with false. cbv iota.
  change (JsNum.gt 0 0.5) with false. cbn [find]. rewrite !andb_false_r. reflexivity.
Qed.

Lemma detectShifts_constant (c : float) (n : nat) :
  PrimFloat.is_finite c = true -> (Z.of_nat n < 2 ^ 53)%Z ->
  (forall k, (1 <= k <= n)%nat -> mean (repeat c k) = c) ->
  detectShifts (repeat c n) = [].
Proof.
  intros Fc Bn Mean. unfold detectShifts. rewrite repeat_length.
  destruct (n <? 5)%nat eqn:E; [reflexivity|]. apply Nat.ltb_ge in E.
  set (w := Nat.max 3 (n / 10)).
  rewrite flat_map_nil; [reflexivity|].
  intros i Hi. apply in_seq in Hi.
  rewrite (slice_repeat c n (i - w) i) by lia.
  replace (i - (i - w))%nat with w by lia.
  rewrite (standardDeviation_constant c w Fc ltac:(lia)); [reflexivity|].
  apply Mean. unfold w in *. lia.
Qed.

(** X28: the trend of a constant series.  For a column whose numeric values are
    [n] copies of a non-negative integer [z], with [n] from 3 to below 2^32
    and [n * z] below 2^53, [analyzeTrend] returns the stable direction with
    strength 0, moving averages all equal to [z], no seasonality, no shift,
    and the explanation that the metric remains relatively stable. *)
Theorem constant_series_has_stable_trend (rows : Dataset) (columnName : string)
        (n : nat) (z : Z) :
  extractNumericValues rows columnName = repeat (Z2F z) n ->
  (3 <= n)%nat -> (Z.of_nat n < 2 ^ 32)%Z -> (0 <= z)%Z -> (Z.of_nat n * z < 2 ^ 53)%Z ->
  analyzeTrend rows columnName
  = {| Trend.column := columnName;
       Trend.direction := Trend.stable;
       Trend.strength := 0;
       Trend.movingAverages := repeat (Z2F z) (n - Nat.max 3 (n / 10) + 1);
       Trend.seasonality := false;
       Trend.seasonalPeriod := None;
       Trend.shifts := [];
       Trend.explanation :=
         ("The " ++ quoted columnName
          ++ " metric remains relatively stable over the observed period.")%string |}.
Proof.
  intros Hv Hn Bn Hz Hnz.
  assert (Fc : PrimFloat.is_finite (Z2F z) = true).
  { assert (I : In (Z2F z) (extractNumericValues rows columnName)).
    { rewrite Hv. destruct n; [lia|]. now left. }
    unfold extractNumericValues in I. apply filter_In in I as [_ I].
    apply andb_true_iff in I as [_ I]. exact I. }
  assert (Mean : forall k, (1 <= k <= n)%nat -> mean (repeat (Z2F z) k) = Z2F z).
  { intros k Hk. apply mean_repeat_Z2F; [exact Hz|lia|nia]. }
  unfold analyzeTrend. rewrite Hv, repeat_length.
  destruct (n <? 3)%nat eqn:E; [apply Nat.ltb_lt in E; lia|].
  rewrite (detectTrendDirection_constant z n Bn Hz Hnz Fc).
  rewrite (detectSeasonality_constant (Z2F z) n Fc (Mean n ltac:(lia))).
  rewrite (detectShifts_constant (Z2F z) n Fc ltac:(lia) Mean).
  pose proof (Nat.Div0.div_le_upper_bound n 10 n ltac:(lia)) as Hw.
  rewrite movingAverage_constant by (try apply Mean; lia).
  reflexivity.
Qed.

Lemma constant_series_has_stable_trend_witness :
  analyzeTrend (repeat [("sales", JNum 7)] 6) "sales"
  = {| Trend.column := "sales";
       Trend.direction := Trend.stable;
       Trend.strength := 0;
       Trend.movingAverages := [7; 7; 7; 7]%float;
       Trend.seasonality := false;
       Trend.seasonalPeriod := None;
       Trend.shifts := [];
       Trend.explanation :=
         ("The " ++ quoted "sales"
          ++ " metric remains relatively stable over the observed period.")%string |}.
Proof.
  apply (constant_series_has_stable_trend (repeat [("sales", JNum 7)] 6) "sales" 6 7).
  - reflexivity.
  - lia.
  - reflexivity.
  - lia.
  - reflexivity.
Defined.
